(** * Lifecycle detection and snapshot selection: a shallow embedding

    The repository holds three scripts:
    - [pipeline-unificado-2022.py]  (modules [Unificado] and
      [UnificadoMonths] below),
    - [pipeline/pipeline-fase-1.py] (modules [Fase1] and [Fase1Client]),
    - [pipeline/pipeline-pilar3.py] (modules [Pilar3] and
      [Pilar3Snapshots]).

    Conventions of the embedding.
    - A timezone-aware [datetime] is the number of seconds since the Unix
      epoch, a [Z].  Every datetime of the scripts comes from GitHub's
      [committedDate] (ISO-8601, whole seconds, UTC) or from
      [strptime(..., "%Y-%m-%d")] (midnight UTC), so no sub-second part
      exists.  A [timedelta] is a difference of such numbers and its
      [.days] attribute is the floor of the quotient by 86400.
    - [list.sort] and [sorted] are stable; they are embedded as a stable
      insertion sort on the key.
    - Code that raises returns [Raise e]; code that talks to the network
      threads a [world] that logs the requests and the sleeps. *)

From Stdlib Require Import ZArith List Bool Lia Ascii String Sorted Permutation.
From stdpp Require Import base list gmap strings.
Import ListNotations.

Local Open Scope Z_scope.

(** ** Time *)

Definition timestamp := Z.

Definition SECONDS_PER_DAY : Z := 86400.

(** [dt.timedelta(days=n)] *)
Definition timedelta_days (n : Z) : Z := n * SECONDS_PER_DAY.

(** [delta.days] for a timedelta of [delta] seconds: Python normalises a
    timedelta so that [0 <= seconds < 86400], hence [days] is a floor. *)
Definition days_of (delta : Z) : Z := delta / SECONDS_PER_DAY.

(** ** Python's stable sort *)

Section PySort.
Context {A : Type} (key : A -> Z).

Fixpoint insert_by (x : A) (l : list A) : list A :=
  match l with
  | [] => [x]
  | y :: l' => if key x <=? key y then x :: y :: l' else y :: insert_by x l'
  end.

(** [sorted(l, key=key)]: ascending, equal keys keep their input order. *)
Definition sorted_by (l : list A) : list A := fold_right insert_by [] l.

(** The order a sort on [key] establishes. *)
Definition key_le (x y : A) : Prop := key x <= key y.

(** [l.sort(key=key, reverse=True)]: CPython reverses the list, sorts it
    ascending and stable, and reverses it again, so that equal keys keep
    their input order in the descending result. *)
Definition sorted_by_reverse (l : list A) : list A := rev (sorted_by (rev l)).
End PySort.

(** [commit_dates.sort()] on datetimes. *)
Definition sort_dates (l : list timestamp) : list timestamp := sorted_by (fun t => t) l.

(** ** InactivityDetector

    [detect_inactivity_periods] has the same text in
    [pipeline-unificado-2022.py] (lines 64-72) and in
    [pipeline/pipeline-fase-1.py] (lines 63-71). *)

Definition default_threshold_days : Z := 180.

(** The body of [for i in range(1, len(commit_dates))]. *)
Definition detect_step (commit_dates : list timestamp) (threshold_days : Z)
    (periods : list (timestamp * timestamp)) (i : nat) : list (timestamp * timestamp) :=
  let delta := days_of (nth i commit_dates 0 - nth (i - 1) commit_dates 0) in
  if threshold_days <=? delta
  then periods ++ [(nth (i - 1) commit_dates 0, nth i commit_dates 0)]
  else periods.

Definition detect_inactivity_periods (commit_dates : list timestamp) (threshold_days : Z)
    : list (timestamp * timestamp) :=
  let commit_dates := sort_dates commit_dates in
  fold_left (detect_step commit_dates threshold_days)
            (seq 1 (length commit_dates - 1)) [].

(** Consecutive pairs [(t[i-1], t[i])] of a sequence, in order. *)
Fixpoint adjacent (l : list timestamp) : list (timestamp * timestamp) :=
  match l with
  | a :: (b :: _) as l' => (a, b) :: adjacent l'
  | _ => []
  end.

(** The test [(t[i] - t[i-1]).days >= threshold_days] on a pair. *)
Definition is_gap (threshold_days : Z) (p : timestamp * timestamp) : bool :=
  threshold_days <=? days_of (snd p - fst p).

(** No consecutive pair of [l] is [threshold_days] days apart or more. *)
Definition no_gap (threshold_days : Z) (l : list timestamp) : Prop :=
  forall a b, In (a, b) (adjacent l) -> days_of (b - a) < threshold_days.


(** ** Results and exceptions *)

Inductive exn : Type :=
  | KeyError (key : string)
  | AttributeError
  | IndexError
  | JSONDecodeError
  | RequestException
  | PipelineError (msg : string).

(** What a call of a Python function ends in. *)
Inductive outcome (A : Type) : Type :=
  | Ret (a : A)
  | Raise (e : exn).
Arguments Ret {A} a.
Arguments Raise {A} e.

Definition outcome_bind {A B : Type} (o : outcome A) (k : A -> outcome B) : outcome B :=
  match o with
  | Ret a => k a
  | Raise e => Raise e
  end.

(** ** The JSON the GraphQL endpoint answers with

    A key of a JSON object is absent, present with [null], or present with
    a value: [dict.get(k, default)] tells the first from the second. *)

Inductive field (A : Type) : Type :=
  | Missing
  | Null
  | Present (a : A).
Arguments Missing {A}.
Arguments Null {A}.
Arguments Present {A} a.

(** [d.get(k)]: Python's [None] for an absent key and for [null]. *)
Definition dict_get {A : Type} (f : field A) : option A :=
  match f with
  | Present a => Some a
  | _ => None
  end.

(** An element of [history.nodes].  For [oid] and [messageHeadline],
    [None] is an absent key; for [committedDate], [None] is an absent key
    or an empty value, and [Some t] is the datetime that
    [fromisoformat(s.replace("Z", "+00:00"))] reads from the string. *)
Record commit_node : Type := {
  oid : option string;
  committedDate : option timestamp;
  messageHeadline : option string
}.

Record history_obj : Type := { nodes : field (list commit_node) }.
Record target_obj : Type := { history : field history_obj }.
Record branch_ref : Type := { target : field target_obj }.

(** The empty dict [{}] at each of these types. *)
Definition empty_history : history_obj := {| nodes := Missing |}.
Definition empty_target : target_obj := {| history := Missing |}.
Definition empty_branch : branch_ref := {| target := Missing |}.

(** A repository node of the search queries of [Unificado] and [Fase1]. *)
Record repo : Type := {
  nameWithOwner : string;
  stargazerCount : Z;
  url : string;
  primaryLanguage : option string;
  defaultBranchRef : field branch_ref
}.

(** [d.get(k, {})] followed by a method call on the result: the default
    only replaces an absent key, and a [null] makes the call that follows
    raise [AttributeError]. *)
Definition get_or {A : Type} (default : A) (f : field A) : outcome A :=
  match f with
  | Missing => Ret default
  | Null => Raise AttributeError
  | Present a => Ret a
  end.

(** [repo.get("defaultBranchRef", {}).get("target", {}).get("history", {}).get("nodes", [])];
    the last [get] is not followed by a call, so a [null] list comes out as
    Python's [None]. *)
Definition repo_commits (r : repo) : outcome (option (list commit_node)) :=
  outcome_bind (get_or empty_branch (defaultBranchRef r)) (fun b =>
  outcome_bind (get_or empty_target (target b)) (fun t =>
  outcome_bind (get_or empty_history (history t)) (fun h =>
  match nodes h with
  | Missing => Ret (Some [])
  | Null => Ret None
  | Present l => Ret (Some l)
  end))).

(** [any(c > revive_dt for c in commit_dates)] *)
Definition has_commit_after (revive_dt : timestamp) (commit_dates : list timestamp) : bool :=
  existsb (fun c => revive_dt <? c) commit_dates.

(** ** The remote endpoint

    [requests.post(GRAPHQL_URL, json={"query": query, "variables": variables}, ...)]
    either raises (no HTTP answer: [NoReply]) or returns a response with a
    status code and a body; [json] is what [response.json()] decodes, [None]
    when the body is not JSON.  The endpoint is a function of the number of
    requests it has already received and of the request; the [world] logs
    the requests sent and the seconds slept.  The authorization header and
    the [print] calls are left out. *)

Record request (V : Type) : Type := { rq_query : string; rq_variables : V }.
Arguments rq_query {V} _.
Arguments rq_variables {V} _.

(** A decoded body: [p_errors] is [Some msgs] when the key ["errors"] is in
    the object. *)
Record payload (D : Type) : Type := { p_errors : option (list string); p_data : field D }.
Arguments p_errors {D} _.
Arguments p_data {D} _.

Inductive reply (D : Type) : Type :=
  | NoReply
  | Http (status_code : Z) (json : option (payload D)).
Arguments NoReply {D}.
Arguments Http {D} status_code json.

Record world (V : Type) : Type := { sent : list (request V); slept : Z }.
Arguments sent {V} _.
Arguments slept {V} _.

Definition M (V A : Type) : Type := world V -> outcome A * world V.

Definition ret {V A : Type} (a : A) : M V A := fun w => (Ret a, w).

Definition raise {V A : Type} (e : exn) : M V A := fun w => (Raise e, w).

Definition bind {V A B : Type} (c : M V A) (k : A -> M V B) : M V B :=
  fun w =>
    match c w with
    | (Ret a, w') => k a w'
    | (Raise e, w') => (Raise e, w')
    end.

Notation "'let*' x ':=' c 'in' k" := (bind c (fun x => k))
  (at level 10, x name, c at level 100, k at level 200).

(** [time.sleep(seconds)] *)
Definition sleep {V : Type} (seconds : Z) : M V unit :=
  fun w => (Ret tt, {| sent := sent w; slept := slept w + seconds |}).

Section Post.
Context {V D : Type}.
Variable server : nat -> request V -> reply D.

(** [requests.post]: the reply is the endpoint's, and the request is
    logged. *)
Definition post (rq : request V) : M V (reply D) :=
  fun w => (Ret (server (length (sent w)) rq),
            {| sent := sent w ++ [rq]; slept := slept w |}).
End Post.

(** ** pipeline-unificado-2022.py *)

Module Unificado.

Section Client.
Context {V D : Type}.
Variable server : nat -> request V -> reply D.

(** One round of the [while True] loop of [run_query]: [Some r] when the
    round executes [return r], [None] when it falls through to the next
    round. *)
Definition run_query_round (rq : request V) : M V (option (option D)) :=
  let* response := post server rq in
  match response with
  | NoReply => raise RequestException
  | Http status_code json =>
      if status_code =? 200 then
        match json with
        | None => raise JSONDecodeError
        | Some data =>
            match p_errors data with
            | Some _ => ret (Some None)
            | None =>
                match p_data data with
                | Missing => raise (KeyError "data")
                | Null => ret (Some None)
                | Present d => ret (Some (Some d))
                end
            end
        end
      else if status_code =? 502 then
        let* _ := sleep 5 in ret None
      else if status_code =? 403 then
        let* _ := sleep 60 in ret None
      else ret (Some None)
  end.

(** [run_query]: the loop has no exit of its own, so the embedding takes
    the number of rounds it may run; [None] says that [rounds] rounds did
    not reach a [return] or a [raise]. *)
Fixpoint run_query_rounds (rounds : nat) (rq : request V) (w : world V)
    : option (outcome (option D) * world V) :=
  match rounds with
  | O => None
  | S rounds' =>
      match run_query_round rq w with
      | (Ret None, w') => run_query_rounds rounds' rq w'
      | (Ret (Some r), w') => Some (Ret r, w')
      | (Raise e, w') => Some (Raise e, w')
      end
  end.

Definition run_query (rounds : nat) (query : string) (variables : V) (w : world V)
    : option (outcome (option D) * world V) :=
  run_query_rounds rounds {| rq_query := query; rq_variables := variables |} w.
End Client.

Record analysis : Type := {
  Nome : string;
  Stargazers : Z;
  URL : string;
  Data_de_morte : option string;
  Data_de_ressurreicao : option string;
  Morreu_apos_reviver : Z
}.

(** [[fromisoformat(c["committedDate"].replace("Z", "+00:00")) for c in commits]] *)
Fixpoint commit_dates_of (commits : list commit_node) : outcome (list timestamp) :=
  match commits with
  | [] => Ret []
  | c :: cs =>
      match committedDate c with
      | None => Raise (KeyError "committedDate")
      | Some t => outcome_bind (commit_dates_of cs) (fun ts => Ret (t :: ts))
      end
  end.

Section Classifier.
(** [d.strftime("%Y-%m-%d")] *)
Variable strftime_ymd : timestamp -> string.

Definition analyze_repo (r : repo) : outcome (option analysis) :=
  let name := nameWithOwner r in
  let stars := stargazerCount r in
  let url := url r in
  outcome_bind (repo_commits r) (fun commits =>
  match commits with
  | None | Some [] => Ret None
  | Some commits =>
      outcome_bind (commit_dates_of commits) (fun commit_dates =>
      let commit_dates := sort_dates commit_dates in
      let inactivity_periods := detect_inactivity_periods commit_dates default_threshold_days in
      match inactivity_periods with
      | [] =>
          Ret (Some {| Nome := name; Stargazers := stars; URL := url;
                       Data_de_morte := None;
                       Data_de_ressurreicao := None;
                       Morreu_apos_reviver := 0 |})
      | first_period :: _ =>
          let morte := strftime_ymd (fst first_period) in
          let ressurreicao := strftime_ymd (snd first_period) in
          let morreu_de_novo := if (1 <? length inactivity_periods)%nat then 1 else 0 in
          Ret (Some {| Nome := name; Stargazers := stars; URL := url;
                       Data_de_morte := Some morte;
                       Data_de_ressurreicao := Some ressurreicao;
                       Morreu_apos_reviver := morreu_de_novo |})
      end)
  end).
End Classifier.

End Unificado.

(** ** pipeline/pipeline-fase-1.py: the classifier *)

Module Fase1.

Record analysis : Type := {
  Nome : string;
  Linguagem : string;
  Stargazers : Z;
  URL : string;
  Data_de_morte : string;
  Data_de_ressurreicao : option string;
  Morreu_apos_reviver : Z;
  Commits_analisados : nat
}.

(** [[fromisoformat(...) for c in commits if c.get("committedDate")]] *)
Definition commit_dates_of (commits : list commit_node) : list timestamp :=
  omap committedDate commits.

Section Classifier.
Variable strftime_ymd : timestamp -> string.

Definition analyze_repo (r : repo) : outcome (option analysis) :=
  let name := nameWithOwner r in
  let stars := stargazerCount r in
  let url := url r in
  let lang := match primaryLanguage r with Some l => l | None => "N/A"%string end in
  outcome_bind (repo_commits r) (fun commits =>
  match commits with
  | None | Some [] => Ret None
  | Some commits =>
      let commit_dates := sort_dates (commit_dates_of commits) in
      let inactivity_periods := detect_inactivity_periods commit_dates default_threshold_days in
      match inactivity_periods with
      | [] => Ret None
      | (morte_dt, revive_dt) :: _ =>
          let morreu_de_novo := if (1 <? length inactivity_periods)%nat then 1 else 0 in
          let has_commits_after_revive := has_commit_after revive_dt commit_dates in
          Ret (Some {| Nome := name; Linguagem := lang; Stargazers := stars; URL := url;
                       Data_de_morte := strftime_ymd morte_dt;
                       Data_de_ressurreicao :=
                         if has_commits_after_revive then Some (strftime_ymd revive_dt) else None;
                       Morreu_apos_reviver := morreu_de_novo;
                       Commits_analisados := length commit_dates |})
      end
  end).
End Classifier.

End Fase1.

(** ** Python dicts and strings used by [Pilar3] *)

(** [d[k] = v] on a dict kept in insertion order: an existing key keeps its
    place and takes the new value, a new key goes to the end. *)
Fixpoint dict_set {B : Type} (k : string) (v : B) (d : list (string * B)) : list (string * B) :=
  match d with
  | [] => [(k, v)]
  | (k', v') :: d' =>
      if String.eqb k k' then (k, v) :: d' else (k', v') :: dict_set k v d'
  end.

(** [d.values()] *)
Definition dict_values {B : Type} (d : list (string * B)) : list B := map snd d.

(** A Python [str] where its characters matter: the list of its Unicode
    code points. *)
Definition codepoint := N.

Definition py_str (s : string) : list codepoint := map N_of_ascii (list_ascii_of_string s).

(** [c in s] for a one-character [c]. *)
Definition char_in (c : codepoint) (s : list codepoint) : bool := existsb (N.eqb c) s.

(** The ASCII characters that [str.strip()] removes. *)
Definition is_space (c : ascii) : bool :=
  let n := N_of_ascii c in
  ((9 <=? n) && (n <=? 13) || (28 <=? n) && (n <=? 32))%N.

Fixpoint lstrip_chars (l : list ascii) : list ascii :=
  match l with
  | c :: l' => if is_space c then lstrip_chars l' else l
  | [] => []
  end.

(** [s.strip()] on a string of ASCII characters. *)
Definition py_strip (s : string) : string :=
  string_of_list_ascii (rev (lstrip_chars (rev (lstrip_chars (list_ascii_of_string s))))).

(** ** pipeline/pipeline-pilar3.py *)

Module Pilar3.

Definition RETRY_LIMIT : nat := 3.

Record SnapshotCommit : Type := {
  sha : string;
  committed_at : timestamp;
  message : string
}.

Section Client.
Context {V D : Type}.
Variable server : nat -> request V -> reply D.

(** The [for attempt in range(1, RETRY_LIMIT + 1)] loop of [run_query],
    over the attempts still to make. *)
Fixpoint run_query_attempts (attempts : list nat) (rq : request V) : M V (option D) :=
  match attempts with
  | [] => ret None
  | _ :: rest =>
      let* response := post server rq in
      match response with
      | NoReply => raise RequestException
      | Http status_code json =>
          if status_code =? 200 then
            match json with
            | None => raise JSONDecodeError
            | Some payload =>
                match p_errors payload with
                | Some _ => ret None
                | None => ret (dict_get (p_data payload))
                end
            end
          else if status_code =? 502 then
            let* _ := sleep 5 in run_query_attempts rest rq
          else if status_code =? 403 then
            let* _ := sleep 60 in run_query_attempts rest rq
          else
            let* _ := sleep 10 in run_query_attempts rest rq
      end
  end.

Definition run_query (query : string) (variables : V) : M V (option D) :=
  run_query_attempts (seq 1 RETRY_LIMIT) {| rq_query := query; rq_variables := variables |}.
End Client.

(** The variables of [COMMITS_WINDOW_QUERY]; [since] and [until] travel in
    the rendering of [to_iso8601], which is one-to-one on whole seconds. *)
Record window_variables : Type := {
  var_owner : string;
  var_name : string;
  var_first : Z;
  var_since : option timestamp;
  var_until : option timestamp
}.

Record repository : Type := { repository_defaultBranchRef : field branch_ref }.
Record data : Type := { data_repository : field repository }.

(** The query document, by its name. *)
Definition COMMITS_WINDOW_QUERY : string := "COMMITS_WINDOW_QUERY".

Definition snapshot_of (sha : string) (committed_at : timestamp) (node : commit_node)
    : SnapshotCommit :=
  {| sha := sha; committed_at := committed_at;
     message := match messageHeadline node with Some m => m | None => ""%string end |}.

(** The [for node in commits] loop of [pick_pre_death_commit]. *)
Fixpoint parse_pre_death (end_boundary : timestamp) (commits : list commit_node)
    (parsed : list SnapshotCommit) : outcome (list SnapshotCommit) :=
  match commits with
  | [] => Ret parsed
  | node :: rest =>
      match committedDate node with
      | None => Raise (KeyError "committedDate")
      | Some committed_at =>
          if committed_at <=? end_boundary then
            match oid node with
            | None => Raise (KeyError "oid")
            | Some sha =>
                parse_pre_death end_boundary rest (parsed ++ [snapshot_of sha committed_at node])
            end
          else parse_pre_death end_boundary rest parsed
      end
  end.

(** The body of the [for node in commits] loop of [pick_post_revive_commit]. *)
Definition collect_node (revive_date : timestamp) (collected : list (string * SnapshotCommit))
    (node : commit_node) : list (string * SnapshotCommit) :=
  match committedDate node with
  | None => collected
  | Some committed_at =>
      if revive_date <=? committed_at then
        match oid node with
        | None => collected
        | Some sha =>
            if String.eqb sha "" then collected
            else dict_set sha (snapshot_of sha committed_at node) collected
        end
      else collected
  end.

Section Selector.
Variable server : nat -> request window_variables -> reply data.

Definition fetch_commits (owner name : string) (since until : option timestamp) (first : Z)
    : M window_variables (option (list commit_node)) :=
  let variables := {| var_owner := owner; var_name := name; var_first := first;
                      var_since := since; var_until := until |} in
  let* data := run_query server COMMITS_WINDOW_QUERY variables in
  match data with
  | None => ret (Some [])
  | Some data =>
      match dict_get (data_repository data) with
      | None => ret (Some [])
      | Some repo =>
          match dict_get (repository_defaultBranchRef repo) with
          | None => ret (Some [])
          | Some branch =>
              let target :=
                match dict_get (target branch) with Some t => t | None => empty_target end in
              let history :=
                match dict_get (history target) with Some h => h | None => empty_history end in
              match nodes history with
              | Missing => ret (Some [])
              | Null => ret None
              | Present l => ret (Some l)
              end
          end
      end
  end.

(** The [for window in search_windows] loop of [pick_pre_death_commit]. *)
Fixpoint pre_death_windows (owner name : string) (death_date end_boundary : timestamp)
    (search_windows : list Z) : M window_variables (option SnapshotCommit) :=
  match search_windows with
  | [] => ret None
  | window :: rest =>
      let since := death_date - timedelta_days window in
      let* commits := fetch_commits owner name (Some since) (Some end_boundary) 100 in
      match commits with
      | None | Some [] => pre_death_windows owner name death_date end_boundary rest
      | Some commits =>
          match parse_pre_death end_boundary commits [] with
          | Raise e => raise e
          | Ret [] => pre_death_windows owner name death_date end_boundary rest
          | Ret parsed =>
              match sorted_by_reverse committed_at parsed with
              | first :: _ => ret (Some first)
              | [] => raise IndexError
              end
          end
      end
  end.

Definition pick_pre_death_commit (owner name : string) (death_date : timestamp)
    : M window_variables (option SnapshotCommit) :=
  let search_windows := [90; 180; 365; 730] in
  let end_boundary := death_date + timedelta_days 1 in
  pre_death_windows owner name death_date end_boundary search_windows.

(** The [for window in search_windows] loop of [pick_post_revive_commit]. *)
Fixpoint post_revive_windows (owner name : string) (revive_date : timestamp)
    (search_windows : list Z) (collected : list (string * SnapshotCommit))
    : M window_variables (option SnapshotCommit) :=
  match search_windows with
  | [] => ret None
  | window :: rest =>
      let since := revive_date in
      let until := revive_date + timedelta_days window in
      let* commits := fetch_commits owner name (Some since) (Some until) 100 in
      match commits with
      | None | Some [] => post_revive_windows owner name revive_date rest collected
      | Some commits =>
          let collected := fold_left (collect_node revive_date) commits collected in
          let ordered := sorted_by committed_at (dict_values collected) in
          if (10 <=? length ordered)%nat then
            match nth_error ordered 9 with
            | Some c => ret (Some c)
            | None => raise IndexError
            end
          else post_revive_windows owner name revive_date rest collected
      end
  end.

Definition pick_post_revive_commit (owner name : string) (revive_date : timestamp)
    : M window_variables (option SnapshotCommit) :=
  let search_windows := [30; 90; 180; 365; 730] in
  post_revive_windows owner name revive_date search_windows [].
End Selector.

Section Sanitize.
(** [c.isalnum()] for a one-character string. *)
Variable isalnum : codepoint -> bool.

Definition sanitize_char (c : codepoint) : codepoint :=
  if isalnum c || char_in c (py_str "-_") then c else N_of_ascii "-".

Definition sanitize_branch_name (value : list codepoint) : list codepoint :=
  let allowed := map sanitize_char value in
  match firstn 100 allowed with
  | [] => py_str "snapshot"
  | s => s
  end.
End Sanitize.

Record dates : Type := { death : timestamp; revive : timestamp }.

Section ParseDates.
(** [dt.datetime.strptime(s, "%Y-%m-%d").replace(tzinfo=dt.timezone.utc)];
    [None] when [strptime] raises [ValueError]. *)
Variable strptime_ymd : string -> option timestamp.

(** A spreadsheet row: each cell present under its column name, as the
    text [str(cell)]. *)
Definition parse_dates (row : gmap string string) : outcome dates :=
  let morte_str := py_strip (default ""%string (row !! "Data de morte"%string)) in
  let revive_str := py_strip (default ""%string (row !! "Data de ressurreição"%string)) in
  if String.eqb revive_str "" then
    Raise (PipelineError "Linha sem data de ressurreição válida")
  else
    match strptime_ymd revive_str with
    | None => Raise (PipelineError ("Data de ressurreição inválida: " ++ revive_str))
    | Some revive_date =>
        let death_date :=
          if String.eqb morte_str "" then None else strptime_ymd morte_str in
        let death_date :=
          match death_date with
          | Some d => d
          | None => revive_date - timedelta_days 1
          end in
        Ret {| death := death_date; revive := revive_date |}
    end.
End ParseDates.

End Pilar3.

(** ** The Gregorian calendar, for running the scripts on dates

    [strftime("%Y-%m-%d")] and [strptime(s, "%Y-%m-%d")] on UTC datetimes,
    for the years 1000 to 9999 and the ten-character form [YYYY-MM-DD] that
    [strftime] writes.  The theorems below hold for any formatter and any
    parser; these two instantiate them on concrete inputs. *)

(** Days from 1970-01-01 to the civil date [y]-[m]-[d]. *)
Definition days_from_civil (y m d : Z) : Z :=
  let y := if m <=? 2 then y - 1 else y in
  let era := y / 400 in
  let yoe := y - era * 400 in
  let doy := (153 * (if 2 <? m then m - 3 else m + 9) + 2) / 5 + d - 1 in
  let doe := yoe * 365 + yoe / 4 - yoe / 100 + doy in
  era * 146097 + doe - 719468.

(** The civil date of the day [z] days after 1970-01-01. *)
Definition civil_from_days (z : Z) : Z * Z * Z :=
  let z := z + 719468 in
  let era := z / 146097 in
  let doe := z - era * 146097 in
  let yoe := (doe - doe / 1460 + doe / 36524 - doe / 146096) / 365 in
  let doy := doe - (365 * yoe + yoe / 4 - yoe / 100) in
  let mp := (5 * doy + 2) / 153 in
  let d := doy - (153 * mp + 2) / 5 + 1 in
  let m := if mp <? 10 then mp + 3 else mp - 9 in
  (if m <=? 2 then yoe + era * 400 + 1 else yoe + era * 400, m, d).

Definition digit_char (d : Z) : ascii := ascii_of_N (Z.to_N (48 + d mod 10)).

Definition digit_value (c : ascii) : option Z :=
  let n := Z.of_N (N_of_ascii c) in
  if (48 <=? n) && (n <=? 57) then Some (n - 48) else None.

Definition iso_strftime (t : timestamp) : string :=
  let '(y, m, d) := civil_from_days (t / SECONDS_PER_DAY) in
  string_of_list_ascii
    [digit_char (y / 1000); digit_char (y / 100); digit_char (y / 10); digit_char y;
     "-"%char; digit_char (m / 10); digit_char m;
     "-"%char; digit_char (d / 10); digit_char d].

Definition number_of (digits : list ascii) : option Z :=
  fold_left (fun acc c =>
               match acc, digit_value c with
               | Some n, Some v => Some (10 * n + v)
               | _, _ => None
               end) digits (Some 0).

Definition iso_strptime (s : string) : option timestamp :=
  match list_ascii_of_string s with
  | [y1; y2; y3; y4; s1; m1; m2; s2; d1; d2] =>
      match number_of [y1; y2; y3; y4], number_of [m1; m2], number_of [d1; d2] with
      | Some y, Some m, Some d =>
          if Ascii.eqb s1 "-" && Ascii.eqb s2 "-" && (1000 <=? y)
             && (1 <=? m) && (m <=? 12) && (1 <=? d)
             && (let '(y', m', d') := civil_from_days (days_from_civil y m d) in
                 (y' =? y) && (m' =? m) && (d' =? d))
          then Some (days_from_civil y m d * SECONDS_PER_DAY)
          else None
      | _, _, _ => None
      end
  | _ => None
  end.

(** [str.isalnum] on the ASCII code points, and false elsewhere. *)
Definition ascii_isalnum (c : codepoint) : bool :=
  ((48 <=? c) && (c <=? 57) || (65 <=? c) && (c <=? 90) || (97 <=? c) && (c <=? 122))%N.

(** ** Vocabulary of the statements about [Pilar3] *)

(** The answer names no default branch: the repository or its
    [defaultBranchRef] is absent or [null]. *)
Definition no_default_branch (d : Pilar3.data) : Prop :=
  match dict_get (Pilar3.data_repository d) with
  | None => True
  | Some r => dict_get (Pilar3.repository_defaultBranchRef r) = None
  end.

(** The default branch carries no commit history: its [target] or the
    target's [history] is absent or [null], or the history lists no node. *)
Definition no_history (b : branch_ref) : Prop :=
  match dict_get (target b) with
  | None => True
  | Some t =>
      match dict_get (history t) with
      | None => True
      | Some h => nodes h = Missing \/ nodes h = Present []
      end
  end.

Definition no_commit_history (d : Pilar3.data) : Prop :=
  exists r b,
    dict_get (Pilar3.data_repository d) = Some r /\
    dict_get (Pilar3.repository_defaultBranchRef r) = Some b /\
    no_history b.

(** What a call of [fetch_commits] handed to the selectors: Python's [None]
    counts as no node, as in [if not commits]. *)
Definition fetched_nodes (f : option (list commit_node)) : list commit_node :=
  match f with
  | Some l => l
  | None => []
  end.

Section Ladder.
Variable server : nat -> request Pilar3.window_variables -> reply Pilar3.data.
Variables owner name : string.
(** The [since] and [until] a selector asks for at a window. *)
Variable bounds : Z -> option timestamp * option timestamp.

(** [fetch_chain w tried w']: starting in world [w], the calls of
    [fetch_commits] for the windows of [tried], one after the other, each
    with page size 100, returned the lists of [tried] and left world
    [w']. *)
Inductive fetch_chain
    : world Pilar3.window_variables -> list (Z * option (list commit_node)) ->
      world Pilar3.window_variables -> Prop :=
  | chain_done w : fetch_chain w [] w
  | chain_step w window fetched w1 tried w2 :
      Pilar3.fetch_commits server owner name (fst (bounds window)) (snd (bounds window)) 100 w
        = (Ret fetched, w1) ->
      fetch_chain w1 tried w2 ->
      fetch_chain w ((window, fetched) :: tried) w2.
End Ladder.

(** The window [[death_date - window days, death_date + 1 day]]. *)
Definition pre_death_bounds (death_date : timestamp) (window : Z)
    : option timestamp * option timestamp :=
  (Some (death_date - timedelta_days window), Some (death_date + timedelta_days 1)).

(** The window [[revive_date, revive_date + window days]]. *)
Definition post_revive_bounds (revive_date : timestamp) (window : Z)
    : option timestamp * option timestamp :=
  (Some revive_date, Some (revive_date + timedelta_days window)).

(** [c] is the [SnapshotCommit] built from [node]. *)
Definition snapshot_from (node : commit_node) (c : Pilar3.SnapshotCommit) : Prop :=
  committedDate node = Some (Pilar3.committed_at c) /\
  oid node = Some (Pilar3.sha c) /\
  Pilar3.message c = match messageHeadline node with Some m => m | None => ""%string end.

(** Every dated node fetched in [tried] is after [boundary]. *)
Definition none_at_or_before (boundary : timestamp)
    (tried : list (Z * option (list commit_node))) : Prop :=
  forall window f node t,
    In (window, f) tried -> In node (fetched_nodes f) ->
    committedDate node = Some t -> boundary < t.

(** [c] comes from a node of [fetched], is at or before [boundary], and no
    node of [fetched] at or before [boundary] is later. *)
Definition latest_at_or_before (boundary : timestamp) (fetched : list commit_node)
    (c : Pilar3.SnapshotCommit) : Prop :=
  (exists node, In node fetched /\ snapshot_from node c) /\
  Pilar3.committed_at c <= boundary /\
  forall node t, In node fetched -> committedDate node = Some t -> t <= boundary ->
                 t <= Pilar3.committed_at c.

(** The endpoint always answers over HTTP, and its 200 answers decode as
    JSON: [requests.post] and [response.json()] do not raise. *)
Definition answers {V D : Type} (server : nat -> request V -> reply D) : Prop :=
  forall k rq, exists status_code body,
    server k rq = Http status_code body /\ (status_code = 200 -> body <> None).

(** Every node that [fetch_commits] hands over carries the [committedDate]
    and [oid] the window query asks for. *)
Definition nodes_complete
    (server : nat -> request Pilar3.window_variables -> reply Pilar3.data) : Prop :=
  forall owner name since until first w f w',
    Pilar3.fetch_commits server owner name since until first w = (Ret f, w') ->
    forall node, In node (fetched_nodes f) ->
                 committedDate node <> None /\ oid node <> None.

(** All the nodes fetched in [tried], window after window. *)
Definition all_nodes (tried : list (Z * option (list commit_node))) : list commit_node :=
  flat_map (fun p => fetched_nodes (snd p)) tried.

(** [c] is the snapshot of [node], a commit at or after [revive_date] that
    carries a hash. *)
Definition post_revival_commit (revive_date : timestamp) (node : commit_node)
    (c : Pilar3.SnapshotCommit) : Prop :=
  snapshot_from node c /\ revive_date <= Pilar3.committed_at c /\ Pilar3.sha c <> ""%string.

(** [acc] is a collection of the post-revival commits among [fetched],
    deduplicated by hash: no hash twice, every element the snapshot of a
    fetched post-revival commit, and every fetched post-revival commit
    represented by its hash. *)
Definition accumulation (revive_date : timestamp) (fetched : list commit_node)
    (acc : list Pilar3.SnapshotCommit) : Prop :=
  List.NoDup (map Pilar3.sha acc) /\
  (forall c, In c acc -> exists node, In node fetched /\ post_revival_commit revive_date node c) /\
  (forall node c, In node fetched -> post_revival_commit revive_date node c ->
     exists c', In c' acc /\ Pilar3.sha c' = Pilar3.sha c).

(** The state of the [collected] dict of [pick_post_revive_commit] once the
    nodes [seen] went through its loop: each key is the hash of its value,
    no key twice, every value the snapshot of a post-revival commit seen,
    every post-revival commit seen present under its hash. *)
Definition collected_ok (revive_date : timestamp) (seen : list commit_node)
    (collected : list (string * Pilar3.SnapshotCommit)) : Prop :=
  (forall k v, In (k, v) collected -> Pilar3.sha v = k) /\
  List.NoDup (map fst collected) /\
  (forall k v, In (k, v) collected ->
     exists node, In node seen /\ post_revival_commit revive_date node v) /\
  (forall node c, In node seen -> post_revival_commit revive_date node c ->
     In (Pilar3.sha c) (map fst collected)).

(** A character that [sanitize_branch_name] keeps. *)
Definition allowed_char (isalnum : codepoint -> bool) (c : codepoint) : Prop :=
  isalnum c = true \/ c = N_of_ascii "-" \/ c = N_of_ascii "_".

(** ** Inputs for running the scripts *)

(** A history node of the search queries, which ask for [committedDate]
    only. *)
Definition node_at (t : timestamp) : commit_node :=
  {| oid := None; committedDate := Some t; messageHeadline := None |}.

(** A search result whose default branch has commits at the given times. *)
Definition repo_with (ts : list timestamp) : repo :=
  {| nameWithOwner := "octo/demo";
     stargazerCount := 4200;
     url := "https://github.com/octo/demo";
     primaryLanguage := Some "Python"%string;
     defaultBranchRef :=
       Present {| target := Present {| history :=
         Present {| nodes := Present (map node_at ts) |} |} |} |}.

(** An endpoint that answers every request with HTTP 502, and the world
    before any request. *)
Definition always_502 : nat -> request unit -> reply unit := fun _ _ => Http 502 None.

Definition world0 {V : Type} : world V := {| sent := []; slept := 0 |}.

(** An endpoint whose repository has no default branch, as GitHub answers
    for an empty repository. *)
Definition empty_repository_server
    : nat -> request Pilar3.window_variables -> reply Pilar3.data :=
  fun _ _ =>
    Http 200 (Some {| p_errors := None;
                      p_data := Present {| Pilar3.data_repository :=
                        Present {| Pilar3.repository_defaultBranchRef := Null |} |} |}).

(** An endpoint that is down for every window query. *)
Definition failing_server
    : nat -> request Pilar3.window_variables -> reply Pilar3.data :=
  fun _ _ => Http 502 None.

(** An endpoint that serves a fixed history the way the window query asks:
    the commits dated within [[since, until]], at most [first] of them. *)
Definition in_window (v : Pilar3.window_variables) (node : commit_node) : bool :=
  match committedDate node with
  | Some t =>
      match Pilar3.var_since v with Some since => since <=? t | None => true end
      && match Pilar3.var_until v with Some until => t <=? until | None => true end
  | None => false
  end.

Definition history_server (commits : list commit_node)
    : nat -> request Pilar3.window_variables -> reply Pilar3.data :=
  fun _ rq =>
    let v := rq_variables rq in
    let page := firstn (Z.to_nat (Pilar3.var_first v)) (List.filter (in_window v) commits) in
    Http 200 (Some {| p_errors := None;
                      p_data := Present {| Pilar3.data_repository :=
                        Present {| Pilar3.repository_defaultBranchRef :=
                          Present {| target := Present {| history :=
                            Present {| nodes := Present page |} |} |} |} |} |}).

(** A commit of such a history. *)
Definition commit_at (sha : string) (t : timestamp) : commit_node :=
  {| oid := Some sha; committedDate := Some t; messageHeadline := Some "update"%string |}.

(** A history that stops on 2019-07-01 and resumes on 2020-09-01 with
    twelve commits, examined for a death date of 2020-01-10. *)
Definition dormant_history : list commit_node :=
  [ commit_at "r12" 1606780800; commit_at "r11" 1604188800; commit_at "r10" 1603152000;
    commit_at "r09" 1602547200; commit_at "r08" 1601942400; commit_at "r07" 1601510400;
    commit_at "r06" 1600905600; commit_at "r05" 1600300800; commit_at "r04" 1599696000;
    commit_at "r03" 1599350400; commit_at "r02" 1599004800; commit_at "r01" 1598918400;
    commit_at "b2" 1561939200; commit_at "a1" 1559347200 ].

(** A spreadsheet row whose death date is after its revival date. *)
Definition row_death_after_revival : gmap string string :=
  <[ "Data de morte"%string := "2021-01-01"%string ]>
    (<[ "Data de ressurreição"%string := "2020-01-01"%string ]> ∅).

(** A row without a death date, and one whose death date does not parse. *)
Definition row_without_death : gmap string string :=
  <[ "Data de ressurreição"%string := " 2020-09-01 "%string ]> ∅.

Definition row_death_nan : gmap string string :=
  <[ "Data de morte"%string := "nan"%string ]>
    (<[ "Data de ressurreição"%string := "2020-09-01"%string ]> ∅).

(** ** Vocabulary of the further statements about the classifiers *)

(** The search result [r] with the node list of its history replaced. *)
Definition with_commits (r : repo) (commits : list commit_node) : repo :=
  {| nameWithOwner := nameWithOwner r;
     stargazerCount := stargazerCount r;
     url := url r;
     primaryLanguage := primaryLanguage r;
     defaultBranchRef :=
       Present {| target := Present {| history :=
         Present {| nodes := Present commits |} |} |} |}.

(** On the way from the repository to its history, a key is present with
    the value [null]. *)
Definition null_on_path (r : repo) : Prop :=
  match defaultBranchRef r with
  | Null => True
  | Missing => False
  | Present b =>
      match target b with
      | Null => True
      | Missing => False
      | Present t => history t = Null
      end
  end.

(** A node that carries a commit date. *)
Definition dated (node : commit_node) : bool :=
  match committedDate node with
  | Some _ => true
  | None => false
  end.

(** ** pipeline/pipeline-fase-1.py: the query client *)

Module Fase1Client.

Section Client.
Context {V D : Type}.
Variable server : nat -> request V -> reply D.

(** The [for attempt in range(3)] loop of [run_query], over the attempts
    still to make. *)
Fixpoint run_query_attempts (attempts : list nat) (rq : request V) : M V (option D) :=
  match attempts with
  | [] => ret None
  | _ :: rest =>
      let* r := post server rq in
      match r with
      | NoReply => raise RequestException
      | Http status_code json =>
          if status_code =? 200 then
            match json with
            | None => raise JSONDecodeError
            | Some data =>
                match p_errors data with
                | Some _ => ret None
                | None =>
                    match p_data data with
                    | Missing => raise (KeyError "data")
                    | Null => ret None
                    | Present d => ret (Some d)
                    end
                end
            end
          else if status_code =? 502 then
            let* _ := sleep 5 in run_query_attempts rest rq
          else if status_code =? 403 then
            let* _ := sleep 60 in run_query_attempts rest rq
          else
            let* _ := sleep 10 in run_query_attempts rest rq
      end
  end.

Definition run_query (query : string) (variables : V) : M V (option D) :=
  run_query_attempts (seq 0 3) {| rq_query := query; rq_variables := variables |}.
End Client.

End Fase1Client.

(** An endpoint that answers 502, then 403, then 200 with the data 42. *)
Definition flaky_server : nat -> request unit -> reply Z :=
  fun k _ =>
    match k with
    | O => Http 502 None
    | S O => Http 403 None
    | _ => Http 200 (Some {| p_errors := None; p_data := Present 42 |})
    end.

(** An endpoint whose 200 answer has neither ["errors"] nor ["data"]. *)
Definition bare_server : nat -> request unit -> reply Z :=
  fun _ _ => Http 200 (Some {| p_errors := None; p_data := Missing |}).

(** The request [fetch_commits] sends for its arguments. *)
Definition window_request (owner name : string) (since until : option timestamp) (first : Z)
    : request Pilar3.window_variables :=
  {| rq_query := Pilar3.COMMITS_WINDOW_QUERY;
     rq_variables := {| Pilar3.var_owner := owner; Pilar3.var_name := name;
                        Pilar3.var_first := first;
                        Pilar3.var_since := since; Pilar3.var_until := until |} |}.

(** The 200 answer, free of errors, whose history lists [l]. *)
Definition answer_with_nodes (l : list commit_node) : reply Pilar3.data :=
  Http 200 (Some {| p_errors := None;
                    p_data := Present {| Pilar3.data_repository :=
                      Present {| Pilar3.repository_defaultBranchRef :=
                        Present {| target := Present {| history :=
                          Present {| nodes := Present l |} |} |} |} |} |}).

(** A request of the pre-death search for [owner]/[name]: page size 100,
    up to [death_date + 1 day], from one of the four windows. *)
Definition pre_death_request (owner name : string) (death_date : timestamp)
    (rq : request Pilar3.window_variables) : Prop :=
  exists window,
    In window [90; 180; 365; 730] /\
    rq = window_request owner name (Some (death_date - timedelta_days window))
           (Some (death_date + timedelta_days 1)) 100.

(** A request of the post-revival search for [owner]/[name]: page size
    100, from [revive_date], up to one of the five windows. *)
Definition post_revive_request (owner name : string) (revive_date : timestamp)
    (rq : request Pilar3.window_variables) : Prop :=
  exists window,
    In window [30; 90; 180; 365; 730] /\
    rq = window_request owner name (Some revive_date)
           (Some (revive_date + timedelta_days window)) 100.

(** The snapshot the node loop of [pick_pre_death_commit] appends for a
    node, if any: the node is dated at or before the boundary. *)
Definition pre_death_snapshot (end_boundary : timestamp) (node : commit_node)
    : option Pilar3.SnapshotCommit :=
  match committedDate node, oid node with
  | Some t, Some sha =>
      if t <=? end_boundary then Some (Pilar3.snapshot_of sha t node) else None
  | _, _ => None
  end.

(** A history in which two commits share the latest timestamp before the
    death date 2020-01-10; the endpoint lists ["t2"] before ["t1"]. *)
Definition tied_history : list commit_node :=
  [ commit_at "t2" 1561939200; commit_at "t1" 1561939200; commit_at "a1" 1559347200 ].

(** ** Vocabulary of the statements that join the classifier and [parse_dates] *)

(** The start of the UTC day of a datetime. *)
Definition midnight (t : timestamp) : timestamp := t / SECONDS_PER_DAY * SECONDS_PER_DAY.

(** The date that [strftime_ymd] writes for [t] is read back by
    [strptime_ymd] as the start of that day, and is not blank. *)
Definition reads_back (strftime_ymd : timestamp -> string)
    (strptime_ymd : string -> option timestamp) (t : timestamp) : Prop :=
  py_strip (strftime_ymd t) <> ""%string /\
  strptime_ymd (py_strip (strftime_ymd t)) = Some (midnight t).

(** The same, for every commit date of a repository. *)
Definition dates_read_back (strftime_ymd : timestamp -> string)
    (strptime_ymd : string -> option timestamp) (r : repo) : Prop :=
  forall commits node t,
    repo_commits r = Ret (Some commits) -> In node commits ->
    committedDate node = Some t -> reads_back strftime_ymd strptime_ymd t.

(** The row that carries the dates of the record of
    [repo_with [1577836800; 1578614400; 1598918400; 1601510400]]. *)
Definition row_of_record : gmap string string :=
  <[ "Data de morte"%string := "2020-01-10"%string ]>
    (<[ "Data de ressurreição"%string := "2020-09-01"%string ]> ∅).

(** ** pipeline-unificado-2022.py: the months of a year *)

Module UnificadoMonths.

(** What a call of [get_monthly_intervals] ends in. *)
Inductive date_exn : Type := ValueError | OverflowError.

Inductive result (A : Type) : Type :=
  | Ok (a : A)
  | Err (e : date_exn).
Arguments Ok {A} a.
Arguments Err {A} e.

(** [datetime.date.min.toordinal()] and [datetime.date.max.toordinal()] *)
Definition MIN_ORDINAL : Z := 1.
Definition MAX_ORDINAL : Z := 3652059.

(** [d - datetime.timedelta(days=n)] on a date given by its ordinal:
    [OverflowError] outside [date.min .. date.max]. *)
Definition date_minus_days (d n : Z) : result Z :=
  if (MIN_ORDINAL <=? d - n) && (d - n <=? MAX_ORDINAL) then Ok (d - n)
  else Err OverflowError.

Section Calendar.
(** [datetime.date(year, month, day)] as the ordinal of the day
    ([date.toordinal()]), [None] when the constructor raises
    [ValueError]. *)
Variable date : Z -> Z -> Z -> option Z.

(** The body of the [for month in range(1, 13)] loop. *)
Definition month_interval (year month : Z) : result (Z * Z) :=
  match date year month 1 with
  | None => Err ValueError
  | Some start =>
      match (if month =? 12 then date (year + 1) 1 1 else date year (month + 1) 1) with
      | None => Err ValueError
      | Some next =>
          match date_minus_days next 1 with
          | Err e => Err e
          | Ok end_ => Ok (start, end_)
          end
      end
  end.

Fixpoint monthly_intervals_loop (year : Z) (months : list Z) (intervals : list (Z * Z))
    : result (list (Z * Z)) :=
  match months with
  | [] => Ok intervals
  | month :: rest =>
      match month_interval year month with
      | Err e => Err e
      | Ok interval => monthly_intervals_loop year rest (intervals ++ [interval])
      end
  end.

Definition get_monthly_intervals (year : Z) : result (list (Z * Z)) :=
  monthly_intervals_loop year (map Z.of_nat (seq 1 12)) [].
End Calendar.

End UnificadoMonths.

(** The proleptic Gregorian calendar of [datetime.date], for the years 1
    to 9999: the ordinal of a date, day 1 being 0001-01-01. *)
Definition civil_date (y m d : Z) : option Z :=
  if (1 <=? y) && (y <=? 9999) && (1 <=? m) && (m <=? 12) && (1 <=? d)
     && (let '(y', m', d') := civil_from_days (days_from_civil y m d) in
         (y' =? y) && (m' =? m) && (d' =? d))
  then Some (days_from_civil y m d + 719163)
  else None.

(** The ordinal of the first day of month [m] of [year], month 13 being
    January of the next year. *)
Definition month_start (year m : Z) : Z :=
  if m <=? 12 then days_from_civil year m 1 + 719163
  else days_from_civil (year + 1) 1 1 + 719163.

(** ** pipeline/pipeline-pilar3.py: preparing the snapshots

    [prepare_snapshots] reads a row, asks the endpoint for the two commits
    and then works on the local machine: [Path.exists], [Path.mkdir] and
    [subprocess.run] act on the state of the file system, which the
    embedding keeps abstract, and every call of [subprocess.run] is
    logged.  The cells of the row are texts, as in [parse_dates]. *)

(** [a or b] on two cells read with [row.get]: the first one when it is a
    text that is not empty. *)
Definition py_or (a b : option string) : option string :=
  match a with
  | Some s => if String.eqb s "" then b else a
  | None => b
  end.

(** [c in s] for a one-character [c] and a text [s]. *)
Definition contains (c : ascii) (s : string) : bool :=
  existsb (Ascii.eqb c) (list_ascii_of_string s).

(** The two sides of the first [sep] of [s]. *)
Fixpoint split_first (sep : ascii) (s : string) : option (string * string) :=
  match s with
  | EmptyString => None
  | String c s' =>
      if Ascii.eqb c sep then Some (EmptyString, s')
      else match split_first sep s' with
           | Some (a, b) => Some (String c a, b)
           | None => None
           end
  end.

(** [s.split(sep, 1)] for a one-character [sep]. *)
Definition py_split_1 (sep : ascii) (s : string) : list string :=
  match split_first sep s with
  | Some (a, b) => [a; b]
  | None => [s]
  end.

Module Pilar3Snapshots.

Inductive snapshot_exn : Type :=
  | Exn (e : exn)
  | ValueError
  | OSError
  | CalledProcessError (returncode : Z) (cmd : list string).

Inductive result (A : Type) : Type :=
  | Done (a : A)
  | Fail (e : snapshot_exn).
Arguments Done {A} a.
Arguments Fail {A} e.

(** The network, the file system and the calls of [subprocess.run] so
    far, each with its arguments and its working directory. *)
Record machine (Path OS : Type) : Type := {
  net : world Pilar3.window_variables;
  os : OS;
  ran : list (list string * option Path)
}.
Arguments net {Path OS} _.
Arguments os {Path OS} _.
Arguments ran {Path OS} _.

(** One of the two dicts [prepare_snapshots] returns. *)
Record snapshot_record : Type := {
  rec_repo : string;
  rec_snapshot : string;
  rec_commit : string;
  rec_committed_at : string;
  rec_path : string;
  rec_branch_label : list codepoint
}.

Section Machine.
Context {Path OS : Type}.

Definition Proc (A : Type) : Type := machine Path OS -> result A * machine Path OS.

Definition done {A : Type} (a : A) : Proc A := fun m => (Done a, m).

Definition fail {A : Type} (e : snapshot_exn) : Proc A := fun m => (Fail e, m).

Definition then_ {A B : Type} (c : Proc A) (k : A -> Proc B) : Proc B :=
  fun m =>
    match c m with
    | (Done a, m') => k a m'
    | (Fail e, m') => (Fail e, m')
    end.

Notation "'let+' x ':=' c 'in' k" := (then_ c (fun x => k))
  (at level 10, x name, c at level 100, k at level 200).

(** A call of a function that raises or returns. *)
Definition pure {A : Type} (o : outcome A) : Proc A :=
  match o with
  | Ret a => done a
  | Raise e => fail (Exn e)
  end.

(** A call of a function that talks to the endpoint. *)
Definition remote {A : Type} (c : M Pilar3.window_variables A) : Proc A :=
  fun m =>
    let (o, w) := c (net m) in
    let m' := {| net := w; os := os m; ran := ran m |} in
    match o with
    | Ret a => (Done a, m')
    | Raise e => (Fail (Exn e), m')
    end.

(** [left / right], [path.parent] and [str(path)] of [pathlib.Path]. *)
Variable path_join : Path -> string -> Path.
Variable path_parent : Path -> Path.
Variable path_str : Path -> string.

(** The file system: whether a path exists, what [mkdir(parents=True,
    exist_ok=True)] leaves ([None] when it raises), and what running a
    process to its end leaves, with its return code ([None] when the
    process cannot be started). *)
Variable path_exists : OS -> Path -> bool.
Variable mkdir_parents : OS -> Path -> option OS.
Variable run_process : OS -> list string -> option Path -> option (Z * OS).

(** [path.exists()] *)
Definition exists_ (path : Path) : Proc bool :=
  fun m => (Done (path_exists (os m) path), m).

(** [path.mkdir(parents=True, exist_ok=True)] *)
Definition mkdir (path : Path) : Proc unit :=
  fun m =>
    match mkdir_parents (os m) path with
    | Some os' => (Done tt, {| net := net m; os := os'; ran := ran m |})
    | None => (Fail OSError, m)
    end.

(** [subprocess.run(cmd, cwd=cwd, check=True)] *)
Definition subprocess_run (cmd : list string) (cwd : option Path) : Proc unit :=
  fun m =>
    match run_process (os m) cmd cwd with
    | None => (Fail OSError, {| net := net m; os := os m; ran := ran m ++ [(cmd, cwd)] |})
    | Some (returncode, os') =>
        let m' := {| net := net m; os := os'; ran := ran m ++ [(cmd, cwd)] |} in
        if returncode =? 0 then (Done tt, m')
        else (Fail (CalledProcessError returncode cmd), m')
    end.

Definition ensure_git_clone (repo_url : string) (destination : Path) : Proc unit :=
  let+ present := exists_ destination in
  if present then done tt
  else
    let+ _ := mkdir (path_parent destination) in
    subprocess_run ["git"; "clone"; "--quiet"; repo_url; path_str destination]%string None.

Definition checkout_commit (repo_path : Path) (commit_sha : string) : Proc unit :=
  subprocess_run ["git"; "checkout"; "--quiet"; commit_sha]%string (Some repo_path).

Definition clone_snapshot (repo_url commit_sha : string) (target_dir : Path) : Proc unit :=
  let+ present := exists_ target_dir in
  let+ _ := if present then done tt else ensure_git_clone repo_url target_dir in
  checkout_commit target_dir commit_sha.

Variable server : nat -> request Pilar3.window_variables -> reply Pilar3.data.
Variable strptime_ymd : string -> option timestamp.
Variable isalnum : codepoint -> bool.
(** [t.isoformat()] *)
Variable isoformat : timestamp -> string.

Definition prepare_snapshots (row : gmap string string) (snapshots_root : Path)
    : Proc (list snapshot_record) :=
  let repo_full_name := py_or (row !! "Nome"%string) (row !! "nameWithOwner"%string) in
  match repo_full_name with
  | None => fail (Exn (PipelineError "Nome do repositório inválido"))
  | Some repo_full_name =>
      if String.eqb repo_full_name "" || negb (contains "/" repo_full_name) then
        fail (Exn (PipelineError "Nome do repositório inválido"))
      else
        match py_split_1 "/" repo_full_name with
        | [owner; name] =>
            let repo_url :=
              match row !! "URL"%string with
              | Some u =>
                  if String.eqb u "" then ("https://github.com/" ++ owner ++ "/" ++ name)%string
                  else u
              | None => ("https://github.com/" ++ owner ++ "/" ++ name)%string
              end in
            let+ dates := pure (Pilar3.parse_dates strptime_ymd row) in
            let+ pre_commit :=
              remote (Pilar3.pick_pre_death_commit server owner name (Pilar3.death dates)) in
            match pre_commit with
            | None =>
                fail (Exn (PipelineError "Não foi possível localizar commit pré-morte"))
            | Some pre_commit =>
                let+ post_commit :=
                  remote (Pilar3.pick_post_revive_commit server owner name
                            (Pilar3.revive dates)) in
                match post_commit with
                | None =>
                    fail (Exn (PipelineError
                                 "Repositorio sem ao menos dez commits apos a ressurreição"))
                | Some post_commit =>
                    let base_dir := path_join snapshots_root (owner ++ "__" ++ name)%string in
                    let pre_dir := path_join base_dir "pre_morte" in
                    let post_dir := path_join base_dir "pos_revive" in
                    let+ _ := clone_snapshot repo_url (Pilar3.sha pre_commit) pre_dir in
                    let+ _ := checkout_commit pre_dir (Pilar3.sha pre_commit) in
                    let+ _ := clone_snapshot repo_url (Pilar3.sha post_commit) post_dir in
                    let+ _ := checkout_commit post_dir (Pilar3.sha post_commit) in
                    let pre_branch :=
                      Pilar3.sanitize_branch_name isalnum
                        (py_str (owner ++ "-" ++ name ++ "-pre")) in
                    let post_branch :=
                      Pilar3.sanitize_branch_name isalnum
                        (py_str (owner ++ "-" ++ name ++ "-post")) in
                    done
                      [ {| rec_repo := repo_full_name;
                           rec_snapshot := "pre_morte";
                           rec_commit := Pilar3.sha pre_commit;
                           rec_committed_at := isoformat (Pilar3.committed_at pre_commit);
                           rec_path := path_str pre_dir;
                           rec_branch_label := pre_branch |};
                        {| rec_repo := repo_full_name;
                           rec_snapshot := "pos_revive";
                           rec_commit := Pilar3.sha post_commit;
                           rec_committed_at := isoformat (Pilar3.committed_at post_commit);
                           rec_path := path_str post_dir;
                           rec_branch_label := post_branch |} ]
                end
            end
        | _ => fail ValueError
        end
  end.
End Machine.

End Pilar3Snapshots.

(** ** Vocabulary of the statements about [Pilar3Snapshots] *)

(** The process [ensure_git_clone] starts, and the one of
    [checkout_commit]. *)
Definition clone_command {Path : Type} (path_str : Path -> string) (repo_url : string)
    (destination : Path) : list string * option Path :=
  (["git"; "clone"; "--quiet"; repo_url; path_str destination]%string, None).

Definition checkout_command {Path : Type} (repo_path : Path) (commit_sha : string)
    : list string * option Path :=
  (["git"; "checkout"; "--quiet"; commit_sha]%string, Some repo_path).

(** An exception of the local machine: a directory that cannot be made, a
    process that cannot be started or that ends with a return code other
    than zero. *)
Definition local_failure (e : Pilar3Snapshots.snapshot_exn) : Prop :=
  e = Pilar3Snapshots.OSError \/
  exists returncode cmd, e = Pilar3Snapshots.CalledProcessError returncode cmd.

(** The name of the repository a row carries. *)
Definition row_name (row : gmap string string) : option string :=
  py_or (row !! "Nome"%string) (row !! "nameWithOwner"%string).

(** The URL [prepare_snapshots] clones from: the cell ["URL"], or GitHub's
    address of the repository when the cell is absent or empty. *)
Definition row_url (row : gmap string string) (owner name : string) : string :=
  match row !! "URL"%string with
  | Some u =>
      if String.eqb u "" then ("https://github.com/" ++ owner ++ "/" ++ name)%string else u
  | None => ("https://github.com/" ++ owner ++ "/" ++ name)%string
  end.

(** The directory of a snapshot of [owner]/[name] under [snapshots_root]. *)
Definition snapshot_dir {Path : Type} (path_join : Path -> string -> Path)
    (snapshots_root : Path) (owner name kind : string) : Path :=
  path_join (path_join snapshots_root (owner ++ "__" ++ name)%string) kind.

(** The machine [m] after the network moved to [w]. *)
Definition with_net {Path OS : Type} (m : Pilar3Snapshots.machine Path OS)
    (w : world Pilar3.window_variables) : Pilar3Snapshots.machine Path OS :=
  {| Pilar3Snapshots.net := w; Pilar3Snapshots.os := Pilar3Snapshots.os m;
     Pilar3Snapshots.ran := Pilar3Snapshots.ran m |}.

(** The processes of a [clone_snapshot] that returns: the clone, unless
    the directory was there, and the checkout. *)
Definition clone_snapshot_commands {Path : Type} (path_str : Path -> string) (present : bool)
    (repo_url commit_sha : string) (target_dir : Path) : list (list string * option Path) :=
  (if present then [] else [clone_command path_str repo_url target_dir])
  ++ [checkout_command target_dir commit_sha].

(** The processes of a [prepare_snapshots] that returns, given whether
    each snapshot directory was there when its turn came. *)
Definition prepare_snapshots_commands {Path : Type} (path_join : Path -> string -> Path)
    (path_str : Path -> string) (snapshots_root : Path) (present_pre present_post : bool)
    (repo_url owner name : string) (pre_commit post_commit : Pilar3.SnapshotCommit)
    : list (list string * option Path) :=
  let pre_dir := snapshot_dir path_join snapshots_root owner name "pre_morte" in
  let post_dir := snapshot_dir path_join snapshots_root owner name "pos_revive" in
  clone_snapshot_commands path_str present_pre repo_url (Pilar3.sha pre_commit) pre_dir
  ++ [checkout_command pre_dir (Pilar3.sha pre_commit)]
  ++ clone_snapshot_commands path_str present_post repo_url (Pilar3.sha post_commit) post_dir
  ++ [checkout_command post_dir (Pilar3.sha post_commit)].

(** The two records of [prepare_snapshots] for the commits chosen. *)
Definition snapshot_records {Path : Type} (path_join : Path -> string -> Path)
    (path_str : Path -> string) (isalnum : codepoint -> bool)
    (isoformat : timestamp -> string) (snapshots_root : Path) (owner name : string)
    (pre_commit post_commit : Pilar3.SnapshotCommit)
    : list Pilar3Snapshots.snapshot_record :=
  [ {| Pilar3Snapshots.rec_repo := (owner ++ "/" ++ name)%string;
       Pilar3Snapshots.rec_snapshot := "pre_morte";
       Pilar3Snapshots.rec_commit := Pilar3.sha pre_commit;
       Pilar3Snapshots.rec_committed_at := isoformat (Pilar3.committed_at pre_commit);
       Pilar3Snapshots.rec_path :=
         path_str (snapshot_dir path_join snapshots_root owner name "pre_morte");
       Pilar3Snapshots.rec_branch_label :=
         firstn 100 (map (Pilar3.sanitize_char isalnum)
                       (py_str (owner ++ "-" ++ name ++ "-pre"))) |};
    {| Pilar3Snapshots.rec_repo := (owner ++ "/" ++ name)%string;
       Pilar3Snapshots.rec_snapshot := "pos_revive";
       Pilar3Snapshots.rec_commit := Pilar3.sha post_commit;
       Pilar3Snapshots.rec_committed_at := isoformat (Pilar3.committed_at post_commit);
       Pilar3Snapshots.rec_path :=
         path_str (snapshot_dir path_join snapshots_root owner name "pos_revive");
       Pilar3Snapshots.rec_branch_label :=
         firstn 100 (map (Pilar3.sanitize_char isalnum)
                       (py_str (owner ++ "-" ++ name ++ "-post"))) |} ].

(** ** A machine for running [prepare_snapshots]

    Paths are their texts and the file system is the list of the
    directories that exist; every directory can be made; a [git clone]
    leaves its destination. *)

Definition text_join (path : string) (part : string) : string :=
  (path ++ "/" ++ part)%string.

Fixpoint after_slash (l : list ascii) : list ascii :=
  match l with
  | [] => []
  | c :: l' => if Ascii.eqb c "/" then l' else after_slash l'
  end.

Definition text_parent (path : string) : string :=
  string_of_list_ascii (rev (after_slash (rev (list_ascii_of_string path)))).

Definition text_str (path : string) : string := path.

Definition disk_exists (disk : list string) (path : string) : bool :=
  existsb (String.eqb path) disk.

Definition disk_mkdir (disk : list string) (path : string) : option (list string) :=
  Some (path :: disk).

(** Every process returns [returncode]. *)
Definition git_returns (returncode : Z) (disk : list string) (cmd : list string)
    (cwd : option string) : option (Z * list string) :=
  match cmd with
  | [_; "clone"; _; _; destination]%string =>
      Some (returncode, if returncode =? 0 then destination :: disk else disk)
  | _ => Some (returncode, disk)
  end.

Definition two_digits (n : Z) : string :=
  string_of_list_ascii [digit_char (n / 10); digit_char n].

(** [t.isoformat()] for a UTC datetime of whole seconds. *)
Definition utc_isoformat (t : timestamp) : string :=
  let s := t mod SECONDS_PER_DAY in
  (iso_strftime t ++ "T" ++ two_digits (s / 3600) ++ ":" ++ two_digits (s / 60 mod 60)
   ++ ":" ++ two_digits (s mod 60) ++ "+00:00")%string.

(** The machine before anything happened, with the directories of
    [disk]. *)
Definition machine0 (disk : list string) : Pilar3Snapshots.machine string (list string) :=
  {| Pilar3Snapshots.net := world0; Pilar3Snapshots.os := disk; Pilar3Snapshots.ran := [] |}.

(** The row of [octo/demo], dead on 2020-01-10 and revived on
    2020-09-01. *)
Definition row_of_demo : gmap string string :=
  <[ "Nome"%string := "octo/demo"%string ]> row_of_record.

(** [prepare_snapshots] on the row of [octo/demo], with the history of
    [dormant_history] at the endpoint and snapshots under [out]. *)
Definition prepare_demo (returncode : Z) (disk : list string)
    : Pilar3Snapshots.result (list Pilar3Snapshots.snapshot_record)
      * Pilar3Snapshots.machine string (list string) :=
  Pilar3Snapshots.prepare_snapshots text_join text_parent text_str disk_exists disk_mkdir
    (git_returns returncode) (history_server dormant_history) iso_strptime ascii_isalnum
    utc_isoformat row_of_demo "out" (machine0 disk).

(** * Proofs *)

(** ** Facts about the sort *)

Section PySortFacts.
Context {A : Type} (key : A -> Z).

Lemma insert_by_perm x l : Permutation (insert_by key x l) (x :: l).
Proof.
  induction l as [|y l IH]; simpl; [reflexivity|].
  destruct (key x <=? key y); [reflexivity|].
  rewrite IH. apply perm_swap.
Qed.

Lemma sorted_by_perm l : Permutation (sorted_by key l) l.
Proof.
  induction l as [|x l IH]; simpl; [reflexivity|].
  rewrite insert_by_perm. now constructor.
Qed.

Lemma sorted_by_length l : length (sorted_by key l) = length l.
Proof. apply Permutation_length, sorted_by_perm. Qed.

Lemma insert_by_hdrel x y l :
  key y <= key x -> HdRel (key_le key) y l -> HdRel (key_le key) y (insert_by key x l).
Proof.
  intros Hyx Hhd. destruct l as [|z l]; simpl.
  - constructor. exact Hyx.
  - destruct (key x <=? key z); constructor; [exact Hyx|].
    inversion Hhd; assumption.
Qed.

Lemma insert_by_sorted x l : Sorted (key_le key) l -> Sorted (key_le key) (insert_by key x l).
Proof.
  induction 1 as [|y l Hs IH Hhd]; simpl.
  - repeat constructor.
  - destruct (key x <=? key y) eqn:E.
    + constructor; [now constructor|]. constructor. unfold key_le. lia.
    + constructor; [exact IH|]. apply insert_by_hdrel; [lia|exact Hhd].
Qed.

Lemma sorted_by_sorted l : Sorted (key_le key) (sorted_by key l).
Proof.
  induction l as [|x l IH]; simpl; [constructor|]. now apply insert_by_sorted.
Qed.

Lemma key_le_trans : Relation_Definitions.transitive A (key_le key).
Proof. unfold key_le. intros x y z; lia. Qed.

Lemma sorted_by_strongly l : StronglySorted (key_le key) (sorted_by key l).
Proof. apply Sorted_StronglySorted; [apply key_le_trans|apply sorted_by_sorted]. Qed.
End PySortFacts.

Lemma sort_dates_sorted l : Sorted Z.le (sort_dates l).
Proof. apply (sorted_by_sorted (fun t : timestamp => t)). Qed.

Lemma sort_dates_perm l : Permutation (sort_dates l) l.
Proof. apply sorted_by_perm. Qed.

(** ** The detector *)

Lemma adjacent_app l1 a b l2 :
  adjacent (l1 ++ a :: b :: l2) = adjacent (l1 ++ [a]) ++ (a, b) :: adjacent (b :: l2).
Proof.
  induction l1 as [|x l1 IH]; [reflexivity|].
  destruct l1 as [|y l1].
  - simpl. reflexivity.
  - change (adjacent ((x :: y :: l1) ++ a :: b :: l2))
      with ((x, y) :: adjacent ((y :: l1) ++ a :: b :: l2)).
    rewrite IH. reflexivity.
Qed.

(** The index loop visits the consecutive pairs from left to right. *)
Lemma detect_loop th pre l acc :
  l <> [] ->
  fold_left (detect_step (pre ++ l) th) (seq (S (length pre)) (length l - 1)) acc
  = acc ++ List.filter (is_gap th) (adjacent l).
Proof.
  revert pre acc. induction l as [|a l IH]; intros pre acc Hne; [congruence|].
  destruct l as [|b l].
  - simpl. now rewrite app_nil_r.
  - replace (length (a :: b :: l) - 1)%nat with (S (length (b :: l) - 1)) by (simpl; lia).
    rewrite <- cons_seq. simpl fold_left.
    assert (Hstep : detect_step (pre ++ a :: b :: l) th acc (S (length pre))
                    = acc ++ List.filter (is_gap th) [(a, b)]).
    { unfold detect_step. replace (S (length pre) - 1)%nat with (length pre) by lia.
      rewrite (app_nth2 pre) by lia. rewrite (app_nth2 pre) by lia.
      replace (S (length pre) - length pre)%nat with 1%nat by lia.
      replace (length pre - length pre)%nat with 0%nat by lia.
      simpl. unfold is_gap. simpl.
      destruct (th <=? days_of (b - a)); [reflexivity|now rewrite app_nil_r]. }
    rewrite Hstep.
    replace (pre ++ a :: b :: l) with ((pre ++ [a]) ++ b :: l) by now rewrite <- app_assoc.
    replace (S (S (length pre))) with (S (length (pre ++ [a])))
      by (rewrite length_app; simpl; lia).
    rewrite IH by congruence.
    rewrite <- app_assoc. f_equal.
    change (adjacent (a :: b :: l)) with ((a, b) :: adjacent (b :: l)).
    simpl. destruct (is_gap th (a, b)); reflexivity.
Qed.

Lemma detect_inactivity_periods_filter ts th :
  detect_inactivity_periods ts th = List.filter (is_gap th) (adjacent (sort_dates ts)).
Proof.
  unfold detect_inactivity_periods.
  destruct (sort_dates ts) as [|a l] eqn:E; [reflexivity|].
  apply (detect_loop th [] (a :: l) []). congruence.
Qed.

Lemma filter_no_gap th (l : list (timestamp * timestamp)) :
  (forall p, In p l -> days_of (snd p - fst p) < th) -> List.filter (is_gap th) l = [].
Proof.
  induction l as [|p l IH]; intros H; [reflexivity|]. simpl.
  unfold is_gap at 1.
  pose proof (H p (or_introl eq_refl)) as Hp.
  destruct (th <=? days_of (snd p - fst p)) eqn:E; [lia|].
  apply IH. intros q Hq. apply H. now right.
Qed.

Lemma no_gap_filter th l : no_gap th l -> List.filter (is_gap th) (adjacent l) = [].
Proof.
  intros H. apply filter_no_gap. intros [a b] Hin. simpl. now apply H.
Qed.

(** C4.  [detect_inactivity_periods] sorts the timestamps ascending and
    returns, in chronological order, exactly the consecutive pairs
    [(t[i-1], t[i])] of the sorted sequence with
    [(t[i] - t[i-1]).days >= threshold_days].  In particular, when the only
    candidate gap lies between [a] and [b]: a gap of exactly
    [threshold_days] days yields the single interval [(a, b)], a gap of
    [threshold_days - 1] days yields nothing, and a sequence without a gap
    of [threshold_days] days or more yields the empty result. *)
Theorem detect_inactivity_periods_spec (ts : list timestamp) (threshold_days : Z) :
  let sorted := sort_dates ts in
  (Sorted Z.le sorted /\ Permutation sorted ts) /\
  detect_inactivity_periods ts threshold_days
    = List.filter (is_gap threshold_days) (adjacent sorted) /\
  (forall l1 a b l2,
      sorted = l1 ++ a :: b :: l2 ->
      no_gap threshold_days (l1 ++ [a]) ->
      no_gap threshold_days (b :: l2) ->
      (days_of (b - a) = threshold_days ->
       detect_inactivity_periods ts threshold_days = [(a, b)]) /\
      (days_of (b - a) = threshold_days - 1 ->
       detect_inactivity_periods ts threshold_days = [])) /\
  (no_gap threshold_days sorted -> detect_inactivity_periods ts threshold_days = []).
Proof.
  intros sorted. subst sorted.
  split; [split; [apply sort_dates_sorted|apply sort_dates_perm]|].
  split; [apply detect_inactivity_periods_filter|].
  split.
  - intros l1 a b l2 Hs H1 H2.
    rewrite detect_inactivity_periods_filter, Hs, adjacent_app, List.filter_app.
    rewrite (no_gap_filter _ _ H1). cbn [List.filter app].
    rewrite (no_gap_filter _ _ H2).
    unfold is_gap. simpl fst. simpl snd.
    split; intros Hd; rewrite Hd.
    + now rewrite Z.leb_refl.
    + destruct (threshold_days <=? threshold_days - 1) eqn:E; [lia|reflexivity].
  - intros H. rewrite detect_inactivity_periods_filter. now apply no_gap_filter.
Qed.

(** C4 on dates: with a threshold of 180 days, commits on 2020-01-01,
    2020-01-10 and 2020-07-08 (180 days after 2020-01-10) give the one
    interval flanking the gap; moving the last commit to 2020-07-07 (179
    days) gives none. *)
Lemma detect_inactivity_periods_spec_witness :
  detect_inactivity_periods [1594166400; 1577836800; 1578614400] 180
    = [(1578614400, 1594166400)]
  /\ detect_inactivity_periods [1594080000; 1577836800; 1578614400] 180 = [].
Proof.
  split.
  - apply (proj1 (proj2 (proj2 (detect_inactivity_periods_spec
             [1594166400; 1577836800; 1578614400] 180)))
             [1577836800] 1578614400 1594166400 []).
    + reflexivity.
    + intros a b [H|[]]. injection H as <- <-. vm_compute. reflexivity.
    + intros a b [].
    + reflexivity.
  - apply (proj1 (proj2 (proj2 (detect_inactivity_periods_spec
             [1594080000; 1577836800; 1578614400] 180)))
             [1577836800] 1578614400 1594080000 []).
    + reflexivity.
    + intros a b [H|[]]. injection H as <- <-. vm_compute. reflexivity.
    + intros a b [].
    + reflexivity.
Defined.

(** C6.  For a threshold of at least one day, every interval [(s, e)] that
    [detect_inactivity_periods] returns has [s < e] and spans at least
    [threshold_days] whole days. *)
Theorem detect_inactivity_periods_interval (ts : list timestamp) (threshold_days : Z)
    (s e : timestamp) :
  1 <= threshold_days ->
  In (s, e) (detect_inactivity_periods ts threshold_days) ->
  s < e /\ threshold_days <= days_of (e - s).
Proof.
  intros Hth Hin. rewrite detect_inactivity_periods_filter in Hin.
  apply List.filter_In in Hin as [_ Hgap].
  unfold is_gap in Hgap. simpl in Hgap. apply Z.leb_le in Hgap.
  split; [|exact Hgap].
  unfold days_of, SECONDS_PER_DAY in *.
  destruct (Z_lt_le_dec s e) as [Hlt|Hge]; [exact Hlt|exfalso].
  assert ((e - s) / 86400 <= 0) by (apply Z.div_le_upper_bound; lia).
  lia.
Qed.

Lemma detect_inactivity_periods_interval_witness :
  1578614400 < 1594166400 /\ default_threshold_days <= days_of (1594166400 - 1578614400).
Proof.
  apply (detect_inactivity_periods_interval
           [1594166400; 1577836800; 1578614400] default_threshold_days).
  - unfold default_threshold_days. lia.
  - vm_compute. left. reflexivity.
Defined.

(** ** The classifier *)

Lemma has_commit_after_spec e l :
  has_commit_after e l = true <-> exists c, In c l /\ e < c.
Proof.
  unfold has_commit_after. rewrite existsb_exists.
  split; intros [c [Hin Hc]]; exists c; (split; [exact Hin|]).
  - now apply Z.ltb_lt.
  - now apply Z.ltb_lt.
Qed.

(** C3 (as the code has it).  For a repository with a non-empty commit list
    whose detector result starts with the interval [(s, e)]:
    - [Fase1.analyze_repo] returns a record whose death date is [s], whose
      died-again flag is 1 exactly when a second interval exists, and whose
      revival date is [e] if some commit timestamp is strictly after [e] and
      null otherwise;
    - [Unificado.analyze_repo] returns a record with the same death date
      and flag, and its revival date is [e] whether or not a later commit
      exists. *)
Theorem analyze_repo_first_interval (strftime_ymd : timestamp -> string) (r : repo)
    (commits : list commit_node) (s e : timestamp) (rest : list (timestamp * timestamp)) :
  repo_commits r = Ret (Some commits) ->
  commits <> [] ->
  (let commit_dates := sort_dates (Fase1.commit_dates_of commits) in
   detect_inactivity_periods commit_dates default_threshold_days = (s, e) :: rest ->
   exists a,
     Fase1.analyze_repo strftime_ymd r = Ret (Some a) /\
     Fase1.Data_de_morte a = strftime_ymd s /\
     Fase1.Morreu_apos_reviver a = match rest with [] => 0 | _ => 1 end /\
     ((exists c, In c commit_dates /\ e < c) ->
      Fase1.Data_de_ressurreicao a = Some (strftime_ymd e)) /\
     (~ (exists c, In c commit_dates /\ e < c) ->
      Fase1.Data_de_ressurreicao a = None))
  /\
  (forall commit_dates,
   Unificado.commit_dates_of commits = Ret commit_dates ->
   detect_inactivity_periods (sort_dates commit_dates) default_threshold_days
     = (s, e) :: rest ->
   exists a,
     Unificado.analyze_repo strftime_ymd r = Ret (Some a) /\
     Unificado.Data_de_morte a = Some (strftime_ymd s) /\
     Unificado.Morreu_apos_reviver a = match rest with [] => 0 | _ => 1 end /\
     Unificado.Data_de_ressurreicao a = Some (strftime_ymd e)).
Proof.
  intros Hc Hne. destruct commits as [|c0 cs]; [congruence|]. split.
  - intros commit_dates Hd. subst commit_dates. unfold Fase1.analyze_repo.
    rewrite Hc. cbn [outcome_bind].
    remember (sort_dates (Fase1.commit_dates_of (c0 :: cs))) as ds eqn:Eds.
    rewrite Hd. eexists. split; [reflexivity|]. simpl.
    split; [reflexivity|]. split; [now destruct rest|].
    split.
    + intros Hex. apply has_commit_after_spec in Hex. now rewrite Hex.
    + intros Hnex. destruct (has_commit_after e ds) eqn:E; [|reflexivity].
      apply has_commit_after_spec in E. contradiction.
  - intros commit_dates Hcd Hd. unfold Unificado.analyze_repo. rewrite Hc.
    cbn [outcome_bind]. rewrite Hcd. cbn [outcome_bind].
    remember (sort_dates commit_dates) as ds eqn:Eds. rewrite Hd.
    eexists. split; [reflexivity|]. simpl.
    split; [reflexivity|]. split; [now destruct rest|reflexivity].
Qed.

(** C3 on dates (scenario A of the specification): commits on 2020-01-01,
    2020-01-10, 2020-09-01 and 2020-10-01. *)
Lemma analyze_repo_first_interval_witness :
  (exists a,
      Fase1.analyze_repo iso_strftime
        (repo_with [1577836800; 1578614400; 1598918400; 1601510400]) = Ret (Some a) /\
      Fase1.Data_de_morte a = "2020-01-10"%string /\
      Fase1.Morreu_apos_reviver a = 0 /\
      Fase1.Data_de_ressurreicao a = Some "2020-09-01"%string)
  /\
  (exists a,
      Unificado.analyze_repo iso_strftime
        (repo_with [1577836800; 1578614400; 1598918400; 1601510400]) = Ret (Some a) /\
      Unificado.Data_de_morte a = Some "2020-01-10"%string /\
      Unificado.Morreu_apos_reviver a = 0 /\
      Unificado.Data_de_ressurreicao a = Some "2020-09-01"%string).
Proof.
  destruct (analyze_repo_first_interval iso_strftime
              (repo_with [1577836800; 1578614400; 1598918400; 1601510400])
              (map node_at [1577836800; 1578614400; 1598918400; 1601510400])
              1578614400 1598918400 [] eq_refl ltac:(discriminate)) as [HF HU].
  split.
  - destruct (HF eq_refl) as [a [Ha [Hm [Hf [Hr _]]]]].
    exists a. split; [exact Ha|]. split; [exact Hm|]. split; [exact Hf|].
    apply Hr. exists 1601510400. split; [vm_compute; tauto|lia].
  - destruct (HU [1577836800; 1578614400; 1598918400; 1601510400] eq_refl eq_refl)
      as [a [Ha [Hm [Hf Hr]]]].
    exists a. split; [exact Ha|]. split; [exact Hm|]. split; [exact Hf|exact Hr].
Defined.

(** C3 as stated fails on [pipeline-unificado-2022.py]: with commits on
    2020-01-01 and 2020-09-01 only, no commit is strictly after the end of
    the first interval, and the record still carries the revival date
    2020-09-01. *)
Lemma unificado_revival_without_later_commit :
  Unificado.analyze_repo iso_strftime (repo_with [1577836800; 1598918400])
    = Ret (Some {| Unificado.Nome := "octo/demo";
                   Unificado.Stargazers := 4200;
                   Unificado.URL := "https://github.com/octo/demo";
                   Unificado.Data_de_morte := Some "2020-01-01"%string;
                   Unificado.Data_de_ressurreicao := Some "2020-09-01"%string;
                   Unificado.Morreu_apos_reviver := 0 |})
  /\ detect_inactivity_periods [1577836800; 1598918400] default_threshold_days
     = [(1577836800, 1598918400)]
  /\ has_commit_after 1598918400 [1577836800; 1598918400] = false.
Proof. repeat split; vm_compute; reflexivity. Qed.




(** ** The query client *)

Section ClientFacts.
Context {V D : Type}.
Variable server : nat -> request V -> reply D.

Lemma world_eta (w : world V) : {| sent := sent w ++ []; slept := slept w + 0 |} = w.
Proof. destruct w as [s t]. simpl. now rewrite app_nil_r, Z.add_0_r. Qed.

(** Each attempt sends one request: the loop never sends more requests
    than it has attempts. *)
Lemma run_query_attempts_bound attempts rq w :
  (length (sent (snd (Pilar3.run_query_attempts server attempts rq w)))
   <= length (sent w) + length attempts)%nat.
Proof.
  revert w. induction attempts as [|a attempts IH]; intros w; simpl; [lia|].
  unfold bind at 1. unfold post at 1. simpl.
  destruct (server (length (sent w)) rq) as [|status body].
  - unfold raise. simpl. rewrite length_app. simpl. lia.
  - destruct (status =? 200).
    { destruct body as [p|]; [destruct (p_errors p)|]; unfold ret, raise; simpl;
        rewrite length_app; simpl; lia. }
    assert (Hrec : forall seconds,
      (length (sent (snd (bind (sleep seconds)
                  (fun _ => Pilar3.run_query_attempts server attempts rq)
                  {| sent := sent w ++ [rq]; slept := slept w |})))
       <= length (sent w) + S (length attempts))%nat).
    { intros seconds. unfold bind, sleep. simpl.
      etransitivity; [apply IH|]. simpl. rewrite length_app. simpl. lia. }
    destruct (status =? 502); [apply Hrec|].
    destruct (status =? 403); apply Hrec.
Qed.

(** Attempts that all meet an HTTP status other than 200 end in [None]
    after one request each. *)
Lemma run_query_attempts_failed attempts rq w :
  (forall k, (k < length attempts)%nat ->
     exists status body,
       server (length (sent w) + k)%nat rq = Http status body /\ status <> 200) ->
  exists seconds,
    Pilar3.run_query_attempts server attempts rq w
    = (Ret None, {| sent := sent w ++ repeat rq (length attempts);
                    slept := slept w + seconds |}).
Proof.
  revert w. induction attempts as [|a attempts IH]; intros w H.
  - exists 0. simpl. unfold ret. now rewrite world_eta.
  - destruct (H 0%nat ltac:(simpl; lia)) as [status [body [Hs Hne]]].
    rewrite Nat.add_0_r in Hs.
    assert (Hrec : forall seconds,
      exists total,
        bind (sleep seconds) (fun _ => Pilar3.run_query_attempts server attempts rq)
             {| sent := sent w ++ [rq]; slept := slept w |}
        = (Ret None, {| sent := sent w ++ repeat rq (length (a :: attempts));
                        slept := slept w + total |})).
    { intros seconds. unfold bind, sleep. simpl.
      destruct (IH {| sent := sent w ++ [rq]; slept := slept w + seconds |}) as [t Ht].
      - intros k Hk. simpl. rewrite length_app. simpl.
        replace (length (sent w) + 1 + k)%nat with (length (sent w) + S k)%nat by lia.
        apply H. simpl. lia.
      - exists (seconds + t). rewrite Ht. simpl.
        rewrite <- app_assoc, Z.add_assoc. reflexivity. }
    simpl Pilar3.run_query_attempts. unfold bind at 1. unfold post at 1. simpl.
    rewrite Hs. apply Z.eqb_neq in Hne. rewrite Hne.
    destruct (status =? 502); [apply Hrec|].
    destruct (status =? 403); apply Hrec.
Qed.

(** A 200 answer that carries ["errors"] ends the call at once. *)
Lemma pilar3_run_query_errors query variables w p msgs :
  let rq := {| rq_query := query; rq_variables := variables |} in
  server (length (sent w)) rq = Http 200 (Some p) ->
  p_errors p = Some msgs ->
  Pilar3.run_query server query variables w
  = (Ret None, {| sent := sent w ++ [rq]; slept := slept w |}).
Proof.
  intros rq Hs He. unfold Pilar3.run_query. simpl.
  unfold bind, post. simpl. fold rq. rewrite Hs. simpl. now rewrite He.
Qed.

Lemma unificado_run_query_errors query variables w p msgs rounds :
  let rq := {| rq_query := query; rq_variables := variables |} in
  server (length (sent w)) rq = Http 200 (Some p) ->
  p_errors p = Some msgs ->
  Unificado.run_query server (S rounds) query variables w
  = Some (Ret None, {| sent := sent w ++ [rq]; slept := slept w |}).
Proof.
  intros rq Hs He. unfold Unificado.run_query. simpl.
  unfold Unificado.run_query_round, bind, post. simpl. fold rq. rewrite Hs. simpl.
  now rewrite He.
Qed.

(** In [Unificado], a status other than 200, 502 and 403 is not retried. *)
Lemma unificado_run_query_other_status query variables w status body rounds :
  let rq := {| rq_query := query; rq_variables := variables |} in
  server (length (sent w)) rq = Http status body ->
  status <> 200 -> status <> 502 -> status <> 403 ->
  Unificado.run_query server (S rounds) query variables w
  = Some (Ret None, {| sent := sent w ++ [rq]; slept := slept w |}).
Proof.
  intros rq Hs H200 H502 H403. unfold Unificado.run_query. simpl.
  unfold Unificado.run_query_round, bind, post. simpl. fold rq. rewrite Hs.
  apply Z.eqb_neq in H200, H502, H403. now rewrite H200, H502, H403.
Qed.

(** In [Unificado], as long as the endpoint answers 502 or 403 the loop
    goes round again: no number of rounds reaches a [return]. *)
Lemma unificado_run_query_rounds_transient rq rounds w :
  (forall k, exists body,
      server (length (sent w) + k)%nat rq = Http 502 body \/
      server (length (sent w) + k)%nat rq = Http 403 body) ->
  Unificado.run_query_rounds server rounds rq w = None.
Proof.
  revert w. induction rounds as [|rounds IH]; intros w H; [reflexivity|].
  simpl. unfold Unificado.run_query_round, bind, post. simpl.
  destruct (H 0%nat) as [body Hb]. rewrite Nat.add_0_r in Hb.
  assert (Hshift : forall seconds k, exists body',
    server (length (sent {| sent := sent w ++ [rq]; slept := slept w + seconds |}) + k)%nat rq
      = Http 502 body' \/
    server (length (sent {| sent := sent w ++ [rq]; slept := slept w + seconds |}) + k)%nat rq
      = Http 403 body').
  { intros seconds k. simpl. rewrite length_app. simpl.
    replace (length (sent w) + 1 + k)%nat with (length (sent w) + S k)%nat by lia.
    apply H. }
  destruct Hb as [Hb|Hb]; rewrite Hb; simpl; apply IH, Hshift.
Qed.
End ClientFacts.



(** The same call, run: fifteen seconds of sleep for the three attempts. *)
Example pilar3_run_query_502_runs :
  Pilar3.run_query always_502 "QUERY" tt world0
  = (Ret None,
     {| sent := [ {| rq_query := "QUERY"; rq_variables := tt |};
                  {| rq_query := "QUERY"; rq_variables := tt |};
                  {| rq_query := "QUERY"; rq_variables := tt |} ];
        slept := 15 |}).
Proof. reflexivity. Qed.


(** ** The commit fetcher *)



(** ** Branch labels *)

Lemma allowed_char_dec isalnum c :
  isalnum c || char_in c (py_str "-_") = true <-> allowed_char isalnum c.
Proof.
  unfold allowed_char, char_in. simpl.
  rewrite orb_true_iff, !orb_true_iff, !N.eqb_eq. intuition discriminate.
Qed.

Lemma sanitize_char_allowed isalnum c : allowed_char isalnum (Pilar3.sanitize_char isalnum c).
Proof.
  unfold Pilar3.sanitize_char.
  destruct (isalnum c || char_in c (py_str "-_")) eqn:E.
  - now apply allowed_char_dec.
  - right. left. reflexivity.
Qed.

Lemma in_firstn {A : Type} (n : nat) (l : list A) (x : A) : In x (firstn n l) -> In x l.
Proof.
  intros H. rewrite <- (firstn_skipn n l). apply in_or_app. now left.
Qed.

(** C10.  Whatever the input, [sanitize_branch_name] returns a non-empty
    string of at most 100 characters, each alphanumeric, ['-'] or ['_']:
    the empty input gives ["snapshot"], and any other input gives its first
    100 characters with every character outside that set replaced by
    ['-'].  [isalnum] is [str.isalnum], of which only its values on ASCII
    are used. *)
Theorem sanitize_branch_name_spec (isalnum : codepoint -> bool) (value : list codepoint) :
  (forall c, (c < 128)%N -> isalnum c = ascii_isalnum c) ->
  let r := Pilar3.sanitize_branch_name isalnum value in
  r <> [] /\
  (length r <= 100)%nat /\
  Forall (allowed_char isalnum) r /\
  (value = [] -> r = py_str "snapshot") /\
  (value <> [] ->
   length r = Nat.min 100 (length value) /\
   forall i c, (i < 100)%nat -> nth_error value i = Some c ->
     (allowed_char isalnum c -> nth_error r i = Some c) /\
     (~ allowed_char isalnum c -> nth_error r i = Some (N_of_ascii "-"))).
Proof.
  intros Hascii r. subst r. unfold Pilar3.sanitize_branch_name.
  destruct value as [|c0 value].
  - simpl firstn. cbv iota.
    split; [discriminate|]. split; [simpl; lia|].
    split; [|split; [reflexivity|congruence]].
    unfold py_str. simpl map.
    repeat (apply List.Forall_cons;
            [left; rewrite Hascii by (vm_compute; reflexivity); reflexivity|]).
    apply List.Forall_nil.
  - set (allowed := map (Pilar3.sanitize_char isalnum) (c0 :: value)).
    replace (match firstn 100 allowed with [] => py_str "snapshot" | c :: l => c :: l end)
      with (firstn 100 allowed) by (subst allowed; reflexivity).
    split; [subst allowed; discriminate|].
    split; [rewrite length_firstn; lia|].
    split.
    { apply List.Forall_forall. intros c Hin. apply in_firstn in Hin. subst allowed.
      apply in_map_iff in Hin as [c' [<- _]]. apply sanitize_char_allowed. }
    split; [congruence|]. intros _.
    split; [subst allowed; now rewrite length_firstn, length_map|].
    intros i c Hi Hc.
    assert (Hn : nth_error (firstn 100 allowed) i = Some (Pilar3.sanitize_char isalnum c)).
    { rewrite nth_error_firstn. destruct (Nat.ltb_spec i 100); [|lia].
      subst allowed. rewrite nth_error_map, Hc. reflexivity. }
    rewrite Hn. unfold Pilar3.sanitize_char.
    split; intros Ha.
    + apply allowed_char_dec in Ha. now rewrite Ha.
    + destruct (isalnum c || char_in c (py_str "-_")) eqn:E; [|reflexivity].
      apply allowed_char_dec in E. contradiction.
Qed.

Lemma sanitize_branch_name_spec_witness :
  let r := Pilar3.sanitize_branch_name ascii_isalnum (py_str "octo/my.repo-pre") in
  r <> [] /\
  (length r <= 100)%nat /\
  Forall (allowed_char ascii_isalnum) r /\
  (py_str "octo/my.repo-pre" = [] -> r = py_str "snapshot") /\
  (py_str "octo/my.repo-pre" <> [] ->
   length r = Nat.min 100 (length (py_str "octo/my.repo-pre")) /\
   forall i c, (i < 100)%nat -> nth_error (py_str "octo/my.repo-pre") i = Some c ->
     (allowed_char ascii_isalnum c -> nth_error r i = Some c) /\
     (~ allowed_char ascii_isalnum c -> nth_error r i = Some (N_of_ascii "-"))).
Proof.
  apply (sanitize_branch_name_spec ascii_isalnum (py_str "octo/my.repo-pre")).
  intros c _. reflexivity.
Defined.

Example sanitize_branch_name_runs :
  Pilar3.sanitize_branch_name ascii_isalnum (py_str "octo/my.repo-pre")
    = py_str "octo-my-repo-pre"
  /\ Pilar3.sanitize_branch_name ascii_isalnum [] = py_str "snapshot"
  /\ length (Pilar3.sanitize_branch_name ascii_isalnum (repeat 47%N 250)) = 100%nat.
Proof. repeat split; vm_compute; reflexivity. Qed.

(** ** Spreadsheet dates *)




(** ** Calls that return *)

Section Returns.
Context {V D : Type}.
Variable server : nat -> request V -> reply D.
Hypothesis Hanswers : answers server.

Lemma run_query_attempts_returns attempts rq w :
  exists d w', Pilar3.run_query_attempts server attempts rq w = (Ret d, w').
Proof.
  revert w. induction attempts as [|a attempts IH]; intros w; simpl.
  - unfold ret. eauto.
  - unfold bind at 1. unfold post at 1. simpl.
    destruct (Hanswers (length (sent w)) rq) as [status [body [-> Hbody]]].
    destruct (Z.eqb_spec status 200) as [H200|_].
    + destruct body as [p|]; [|now elim (Hbody H200)].
      destruct (p_errors p); unfold ret; eauto.
    + destruct (status =? 502); [unfold bind, sleep; apply IH|].
      destruct (status =? 403); unfold bind, sleep; apply IH.
Qed.
End Returns.

Lemma fetch_commits_returns
    (server : nat -> request Pilar3.window_variables -> reply Pilar3.data)
    owner name since until first w :
  answers server ->
  exists f w', Pilar3.fetch_commits server owner name since until first w = (Ret f, w').
Proof.
  intros Ha. unfold Pilar3.fetch_commits, bind, Pilar3.run_query.
  match goal with
  | |- context [Pilar3.run_query_attempts ?s ?a ?rq ?w0] =>
      destruct (run_query_attempts_returns s Ha a rq w0) as [d [w1 ->]]
  end.
  destruct d as [d|]; [|unfold ret; eauto].
  destruct (dict_get (Pilar3.data_repository d)) as [r|]; [|unfold ret; eauto].
  destruct (dict_get (Pilar3.repository_defaultBranchRef r)) as [b|]; [|unfold ret; eauto].
  match goal with
  | |- context [nodes ?h] => destruct (nodes h); unfold ret; eauto
  end.
Qed.

(** ** The pre-death selector *)

Lemma strongly_sorted_last {A : Type} (R : A -> A -> Prop) (l : list A) (y x : A) :
  StronglySorted R (l ++ [y]) -> In x l -> R x y.
Proof.
  induction l as [|a l IH]; intros Hs Hin; [contradiction|].
  simpl in Hs. inversion Hs as [|? ? Hs' Hall]; subst.
  destruct Hin as [->|Hin]; [|now apply IH].
  rewrite List.Forall_forall in Hall. apply Hall. apply in_or_app. right. now left.
Qed.

(** The head of a list sorted with [reverse=True] is an element with the
    greatest key. *)
Lemma sorted_by_reverse_head {A : Type} (key : A -> Z) (l : list A) (first : A)
    (rest : list A) :
  sorted_by_reverse key l = first :: rest ->
  In first l /\ forall x, In x l -> key x <= key first.
Proof.
  unfold sorted_by_reverse. intros H.
  assert (Hs : sorted_by key (rev l) = rev rest ++ [first]).
  { rewrite <- (rev_involutive (sorted_by key (rev l))), H. reflexivity. }
  assert (Hin : forall x, In x l <-> In x (rev rest ++ [first])).
  { intros x. rewrite <- Hs. rewrite (in_rev l).
    split; apply Permutation_in;
      [symmetry; apply sorted_by_perm|apply sorted_by_perm]. }
  split.
  - apply Hin. apply in_or_app. right. now left.
  - intros x Hx. apply Hin in Hx. apply in_app_or in Hx as [Hx|[<-|[]]]; [|lia].
    pose proof (sorted_by_strongly key (rev l)) as Hsorted. rewrite Hs in Hsorted.
    apply (strongly_sorted_last _ _ _ _ Hsorted Hx).
Qed.

Lemma sorted_by_reverse_nil {A : Type} (key : A -> Z) (l : list A) :
  sorted_by_reverse key l = [] -> l = [].
Proof.
  unfold sorted_by_reverse. intros H.
  apply (f_equal (@length A)) in H.
  rewrite length_rev, sorted_by_length, length_rev in H.
  now destruct l.
Qed.

(** What the node loop of [pick_pre_death_commit] appends when it does not
    raise: the snapshots of the nodes at or before the boundary. *)
Lemma parse_pre_death_spec end_boundary commits parsed result :
  Pilar3.parse_pre_death end_boundary commits parsed = Ret result ->
  exists new,
    result = parsed ++ new /\
    (forall c, In c new ->
       Pilar3.committed_at c <= end_boundary /\
       exists node, In node commits /\ snapshot_from node c) /\
    (forall node t, In node commits -> committedDate node = Some t -> t <= end_boundary ->
       exists c, In c new /\ Pilar3.committed_at c = t).
Proof.
  revert parsed. induction commits as [|node commits IH]; intros parsed H; simpl in H.
  - injection H as <-. exists []. rewrite app_nil_r. repeat split; intros; contradiction.
  - destruct (committedDate node) as [committed_at|] eqn:Ed; [|discriminate].
    destruct (committed_at <=? end_boundary) eqn:Ele.
    + destruct (oid node) as [sha|] eqn:Eo; [|discriminate].
      destruct (IH _ H) as [new [-> [Hfrom Hall]]].
      exists (Pilar3.snapshot_of sha committed_at node :: new).
      split; [now rewrite <- app_assoc|]. split.
      * intros c [<-|Hc].
        -- split; [simpl; lia|]. exists node. split; [now left|].
           unfold snapshot_from. simpl. auto.
        -- destruct (Hfrom c Hc) as [Hle [n [Hn Hs]]]. split; [exact Hle|].
           exists n. split; [now right|exact Hs].
      * intros n t [<-|Hn] Ht Hle.
        -- exists (Pilar3.snapshot_of sha committed_at node). split; [now left|].
           simpl. congruence.
        -- destruct (Hall n t Hn Ht Hle) as [c [Hc Hct]]. exists c. split; [now right|exact Hct].
    + destruct (IH _ H) as [new [-> [Hfrom Hall]]].
      exists new. split; [reflexivity|]. split.
      * intros c Hc. destruct (Hfrom c Hc) as [Hle [n [Hn Hs]]]. split; [exact Hle|].
        exists n. split; [now right|exact Hs].
      * intros n t [<-|Hn] Ht Hle.
        -- rewrite Ed in Ht. injection Ht as <-. lia.
        -- now apply (Hall n t).
Qed.

Section PreDeathFacts.
Variable server : nat -> request Pilar3.window_variables -> reply Pilar3.data.
Variables owner name : string.
Variable death_date : timestamp.

Lemma none_at_or_before_cons boundary window f tried :
  (forall node t, In node (fetched_nodes f) -> committedDate node = Some t -> boundary < t) ->
  none_at_or_before boundary tried ->
  none_at_or_before boundary ((window, f) :: tried).
Proof.
  intros Hf Ht window' f' node t [Heq|Hin] Hnode Hdate.
  - injection Heq as <- <-. now apply (Hf node).
  - now apply (Ht window' f' node).
Qed.

Lemma pre_death_windows_spec search_windows w out w' :
  let boundary := death_date + timedelta_days 1 in
  Pilar3.pre_death_windows server owner name death_date boundary search_windows w
    = (Ret out, w') ->
  exists tried,
    fetch_chain server owner name (pre_death_bounds death_date) w tried w' /\
    (exists rest, search_windows = map fst tried ++ rest) /\
    match out with
    | Some c =>
        exists earlier window f,
          tried = earlier ++ [(window, f)] /\
          none_at_or_before boundary earlier /\
          latest_at_or_before boundary (fetched_nodes f) c
    | None =>
        map fst tried = search_windows /\ none_at_or_before boundary tried
    end.
Proof.
  intros boundary.
  assert (Hb : boundary = death_date + timedelta_days 1) by reflexivity.
  clearbody boundary. revert w.
  induction search_windows as [|window rest IH]; intros w H.
  - simpl in H. unfold ret in H. injection H as <- <-.
    exists []. split; [constructor|]. split; [now exists []|].
    split; [reflexivity|]. intros ? ? ? ? [].
  - simpl in H. unfold bind in H.
    match type of H with
    | context [Pilar3.fetch_commits ?a ?b ?c ?d ?e ?f ?g] =>
        destruct (Pilar3.fetch_commits a b c d e f g) as [[f0|e0] w1] eqn:Ef
    end; [|discriminate].
    rename f0 into f.
    assert (Hcont :
      (forall node t, In node (fetched_nodes f) -> committedDate node = Some t ->
                      boundary < t) ->
      Pilar3.pre_death_windows server owner name death_date boundary rest w1
        = (Ret out, w') ->
      exists tried,
        fetch_chain server owner name (pre_death_bounds death_date) w tried w' /\
        (exists rest', window :: rest = map fst tried ++ rest') /\
        match out with
        | Some c =>
            exists earlier window' f',
              tried = earlier ++ [(window', f')] /\
              none_at_or_before boundary earlier /\
              latest_at_or_before boundary (fetched_nodes f') c
        | None =>
            map fst tried = window :: rest /\ none_at_or_before boundary tried
        end).
    { intros Hnone Hrest. destruct (IH w1 Hrest) as [tried [Hchain [[rest' Hpre] Hout]]].
      exists ((window, f) :: tried).
      split; [apply chain_step with (w1 := w1); [|exact Hchain]; simpl; now rewrite <- Hb|].
      split; [exists rest'; simpl; now rewrite Hpre|].
      destruct out as [c|].
      - destruct Hout as [earlier [window' [f' [-> [Hn Hl]]]]].
        exists ((window, f) :: earlier), window', f'.
        split; [reflexivity|]. split; [now apply none_at_or_before_cons|exact Hl].
      - destruct Hout as [Hm Hn]. split; [simpl; now rewrite Hm|].
        now apply none_at_or_before_cons. }
    destruct f as [[|node commits]|].
    + apply Hcont; [intros ? ? []|exact H].
    + destruct (Pilar3.parse_pre_death boundary (node :: commits) []) as [parsed|e] eqn:Ep;
        [|discriminate].
      destruct (parse_pre_death_spec _ _ _ _ Ep) as [new [Hnew [Hfrom Hall]]].
      simpl in Hnew. subst new.
      destruct parsed as [|p parsed].
      * apply Hcont; [|exact H]. intros n t Hn Ht.
        destruct (Z_lt_le_dec boundary t) as [Hlt|Hle]; [exact Hlt|].
        destruct (Hall n t Hn Ht Hle) as [c [[] _]].
      * destruct (sorted_by_reverse Pilar3.committed_at (p :: parsed)) as [|first others] eqn:Es;
          [discriminate|].
        unfold ret in H. injection H as <- <-.
        apply sorted_by_reverse_head in Es as [Hin Hmax].
        exists [(window, Some (node :: commits))].
        split; [eapply chain_step; [simpl; rewrite <- Hb; exact Ef|constructor]|].
        split; [now exists rest|].
        exists [], window, (Some (node :: commits)).
        split; [reflexivity|]. split; [intros ? ? ? ? []|].
        destruct (Hfrom first Hin) as [Hle Hnode].
        split; [exact Hnode|]. split; [exact Hle|].
        intros n t Hn Ht Htle. destruct (Hall n t Hn Ht Htle) as [c [Hc <-]].
        now apply Hmax.
    + apply Hcont; [intros ? ? []|exact H].
Qed.
End PreDeathFacts.

Lemma parse_pre_death_returns end_boundary commits parsed :
  (forall node, In node commits -> committedDate node <> None /\ oid node <> None) ->
  exists result, Pilar3.parse_pre_death end_boundary commits parsed = Ret result.
Proof.
  revert parsed. induction commits as [|node commits IH]; intros parsed H; simpl.
  - eauto.
  - destruct (H node (or_introl eq_refl)) as [Hd Ho].
    destruct (committedDate node) as [t|]; [|congruence].
    destruct (oid node) as [sha|]; [|congruence].
    destruct (t <=? end_boundary); apply IH; intros n Hn; apply H; now right.
Qed.

Lemma pre_death_windows_returns
    (server : nat -> request Pilar3.window_variables -> reply Pilar3.data)
    owner name death_date end_boundary search_windows w :
  answers server -> nodes_complete server ->
  exists out w',
    Pilar3.pre_death_windows server owner name death_date end_boundary search_windows w
    = (Ret out, w').
Proof.
  intros Ha Hn. revert w.
  induction search_windows as [|window rest IH]; intros w.
  - simpl. unfold ret. eauto.
  - cbn [Pilar3.pre_death_windows]. unfold bind.
    match goal with
    | |- context [Pilar3.fetch_commits ?s ?o ?n ?a ?b ?c ?w0] =>
        destruct (fetch_commits_returns s o n a b c w0 Ha) as [f [w1 Ef]];
        pose proof (Hn o n a b c w0 f w1 Ef) as Hnodes;
        rewrite Ef
    end.
    destruct f as [[|node commits]|]; [apply IH| |apply IH].
    simpl in Hnodes.
    destruct (parse_pre_death_returns end_boundary (node :: commits) [] Hnodes)
      as [parsed ->].
    destruct parsed as [|p parsed]; [apply IH|].
    destruct (sorted_by_reverse Pilar3.committed_at (p :: parsed)) as [|first others] eqn:Es.
    + apply sorted_by_reverse_nil in Es. discriminate.
    + unfold ret. eauto.
Qed.

Lemma history_server_answers commits : answers (history_server commits).
Proof.
  intros k rq. unfold history_server. eexists _, _. split; [reflexivity|]. discriminate.
Qed.

Lemma history_server_nodes commits :
  (forall node, In node commits -> committedDate node <> None /\ oid node <> None) ->
  nodes_complete (history_server commits).
Proof.
  intros Hall owner name since until first w f w' Hf node Hin.
  unfold Pilar3.fetch_commits, Pilar3.run_query, bind in Hf. simpl in Hf.
  unfold ret in Hf. injection Hf as <- _. simpl in Hin.
  apply in_firstn in Hin. apply List.filter_In in Hin as [Hin _]. now apply Hall.
Qed.



Example pick_pre_death_commit_runs :
  fst (Pilar3.pick_pre_death_commit (history_server dormant_history) "octo" "demo"
         1578614400 world0)
    = Ret (Some {| Pilar3.sha := "b2"; Pilar3.committed_at := 1561939200;
                   Pilar3.message := "update" |})
  /\ map (fun rq => Pilar3.var_since (rq_variables rq))
         (sent (snd (Pilar3.pick_pre_death_commit (history_server dormant_history)
                       "octo" "demo" 1578614400 world0)))
     = [Some (1578614400 - timedelta_days 90); Some (1578614400 - timedelta_days 180);
        Some (1578614400 - timedelta_days 365)]
  /\ fst (Pilar3.pick_pre_death_commit (history_server []) "octo" "demo" 1578614400 world0)
     = Ret None.
Proof. repeat split; vm_compute; reflexivity. Qed.

(** ** The post-revival selector *)

Section DictFacts.
Context {B : Type}.

Lemma dict_set_in k v (d : list (string * B)) k' v' :
  In (k', v') (dict_set k v d) -> (k' = k /\ v' = v) \/ In (k', v') d.
Proof.
  induction d as [|[k0 v0] d IH]; simpl.
  - intros [H|[]]. inversion H; subst. left. now split.
  - destruct (String.eqb_spec k k0) as [->|Hne].
    + intros [H|H]; [inversion H; subst; left; now split|right; now right].
    + intros [H|H]; [right; now left|].
      destruct (IH H) as [Heq|Hin]; [now left|right; now right].
Qed.

Lemma dict_set_key k v (d : list (string * B)) : In k (map fst (dict_set k v d)).
Proof.
  induction d as [|[k0 v0] d IH]; simpl; [now left|].
  destruct (String.eqb_spec k k0) as [->|Hne]; simpl; [now left|now right].
Qed.

Lemma dict_set_keys k v (d : list (string * B)) k' :
  In k' (map fst (dict_set k v d)) <-> k' = k \/ In k' (map fst d).
Proof.
  induction d as [|[k0 v0] d IH]; simpl.
  - intuition.
  - destruct (String.eqb_spec k k0) as [->|Hne]; simpl; [intuition|].
    rewrite IH. intuition.
Qed.

Lemma dict_set_nodup k v (d : list (string * B)) :
  List.NoDup (map fst d) -> List.NoDup (map fst (dict_set k v d)).
Proof.
  induction d as [|[k0 v0] d IH]; simpl; intros Hnd.
  - constructor; [intros []|constructor].
  - inversion Hnd as [|? ? Hnotin Hnd']; subst.
    destruct (String.eqb_spec k k0) as [->|Hne]; simpl.
    + now constructor.
    + constructor; [|now apply IH].
      rewrite dict_set_keys. intros [Heq|Hin]; [congruence|contradiction].
Qed.
End DictFacts.

Section CollectFacts.
Variable revive_date : timestamp.

Lemma collected_ok_seen seen seen' collected :
  (forall node, In node seen' <-> In node seen) ->
  collected_ok revive_date seen collected -> collected_ok revive_date seen' collected.
Proof.
  intros Heq [Hk [Hnd [Hs Hc]]]. repeat split; auto.
  - intros k v Hin. destruct (Hs k v Hin) as [node [Hn Hp]].
    exists node. split; [now apply Heq|exact Hp].
  - intros node c Hn. apply Hc. now apply Heq.
Qed.

(** A node that the loop body skips is not a post-revival commit. *)
Lemma collected_ok_skip seen collected node :
  (forall c, ~ post_revival_commit revive_date node c) ->
  collected_ok revive_date seen collected ->
  collected_ok revive_date (seen ++ [node]) collected.
Proof.
  intros Hskip [Hk [Hnd [Hs Hc]]]. repeat split; auto.
  - intros k v Hin. destruct (Hs k v Hin) as [n [Hn Hp]].
    exists n. split; [apply in_or_app; now left|exact Hp].
  - intros n c Hn Hp. apply in_app_or in Hn as [Hn|[<-|[]]]; [now apply (Hc n)|].
    exfalso. now apply (Hskip c).
Qed.

Lemma collect_node_ok seen collected node :
  collected_ok revive_date seen collected ->
  collected_ok revive_date (seen ++ [node]) (Pilar3.collect_node revive_date collected node).
Proof.
  intros Hok. unfold Pilar3.collect_node.
  destruct (committedDate node) as [t|] eqn:Ed.
  2:{ apply collected_ok_skip; [|exact Hok]. intros c [[Hd _] _]. congruence. }
  destruct (revive_date <=? t) eqn:Ele.
  2:{ apply collected_ok_skip; [|exact Hok]. intros c [[Hd _] [Hle _]].
      rewrite Ed in Hd. injection Hd as ->. apply Z.leb_gt in Ele. lia. }
  destruct (oid node) as [sha|] eqn:Eo.
  2:{ apply collected_ok_skip; [|exact Hok]. intros c [[_ [Ho _]] _]. congruence. }
  destruct (String.eqb_spec sha "") as [->|Hne].
  { apply collected_ok_skip; [|exact Hok]. intros c [[_ [Ho _]] [_ Hs]].
    rewrite Eo in Ho. injection Ho as Ho. congruence. }
  destruct Hok as [Hk [Hnd [Hs Hc]]].
  assert (Hnew : post_revival_commit revive_date node (Pilar3.snapshot_of sha t node)).
  { split; [|split]; [|simpl; now apply Z.leb_le|exact Hne].
    unfold snapshot_from. simpl. auto. }
  repeat split.
  - intros k v Hin. apply dict_set_in in Hin as [[-> ->]|Hin]; [reflexivity|now apply Hk].
  - now apply dict_set_nodup.
  - intros k v Hin. apply dict_set_in in Hin as [[-> ->]|Hin].
    + exists node. split; [apply in_or_app; right; now left|exact Hnew].
    + destruct (Hs k v Hin) as [n [Hn Hp]].
      exists n. split; [apply in_or_app; now left|exact Hp].
  - intros n c Hn Hp. apply dict_set_keys.
    apply in_app_or in Hn as [Hn|[<-|[]]]; [right; now apply (Hc n)|left].
    destruct Hp as [[_ [Ho _]] _]. congruence.
Qed.

Lemma fold_collect_ok nodes seen collected :
  collected_ok revive_date seen collected ->
  collected_ok revive_date (seen ++ nodes)
    (fold_left (Pilar3.collect_node revive_date) nodes collected).
Proof.
  revert seen collected. induction nodes as [|node nodes IH]; intros seen collected Hok.
  - simpl. now rewrite app_nil_r.
  - simpl. replace (seen ++ node :: nodes) with ((seen ++ [node]) ++ nodes)
      by now rewrite <- app_assoc.
    apply IH. now apply collect_node_ok.
Qed.

Lemma values_sha_keys (collected : list (string * Pilar3.SnapshotCommit)) :
  (forall k v, In (k, v) collected -> Pilar3.sha v = k) ->
  map Pilar3.sha (dict_values collected) = map fst collected.
Proof.
  induction collected as [|[k v] d IH]; intros Hk; [reflexivity|].
  simpl. rewrite (Hk k v) by now left.
  f_equal. apply IH. intros k' v' Hin. apply Hk. now right.
Qed.

Lemma collected_accumulation seen collected :
  collected_ok revive_date seen collected ->
  accumulation revive_date seen (dict_values collected).
Proof.
  intros [Hk [Hnd [Hs Hc]]]. repeat split.
  - now rewrite values_sha_keys.
  - intros c Hin. apply in_map_iff in Hin as [[k v] [<- Hin]]. now apply (Hs k).
  - intros node c Hn Hp. specialize (Hc node c Hn Hp).
    apply in_map_iff in Hc as [[k v] [Hkey Hin]]. simpl in Hkey. subst k.
    exists v. split; [apply in_map_iff; now exists (Pilar3.sha c, v)|].
    now apply (Hk (Pilar3.sha c)).
Qed.

(** Two collections of the same fetched nodes hold the same hashes, hence
    have the same size. *)
Lemma accumulation_length fetched acc acc' :
  accumulation revive_date fetched acc ->
  accumulation revive_date fetched acc' ->
  length acc = length acc'.
Proof.
  intros [Hnd [Hs Hc]] [Hnd' [Hs' Hc']].
  rewrite <- (length_map Pilar3.sha acc), <- (length_map Pilar3.sha acc').
  apply Permutation_length. apply Stdlib.Sorting.Permutation.NoDup_Permutation; [exact Hnd|exact Hnd'|].
  assert (Hsub : forall a b,
    (forall c, In c a -> exists node, In node fetched /\ post_revival_commit revive_date node c) ->
    (forall node c, In node fetched -> post_revival_commit revive_date node c ->
       exists c', In c' b /\ Pilar3.sha c' = Pilar3.sha c) ->
    forall x, In x (map Pilar3.sha a) -> In x (map Pilar3.sha b)).
  { intros a b Ha Hb x Hx. apply in_map_iff in Hx as [c [<- Hin]].
    destruct (Ha c Hin) as [node [Hn Hp]]. destruct (Hb node c Hn Hp) as [c' [Hin' <-]].
    now apply in_map. }
  intros x. split; [now apply (Hsub acc acc')|now apply (Hsub acc' acc)].
Qed.

Lemma accumulation_seen fetched fetched' acc :
  (forall node, In node fetched' <-> In node fetched) ->
  accumulation revive_date fetched acc -> accumulation revive_date fetched' acc.
Proof.
  intros Heq [Hnd [Hs Hc]]. repeat split; auto.
  - intros c Hin. destruct (Hs c Hin) as [node [Hn Hp]].
    exists node. split; [now apply Heq|exact Hp].
  - intros node c Hn. apply Hc. now apply Heq.
Qed.
End CollectFacts.

Section PostReviveFacts.
Variable server : nat -> request Pilar3.window_variables -> reply Pilar3.data.
Variables owner name : string.
Variable revive_date : timestamp.

Lemma dict_values_length {B : Type} (d : list (string * B)) :
  length (dict_values d) = length d.
Proof. apply length_map. Qed.

Lemma post_revive_windows_spec search_windows seen collected w out w' :
  collected_ok revive_date seen collected ->
  (length collected < 10)%nat ->
  Pilar3.post_revive_windows server owner name revive_date search_windows collected w
    = (Ret out, w') ->
  exists tried,
    fetch_chain server owner name (post_revive_bounds revive_date) w tried w' /\
    (exists rest, search_windows = map fst tried ++ rest) /\
    exists acc,
      accumulation revive_date (seen ++ all_nodes tried) acc /\
      match out with
      | Some c =>
          (10 <= length acc)%nat /\
          (exists ordered,
              Permutation ordered acc /\
              Sorted (key_le Pilar3.committed_at) ordered /\
              nth_error ordered 9 = Some c) /\
          (forall shorter last more acc',
              tried = shorter ++ last :: more ->
              accumulation revive_date (seen ++ all_nodes shorter) acc' ->
              (length acc' < 10)%nat)
      | None => map fst tried = search_windows /\ (length acc < 10)%nat
      end.
Proof.
  revert seen collected w.
  induction search_windows as [|window rest IH]; intros seen collected w Hok Hlen H.
  - simpl in H. unfold ret in H. injection H as <- <-.
    exists []. split; [constructor|]. split; [now exists []|].
    exists (dict_values collected). simpl. rewrite app_nil_r.
    split; [now apply collected_accumulation|].
    split; [reflexivity|now rewrite dict_values_length].
  - cbn [Pilar3.post_revive_windows] in H. unfold bind in H.
    match type of H with
    | context [Pilar3.fetch_commits ?a ?b ?c ?d ?e ?f ?g] =>
        destruct (Pilar3.fetch_commits a b c d e f g) as [[f0|e0] w1] eqn:Ef
    end; [|discriminate].
    rename f0 into f.
    assert (Hseen : forall acc',
      accumulation revive_date (seen ++ all_nodes []) acc' -> (length acc' < 10)%nat).
    { intros acc' Hacc. simpl in Hacc. rewrite app_nil_r in Hacc.
      rewrite (accumulation_length revive_date seen acc' (dict_values collected) Hacc)
        by now apply collected_accumulation.
      now rewrite dict_values_length. }
    assert (Hcont : forall collected1,
      collected_ok revive_date (seen ++ fetched_nodes f) collected1 ->
      (length collected1 < 10)%nat ->
      Pilar3.post_revive_windows server owner name revive_date rest collected1 w1
        = (Ret out, w') ->
      exists tried,
        fetch_chain server owner name (post_revive_bounds revive_date) w tried w' /\
        (exists rest', window :: rest = map fst tried ++ rest') /\
        exists acc,
          accumulation revive_date (seen ++ all_nodes tried) acc /\
          match out with
          | Some c =>
              (10 <= length acc)%nat /\
              (exists ordered,
                  Permutation ordered acc /\
                  Sorted (key_le Pilar3.committed_at) ordered /\
                  nth_error ordered 9 = Some c) /\
              (forall shorter last more acc',
                  tried = shorter ++ last :: more ->
                  accumulation revive_date (seen ++ all_nodes shorter) acc' ->
                  (length acc' < 10)%nat)
          | None => map fst tried = window :: rest /\ (length acc < 10)%nat
          end).
    { intros collected1 Hok1 Hlen1 Hrest.
      destruct (IH _ _ _ Hok1 Hlen1 Hrest) as [tried [Hchain [[rest' Hpre] [acc [Hacc Hout]]]]].
      exists ((window, f) :: tried).
      split; [apply chain_step with (w1 := w1); [exact Ef|exact Hchain]|].
      split; [exists rest'; simpl; now rewrite Hpre|].
      exists acc. simpl all_nodes. rewrite app_assoc. split; [exact Hacc|].
      destruct out as [c|].
      - destruct Hout as [Hten [Hord Hfirst]]. split; [exact Hten|]. split; [exact Hord|].
        intros shorter last more acc' Heq Hacc'.
        destruct shorter as [|p shorter].
        + now apply Hseen.
        + simpl in Heq. injection Heq as Hp Heq. subst p.
          apply (Hfirst shorter last more acc' Heq).
          simpl all_nodes in Hacc'. now rewrite app_assoc in Hacc'.
      - destruct Hout as [Hm Hl]. split; [simpl; now rewrite Hm|exact Hl]. }
    destruct f as [[|node commits]|].
    + apply (Hcont collected); [simpl; now rewrite app_nil_r|exact Hlen|exact H].
    + simpl fetched_nodes in Hcont. cbn beta iota zeta in H.
      pose proof (fold_collect_ok revive_date (node :: commits) seen collected Hok) as Hok1.
      set (collected1 := fold_left (Pilar3.collect_node revive_date) (node :: commits) collected)
        in *.
      set (ordered := sorted_by Pilar3.committed_at (dict_values collected1)) in *.
      assert (Hlo : length ordered = length collected1).
      { subst ordered. now rewrite sorted_by_length, dict_values_length. }
      destruct (10 <=? length ordered)%nat eqn:Eten.
      * destruct (nth_error ordered 9) as [c|] eqn:En; [|discriminate].
        unfold ret in H. injection H as <- <-.
        exists [(window, Some (node :: commits))].
        split; [eapply chain_step; [exact Ef|constructor]|].
        split; [now exists rest|].
        exists (dict_values collected1). simpl all_nodes. rewrite app_nil_r.
        split; [now apply collected_accumulation|].
        apply Nat.leb_le in Eten.
        split; [rewrite dict_values_length; lia|].
        split.
        -- exists ordered. split; [apply sorted_by_perm|].
           split; [apply sorted_by_sorted|exact En].
        -- intros shorter last more acc' Heq Hacc'.
           destruct shorter as [|p shorter]; [now apply Hseen|].
           simpl in Heq. injection Heq as _ Heq. now destruct shorter.
      * apply Nat.leb_gt in Eten. apply (Hcont collected1); [exact Hok1|lia|exact H].
    + apply (Hcont collected); [simpl; now rewrite app_nil_r|exact Hlen|exact H].
Qed.
End PostReviveFacts.

Lemma post_revive_windows_returns
    (server : nat -> request Pilar3.window_variables -> reply Pilar3.data)
    owner name revive_date search_windows collected w :
  answers server ->
  exists out w',
    Pilar3.post_revive_windows server owner name revive_date search_windows collected w
    = (Ret out, w').
Proof.
  intros Ha. revert collected w.
  induction search_windows as [|window rest IH]; intros collected w.
  - simpl. unfold ret. eauto.
  - cbn [Pilar3.post_revive_windows]. unfold bind.
    match goal with
    | |- context [Pilar3.fetch_commits ?s ?o ?n ?a ?b ?c ?w0] =>
        destruct (fetch_commits_returns s o n a b c w0 Ha) as [f [w1 ->]]
    end.
    destruct f as [[|node commits]|]; [apply IH| |apply IH].
    cbn beta iota zeta.
    match goal with
    | |- context [(10 <=? length ?l)%nat] =>
        destruct (Nat.leb_spec 10 (length l)) as [Hten|_]; [|apply IH];
        destruct (nth_error l 9) as [c|] eqn:En; [unfold ret; eauto|];
        apply nth_error_None in En; lia
    end.
Qed.



Example pick_post_revive_commit_runs :
  fst (Pilar3.pick_post_revive_commit (history_server dormant_history) "octo" "demo"
         1598918400 world0)
    = Ret (Some {| Pilar3.sha := "r10"; Pilar3.committed_at := 1603152000;
                   Pilar3.message := "update" |})
  /\ map (fun rq => Pilar3.var_until (rq_variables rq))
         (sent (snd (Pilar3.pick_post_revive_commit (history_server dormant_history)
                       "octo" "demo" 1598918400 world0)))
     = [Some (1598918400 + timedelta_days 30); Some (1598918400 + timedelta_days 90)]
  /\ fst (Pilar3.pick_post_revive_commit (history_server (firstn 9 dormant_history))
            "octo" "demo" 1598918400 world0)
     = Ret None.
Proof. repeat split; vm_compute; reflexivity. Qed.

(** * Further properties of the scripts *)

(** ** The detector: what an interval is *)

Lemma adjacent_in l a b :
  In (a, b) (adjacent l) -> exists l1 l2, l = l1 ++ a :: b :: l2.
Proof.
  induction l as [|x l IH]; [intros []|].
  destruct l as [|y l]; [intros []|].
  change (adjacent (x :: y :: l)) with ((x, y) :: adjacent (y :: l)).
  intros [H|H].
  - injection H as -> ->. now exists [], l.
  - destruct (IH H) as [l1 [l2 Hl]]. exists (x :: l1), l2. simpl. now rewrite Hl.
Qed.

Lemma adjacent_fst_in l a b : In (a, b) (adjacent l) -> In a l /\ In b l.
Proof.
  intros H. destruct (adjacent_in l a b H) as [l1 [l2 ->]].
  split; apply in_or_app; right; simpl; auto.
Qed.

Lemma sort_dates_strongly l : StronglySorted Z.le (sort_dates l).
Proof. apply (sorted_by_strongly (fun t : timestamp => t)). Qed.

Lemma sort_dates_in l t : In t (sort_dates l) <-> In t l.
Proof.
  split; apply Permutation_in; [apply sort_dates_perm|symmetry; apply sort_dates_perm].
Qed.

Lemma strongly_sorted_split (l1 l2 : list Z) (a b : Z) :
  StronglySorted Z.le (l1 ++ a :: b :: l2) ->
  a <= b /\ (forall t, In t l1 -> t <= a) /\ (forall t, In t l2 -> b <= t).
Proof.
  induction l1 as [|x l1 IH]; simpl; intros Hs.
  - inversion Hs as [|? ? Hs' Ha]; subst. inversion Hs' as [|? ? _ Hb]; subst.
    rewrite List.Forall_forall in Ha, Hb.
    split; [apply Ha; now left|]. split; [intros t []|exact Hb].
  - inversion Hs as [|? ? Hs' Hx]; subst. rewrite List.Forall_forall in Hx.
    destruct (IH Hs') as [Hab [H1 H2]].
    split; [exact Hab|]. split; [|exact H2].
    intros t [<-|Ht]; [|now apply H1].
    apply Hx. apply in_or_app. right. now left.
Qed.

(** X1.  An interval returned by [detect_inactivity_periods] is a period
    without commits: both its bounds are timestamps of the input, and every
    timestamp of the input is at or before its start or at or after its
    end. *)
Theorem detect_inactivity_periods_no_commit_inside (ts : list timestamp)
    (threshold_days : Z) (s e : timestamp) :
  In (s, e) (detect_inactivity_periods ts threshold_days) ->
  In s ts /\ In e ts /\ s <= e /\ forall t, In t ts -> t <= s \/ e <= t.
Proof.
  intros Hin. rewrite detect_inactivity_periods_filter in Hin.
  apply List.filter_In in Hin as [Hadj _].
  destruct (adjacent_fst_in _ _ _ Hadj) as [Hs He].
  destruct (adjacent_in _ _ _ Hadj) as [l1 [l2 Hl]].
  pose proof (sort_dates_strongly ts) as Hsorted. rewrite Hl in Hsorted.
  destruct (strongly_sorted_split _ _ _ _ Hsorted) as [Hse [H1 H2]].
  split; [now apply sort_dates_in|]. split; [now apply sort_dates_in|].
  split; [exact Hse|].
  intros t Ht. apply sort_dates_in in Ht. rewrite Hl in Ht.
  apply in_app_or in Ht as [Ht|[<-|[<-|Ht]]]; auto; lia.
Qed.

Lemma detect_inactivity_periods_no_commit_inside_witness :
  In 1578614400 [1594166400; 1577836800; 1578614400] /\
  In 1594166400 [1594166400; 1577836800; 1578614400] /\
  1578614400 <= 1594166400 /\
  forall t, In t [1594166400; 1577836800; 1578614400] ->
            t <= 1578614400 \/ 1594166400 <= t.
Proof.
  apply (detect_inactivity_periods_no_commit_inside
           [1594166400; 1577836800; 1578614400] 180).
  vm_compute. left. reflexivity.
Defined.

Lemma adjacent_strongly l :
  StronglySorted Z.le l ->
  StronglySorted (fun p q : timestamp * timestamp => snd p <= fst q) (adjacent l).
Proof.
  induction l as [|a l IH]; intros Hs; [constructor|].
  destruct l as [|b l]; [constructor|].
  change (adjacent (a :: b :: l)) with ((a, b) :: adjacent (b :: l)).
  inversion Hs as [|? ? Hs' Ha]; subst.
  constructor; [now apply IH|].
  apply List.Forall_forall. intros [c d] Hin. simpl.
  apply adjacent_fst_in in Hin as [Hc _].
  destruct Hc as [<-|Hc]; [lia|].
  inversion Hs' as [|? ? _ Hb]; subst. rewrite List.Forall_forall in Hb. now apply Hb.
Qed.

Lemma strongly_sorted_filter {A : Type} (R : A -> A -> Prop) (f : A -> bool) (l : list A) :
  StronglySorted R l -> StronglySorted R (List.filter f l).
Proof.
  induction 1 as [|x l Hs IH Hall]; simpl; [constructor|].
  destruct (f x); [|exact IH].
  constructor; [exact IH|].
  rewrite List.Forall_forall in *. intros y Hy. apply List.filter_In in Hy as [Hy _].
  now apply Hall.
Qed.

Lemma adjacent_length l : length (adjacent l) = (length l - 1)%nat.
Proof.
  induction l as [|a l IH]; [reflexivity|].
  destruct l as [|b l]; [reflexivity|].
  change (adjacent (a :: b :: l)) with ((a, b) :: adjacent (b :: l)).
  simpl length in *. rewrite IH. lia.
Qed.

(** X2.  The intervals come out in chronological order and do not
    overlap: whenever one interval is listed before another, it ends at or
    before the start of the other.  There are fewer intervals than
    timestamps. *)
Theorem detect_inactivity_periods_ordered (ts : list timestamp) (threshold_days : Z) :
  StronglySorted (fun p q : timestamp * timestamp => snd p <= fst q)
    (detect_inactivity_periods ts threshold_days)
  /\ (length (detect_inactivity_periods ts threshold_days) <= length ts - 1)%nat.
Proof.
  rewrite detect_inactivity_periods_filter. split.
  - apply strongly_sorted_filter, adjacent_strongly, sort_dates_strongly.
  - etransitivity; [apply List.filter_length_le|].
    rewrite adjacent_length. unfold sort_dates. now rewrite sorted_by_length.
Qed.

(** ** The classifiers: edge cases and invariants *)

Lemma strongly_sorted_unique (l1 l2 : list Z) :
  StronglySorted Z.le l1 -> StronglySorted Z.le l2 -> Permutation l1 l2 -> l1 = l2.
Proof.
  revert l2. induction l1 as [|a l1 IH]; intros l2 H1 H2 Hp.
  - apply Permutation_nil in Hp. now subst.
  - destruct l2 as [|b l2]; [apply Permutation_sym, Permutation_nil in Hp; discriminate|].
    inversion H1 as [|? ? H1' Ha]; subst. inversion H2 as [|? ? H2' Hb]; subst.
    rewrite List.Forall_forall in Ha, Hb.
    assert (Hab : a = b).
    { assert (Hina : In a (b :: l2)) by (apply (Permutation_in _ Hp); now left).
      assert (Hinb : In b (a :: l1))
        by (apply (Permutation_in _ (Permutation_sym Hp)); now left).
      destruct Hina as [->|Hina]; [reflexivity|].
      destruct Hinb as [->|Hinb]; [reflexivity|].
      specialize (Ha b Hinb). specialize (Hb a Hina). lia. }
    subst b. f_equal. apply IH; [exact H1'|exact H2'|].
    now apply Permutation_cons_inv in Hp.
Qed.

Lemma sort_dates_permutation l l' : Permutation l l' -> sort_dates l = sort_dates l'.
Proof.
  intros Hp. apply strongly_sorted_unique; try apply sort_dates_strongly.
  rewrite !sort_dates_perm. exact Hp.
Qed.

Lemma unificado_commit_dates_of commits :
  Unificado.commit_dates_of commits
  = if forallb dated commits then Ret (omap committedDate commits)
    else Raise (KeyError "committedDate").
Proof.
  induction commits as [|c cs IH]; [reflexivity|].
  simpl. unfold dated at 1. destruct (committedDate c) as [t|]; [|reflexivity].
  rewrite IH. simpl. now destruct (forallb dated cs).
Qed.

Lemma forallb_permutation {A : Type} (f : A -> bool) l l' :
  Permutation l l' -> forallb f l = forallb f l'.
Proof.
  induction 1 as [|x l1 l2 _ IH|x y l1|l1 l2 l3 _ IH1 _ IH2]; simpl.
  - reflexivity.
  - now rewrite IH.
  - now destruct (f x), (f y).
  - now rewrite IH1.
Qed.

Lemma repo_commits_with_commits r commits :
  repo_commits (with_commits r commits) = Ret (Some commits).
Proof. reflexivity. Qed.



Lemma repo_commits_null r : null_on_path r <-> repo_commits r = Raise AttributeError.
Proof.
  unfold null_on_path, repo_commits.
  destruct (defaultBranchRef r) as [| |b]; simpl; [split; [tauto|discriminate]|tauto|].
  destruct (target b) as [| |t]; simpl; [split; [tauto|discriminate]|tauto|].
  destruct (history t) as [| |h]; simpl;
    [split; discriminate|tauto|destruct (nodes h); split; discriminate].
Qed.

Lemma repo_commits_returns r :
  ~ null_on_path r -> exists commits, repo_commits r = Ret commits.
Proof.
  intros Hn. destruct (repo_commits r) as [c|e] eqn:E; [eauto|].
  exfalso. apply Hn. apply repo_commits_null. rewrite E. f_equal.
  unfold repo_commits in E.
  destruct (defaultBranchRef r) as [| |b]; simpl in E; try congruence.
  destruct (target b) as [| |t]; simpl in E; try congruence.
  destruct (history t) as [| |h]; simpl in E; try congruence.
  destruct (nodes h); discriminate.
Qed.



Lemma omap_filter_dated commits :
  omap committedDate (List.filter dated commits) = omap committedDate commits.
Proof.
  induction commits as [|c cs IH]; [reflexivity|].
  cbn [List.filter]. unfold dated at 1.
  destruct (committedDate c) as [t|] eqn:E; simpl; rewrite ?E; [f_equal|]; exact IH.
Qed.

Lemma forallb_dated_false commits :
  forallb dated commits = false <-> exists node, In node commits /\ committedDate node = None.
Proof.
  induction commits as [|c cs IH]; simpl.
  - split; [discriminate|intros [? [[] _]]].
  - unfold dated at 1. destruct (committedDate c) as [t|] eqn:E; simpl.
    + rewrite IH. split.
      * intros [n [Hn Hd]]. exists n. auto.
      * intros [n [[<-|Hn] Hd]]; [congruence|eauto].
    + split; [intros _; exists c; auto|reflexivity].
Qed.


Lemma detect_periods_sorted ts th :
  StronglySorted (fun p q : timestamp * timestamp => snd p <= fst q)
    (detect_inactivity_periods ts th).
Proof.
  rewrite detect_inactivity_periods_filter.
  apply strongly_sorted_filter, adjacent_strongly, sort_dates_strongly.
Qed.

Lemma detect_periods_length ts th :
  (length (detect_inactivity_periods ts th) <= length ts - 1)%nat.
Proof.
  rewrite detect_inactivity_periods_filter.
  etransitivity; [apply List.filter_length_le|].
  rewrite adjacent_length. unfold sort_dates. now rewrite sorted_by_length.
Qed.

Lemma detect_periods_gap ts th s e :
  In (s, e) (detect_inactivity_periods ts th) ->
  In e ts /\ th <= days_of (e - s).
Proof.
  intros Hin. rewrite detect_inactivity_periods_filter in Hin.
  apply List.filter_In in Hin as [Hadj Hgap].
  apply adjacent_fst_in in Hadj as [_ He]. apply (proj1 (sort_dates_in _ _)) in He.
  unfold is_gap in Hgap. simpl in Hgap. apply Z.leb_le in Hgap.
  split; [exact He|exact Hgap].
Qed.

Lemma days_of_positive s e : 1 <= days_of (e - s) -> s < e.
Proof.
  unfold days_of, SECONDS_PER_DAY. intros H.
  destruct (Z_lt_le_dec s e) as [Hlt|Hge]; [exact Hlt|exfalso].
  assert ((e - s) / 86400 <= 0) by (apply Z.div_le_upper_bound; lia). lia.
Qed.

(** X6.  A record of the classifier of [Fase1] has a died-again flag of 0
    or 1, counts at least two analysed commits, and carries the flag 1
    only together with a revival date: a repository recorded as dead
    without revival never counts as dead again. *)
Theorem fase1_analysis_invariants (strftime_ymd : timestamp -> string) (r : repo)
    (a : Fase1.analysis) :
  Fase1.analyze_repo strftime_ymd r = Ret (Some a) ->
  (Fase1.Morreu_apos_reviver a = 0 \/ Fase1.Morreu_apos_reviver a = 1) /\
  (Fase1.Morreu_apos_reviver a = 1 -> Fase1.Data_de_ressurreicao a <> None) /\
  (2 <= Fase1.Commits_analisados a)%nat.
Proof.
  unfold Fase1.analyze_repo.
  destruct (repo_commits r) as [[[|c cs]|]|e]; cbn [outcome_bind]; try discriminate.
  remember (sort_dates (Fase1.commit_dates_of (c :: cs))) as ds eqn:Eds. clear Eds.
  pose proof (detect_periods_sorted ds default_threshold_days) as Hsorted.
  pose proof (detect_periods_length ds default_threshold_days) as Hlen.
  pose proof (detect_periods_gap ds default_threshold_days) as Hgap.
  destruct (detect_inactivity_periods ds default_threshold_days) as [|[s e] rest];
    [discriminate|].
  intros H. injection H as <-. simpl.
  split; [destruct rest; auto|]. split; [|simpl in Hlen; lia].
  destruct rest as [|[s2 e2] rest]; [discriminate|]. intros _.
  inversion Hsorted as [|? ? _ Hall]; subst.
  apply List.Forall_inv in Hall. simpl in Hall.
  destruct (Hgap s2 e2) as [Hin Hdays]; [right; now left|].
  assert (Hlt : s2 < e2)
    by (apply days_of_positive; unfold default_threshold_days in Hdays; lia).
  assert (Hafter : has_commit_after e ds = true)
    by (apply has_commit_after_spec; exists e2; split; [exact Hin|lia]).
  rewrite Hafter. discriminate.
Qed.

Lemma fase1_analysis_invariants_witness :
  exists a,
    Fase1.analyze_repo iso_strftime
      (repo_with [1577836800; 1598918400; 1601510400; 1622505600]) = Ret (Some a) /\
    Fase1.Morreu_apos_reviver a = 1 /\
    Fase1.Data_de_ressurreicao a <> None /\
    (2 <= Fase1.Commits_analisados a)%nat.
Proof.
  eexists. split; [reflexivity|]. split; [reflexivity|].
  destruct (fase1_analysis_invariants iso_strftime
              (repo_with [1577836800; 1598918400; 1601510400; 1622505600]) _ eq_refl)
    as [_ [Hrev Hcount]].
  split; [apply Hrev; reflexivity|exact Hcount].
Defined.

(** ** The query clients: retries *)

Section RetryFacts.
Context {V D : Type}.
Variable server : nat -> request V -> reply D.

Lemma world_slept_0 (l : list (request V)) (t : Z) :
  {| sent := l; slept := t + 0 |} = {| sent := l; slept := t |}.
Proof. now rewrite Z.add_0_r. Qed.

(** After [k] attempts that meet a status other than 200, an attempt that
    meets a 200 answer without errors returns its data. *)
Lemma pilar3_attempts_retry k : forall attempts rq w p,
  (k < length attempts)%nat ->
  (forall j, (j < k)%nat ->
     exists status body,
       server (length (sent w) + j)%nat rq = Http status body /\ status <> 200) ->
  server (length (sent w) + k)%nat rq = Http 200 (Some p) ->
  p_errors p = None ->
  exists seconds,
    Pilar3.run_query_attempts server attempts rq w
    = (Ret (dict_get (p_data p)),
       {| sent := sent w ++ repeat rq (S k); slept := slept w + seconds |})
    /\ 5 * Z.of_nat k <= seconds <= 60 * Z.of_nat k.
Proof.
  induction k as [|k IH]; intros attempts rq w p Hk Hfail Hok Herr;
    destruct attempts as [|a attempts]; try (simpl in Hk; lia).
  - exists 0. rewrite Nat.add_0_r in Hok. split; [|lia].
    simpl. unfold bind, post. simpl. rewrite Hok. simpl. rewrite Herr.
    unfold ret. now rewrite world_slept_0.
  - destruct (Hfail 0%nat ltac:(lia)) as [status [body [Hs Hne]]].
    rewrite Nat.add_0_r in Hs.
    assert (Hrec : forall s, 5 <= s <= 60 ->
      exists seconds,
        bind (sleep s) (fun _ => Pilar3.run_query_attempts server attempts rq)
             {| sent := sent w ++ [rq]; slept := slept w |}
        = (Ret (dict_get (p_data p)),
           {| sent := sent w ++ repeat rq (S (S k)); slept := slept w + seconds |})
        /\ 5 * Z.of_nat (S k) <= seconds <= 60 * Z.of_nat (S k)).
    { intros s Hs5. unfold bind, sleep. simpl.
      destruct (IH attempts rq {| sent := sent w ++ [rq]; slept := slept w + s |} p)
        as [t [Ht Hbound]].
      - simpl in Hk. lia.
      - intros j Hj. simpl. rewrite length_app. simpl.
        replace (length (sent w) + 1 + j)%nat with (length (sent w) + S j)%nat by lia.
        apply Hfail. lia.
      - simpl. rewrite length_app. simpl.
        replace (length (sent w) + 1 + k)%nat with (length (sent w) + S k)%nat by lia.
        exact Hok.
      - exact Herr.
      - exists (s + t). rewrite Ht. simpl. rewrite <- app_assoc, Z.add_assoc.
        split; [reflexivity|lia]. }
    simpl Pilar3.run_query_attempts. unfold bind at 1. unfold post at 1. simpl.
    rewrite Hs. apply Z.eqb_neq in Hne. rewrite Hne.
    destruct (status =? 502); [apply Hrec; lia|].
    destruct (status =? 403); apply Hrec; lia.
Qed.

(** Whatever it meets, the loop of [Pilar3] sends copies of its one
    request, at least one and at most one per attempt, and only adds to the
    time slept. *)
Lemma pilar3_attempts_frame attempts rq : forall w out w',
  Pilar3.run_query_attempts server attempts rq w = (out, w') ->
  exists n,
    (n <= length attempts)%nat /\
    (attempts <> [] -> (1 <= n)%nat) /\
    sent w' = sent w ++ repeat rq n /\
    slept w <= slept w'.
Proof.
  induction attempts as [|a attempts IH]; intros w out w' H.
  - simpl in H. unfold ret in H. injection H as _ <-.
    exists 0%nat. simpl. rewrite app_nil_r. repeat split; try lia. congruence.
  - simpl in H. unfold bind at 1 in H. unfold post at 1 in H. simpl in H.
    assert (Hone : forall o,
      (o, {| sent := sent w ++ [rq]; slept := slept w |}) = (out, w') ->
      exists n,
        (n <= length (a :: attempts))%nat /\ (a :: attempts <> [] -> (1 <= n)%nat) /\
        sent w' = sent w ++ repeat rq n /\ slept w <= slept w').
    { intros o Ho. injection Ho as _ <-. exists 1%nat. simpl. repeat split; lia. }
    assert (Hrec : forall s, 0 <= s ->
      bind (sleep s) (fun _ => Pilar3.run_query_attempts server attempts rq)
           {| sent := sent w ++ [rq]; slept := slept w |} = (out, w') ->
      exists n,
        (n <= length (a :: attempts))%nat /\ (a :: attempts <> [] -> (1 <= n)%nat) /\
        sent w' = sent w ++ repeat rq n /\ slept w <= slept w').
    { intros s Hs Hb. unfold bind, sleep in Hb. simpl in Hb.
      destruct (IH _ _ _ Hb) as [n [Hn [_ [Hsent Hslept]]]].
      exists (S n). simpl in Hsent, Hslept. simpl.
      split; [lia|]. split; [lia|]. split; [|lia].
      rewrite Hsent, <- app_assoc. reflexivity. }
    destruct (server (length (sent w)) rq) as [|status body]; [now apply (Hone _ H)|].
    destruct (status =? 200).
    { destruct body as [p|]; [destruct (p_errors p)|]; now apply (Hone _ H). }
    destruct (status =? 502); [exact (Hrec 5 ltac:(lia) H)|].
    destruct (status =? 403); [exact (Hrec 60 ltac:(lia) H)|exact (Hrec 10 ltac:(lia) H)].
Qed.
End RetryFacts.

(** X7.  In [Pilar3], [run_query] retries: when fewer than [RETRY_LIMIT]
    attempts meet a status other than 200 and the next one meets a 200
    answer without errors, the call returns the data of that answer, has
    sent one request per attempt, and has slept between 5 and 60 seconds
    per failed attempt. *)
Theorem pilar3_run_query_retries {V D : Type} (server : nat -> request V -> reply D)
    (query : string) (variables : V) (w : world V) (k : nat) (p : payload D) :
  let rq := {| rq_query := query; rq_variables := variables |} in
  (k < Pilar3.RETRY_LIMIT)%nat ->
  (forall j, (j < k)%nat ->
     exists status body,
       server (length (sent w) + j)%nat rq = Http status body /\ status <> 200) ->
  server (length (sent w) + k)%nat rq = Http 200 (Some p) ->
  p_errors p = None ->
  exists seconds,
    Pilar3.run_query server query variables w
    = (Ret (dict_get (p_data p)),
       {| sent := sent w ++ repeat rq (S k); slept := slept w + seconds |})
    /\ 5 * Z.of_nat k <= seconds <= 60 * Z.of_nat k.
Proof.
  intros rq Hk Hfail Hok Herr. unfold Pilar3.run_query.
  apply pilar3_attempts_retry; assumption.
Qed.

Lemma pilar3_run_query_retries_witness :
  exists seconds,
    Pilar3.run_query flaky_server "QUERY" tt world0
    = (Ret (Some 42),
       {| sent := repeat {| rq_query := "QUERY"; rq_variables := tt |} 3;
          slept := seconds |})
    /\ 5 * 2 <= seconds <= 60 * 2.
Proof.
  apply (pilar3_run_query_retries flaky_server "QUERY" tt world0 2
           {| p_errors := None; p_data := Present 42 |}).
  - unfold Pilar3.RETRY_LIMIT. lia.
  - intros j Hj. destruct j as [|[|j]]; [| |lia].
    + exists 502, None. split; [reflexivity|discriminate].
    + exists 403, None. split; [reflexivity|discriminate].
  - reflexivity.
  - reflexivity.
Defined.

Section UnificadoReturns.
Context {V D : Type}.
Variable server : nat -> request V -> reply D.

(** While the answers are 502 or 403, the rounds are used up one by one. *)
Lemma unificado_rounds_used rounds : forall rq w,
  (forall j, (j < rounds)%nat -> exists body,
      server (length (sent w) + j)%nat rq = Http 502 body \/
      server (length (sent w) + j)%nat rq = Http 403 body) ->
  Unificado.run_query_rounds server rounds rq w = None.
Proof.
  induction rounds as [|rounds IH]; intros rq w H; [reflexivity|].
  simpl. unfold Unificado.run_query_round, bind, post. simpl.
  destruct (H 0%nat ltac:(lia)) as [body Hb]. rewrite Nat.add_0_r in Hb.
  assert (Hshift : forall seconds j, (j < rounds)%nat -> exists body',
    server (length (sent {| sent := sent w ++ [rq]; slept := slept w + seconds |}) + j)%nat rq
      = Http 502 body' \/
    server (length (sent {| sent := sent w ++ [rq]; slept := slept w + seconds |}) + j)%nat rq
      = Http 403 body').
  { intros seconds j Hj. simpl. rewrite length_app. simpl.
    replace (length (sent w) + 1 + j)%nat with (length (sent w) + S j)%nat by lia.
    apply H. lia. }
  destruct Hb as [Hb|Hb]; rewrite Hb; simpl; apply IH, Hshift.
Qed.

Lemma unificado_rounds_return n : forall rounds rq w p d,
  (n < rounds)%nat ->
  (forall j, (j < n)%nat -> exists body,
      server (length (sent w) + j)%nat rq = Http 502 body \/
      server (length (sent w) + j)%nat rq = Http 403 body) ->
  server (length (sent w) + n)%nat rq = Http 200 (Some p) ->
  p_errors p = None ->
  p_data p = Present d ->
  exists seconds,
    Unificado.run_query_rounds server rounds rq w
    = Some (Ret (Some d),
            {| sent := sent w ++ repeat rq (S n); slept := slept w + seconds |})
    /\ 5 * Z.of_nat n <= seconds <= 60 * Z.of_nat n.
Proof.
  induction n as [|n IH]; intros rounds rq w p d Hn Htrans Hok Herr Hdata;
    destruct rounds as [|rounds]; try lia.
  - exists 0. rewrite Nat.add_0_r in Hok. split; [|lia].
    simpl. unfold Unificado.run_query_round, bind, post. simpl.
    rewrite Hok. simpl. rewrite Herr, Hdata. unfold ret. now rewrite Z.add_0_r.
  - destruct (Htrans 0%nat ltac:(lia)) as [body Hb]. rewrite Nat.add_0_r in Hb.
    assert (Hrec : forall s, 5 <= s <= 60 ->
      exists seconds,
        Unificado.run_query_rounds server rounds rq
          {| sent := sent w ++ [rq]; slept := slept w + s |}
        = Some (Ret (Some d),
                {| sent := sent w ++ repeat rq (S (S n)); slept := slept w + seconds |})
        /\ 5 * Z.of_nat (S n) <= seconds <= 60 * Z.of_nat (S n)).
    { intros s Hs.
      destruct (IH rounds rq {| sent := sent w ++ [rq]; slept := slept w + s |} p d)
        as [t [Ht Hbound]]; try assumption.
      - lia.
      - intros j Hj. simpl. rewrite length_app. simpl.
        replace (length (sent w) + 1 + j)%nat with (length (sent w) + S j)%nat by lia.
        apply Htrans. lia.
      - simpl. rewrite length_app. simpl.
        replace (length (sent w) + 1 + n)%nat with (length (sent w) + S n)%nat by lia.
        exact Hok.
      - exists (s + t). rewrite Ht. simpl. rewrite <- app_assoc, Z.add_assoc.
        split; [reflexivity|lia]. }
    simpl. unfold Unificado.run_query_round, bind, post. simpl.
    destruct Hb as [Hb|Hb]; rewrite Hb; simpl; apply Hrec; lia.
Qed.
End UnificadoReturns.

(** X8.  In [Unificado], [run_query] returns at the first answer that is
    neither 502 nor 403: when [n] such answers are followed by a 200 answer
    without errors that carries data, the loop returns that data in round
    [n + 1], not earlier, after one request per round and between 5 and 60
    seconds of sleep per retried answer. *)
Theorem unificado_run_query_returns {V D : Type} (server : nat -> request V -> reply D)
    (query : string) (variables : V) (w : world V) (n : nat) (p : payload D) (d : D) :
  let rq := {| rq_query := query; rq_variables := variables |} in
  (forall j, (j < n)%nat -> exists body,
      server (length (sent w) + j)%nat rq = Http 502 body \/
      server (length (sent w) + j)%nat rq = Http 403 body) ->
  server (length (sent w) + n)%nat rq = Http 200 (Some p) ->
  p_errors p = None ->
  p_data p = Present d ->
  (forall rounds, (rounds <= n)%nat ->
     Unificado.run_query server rounds query variables w = None)
  /\
  (forall rounds, (n < rounds)%nat ->
     exists seconds,
       Unificado.run_query server rounds query variables w
       = Some (Ret (Some d),
               {| sent := sent w ++ repeat rq (S n); slept := slept w + seconds |})
       /\ 5 * Z.of_nat n <= seconds <= 60 * Z.of_nat n).
Proof.
  intros rq Htrans Hok Herr Hdata. split.
  - intros rounds Hr. unfold Unificado.run_query. apply unificado_rounds_used.
    intros j Hj. apply Htrans. lia.
  - intros rounds Hr. unfold Unificado.run_query.
    now apply unificado_rounds_return with (p := p).
Qed.

Lemma unificado_run_query_returns_witness :
  Unificado.run_query flaky_server 2 "QUERY" tt world0 = None
  /\
  exists seconds,
    Unificado.run_query flaky_server 3 "QUERY" tt world0
    = Some (Ret (Some 42),
            {| sent := repeat {| rq_query := "QUERY"; rq_variables := tt |} 3;
               slept := seconds |})
    /\ 5 * 2 <= seconds <= 60 * 2.
Proof.
  destruct (unificado_run_query_returns flaky_server "QUERY" tt world0 2
              {| p_errors := None; p_data := Present 42 |} 42) as [Hnone Hsome].
  - intros j Hj. destruct j as [|[|j]]; [| |lia]; exists None; [left|right]; reflexivity.
  - reflexivity.
  - reflexivity.
  - reflexivity.
  - split; [apply Hnone; lia|apply Hsome; lia].
Defined.

Section Fase1ClientFacts.
Context {V D : Type}.
Variable server : nat -> request V -> reply D.

Lemma fase1_attempts_frame attempts rq : forall w out w',
  Fase1Client.run_query_attempts server attempts rq w = (out, w') ->
  exists n,
    (n <= length attempts)%nat /\
    (attempts <> [] -> (1 <= n)%nat) /\
    sent w' = sent w ++ repeat rq n /\
    slept w <= slept w'.
Proof.
  induction attempts as [|a attempts IH]; intros w out w' H.
  - simpl in H. unfold ret in H. injection H as _ <-.
    exists 0%nat. simpl. rewrite app_nil_r. repeat split; try lia. congruence.
  - simpl in H. unfold bind at 1 in H. unfold post at 1 in H. simpl in H.
    assert (Hone : forall o,
      (o, {| sent := sent w ++ [rq]; slept := slept w |}) = (out, w') ->
      exists n,
        (n <= length (a :: attempts))%nat /\ (a :: attempts <> [] -> (1 <= n)%nat) /\
        sent w' = sent w ++ repeat rq n /\ slept w <= slept w').
    { intros o Ho. injection Ho as _ <-. exists 1%nat. simpl. repeat split; lia. }
    assert (Hrec : forall s, 0 <= s ->
      bind (sleep s) (fun _ => Fase1Client.run_query_attempts server attempts rq)
           {| sent := sent w ++ [rq]; slept := slept w |} = (out, w') ->
      exists n,
        (n <= length (a :: attempts))%nat /\ (a :: attempts <> [] -> (1 <= n)%nat) /\
        sent w' = sent w ++ repeat rq n /\ slept w <= slept w').
    { intros s Hs Hb. unfold bind, sleep in Hb. simpl in Hb.
      destruct (IH _ _ _ Hb) as [n [Hn [_ [Hsent Hslept]]]].
      exists (S n). simpl in Hsent, Hslept. simpl.
      split; [lia|]. split; [lia|]. split; [|lia].
      rewrite Hsent, <- app_assoc. reflexivity. }
    destruct (server (length (sent w)) rq) as [|status body]; [now apply (Hone _ H)|].
    destruct (status =? 200).
    { destruct body as [p|]; [destruct (p_errors p); [|destruct (p_data p)]|];
        now apply (Hone _ H). }
    destruct (status =? 502); [exact (Hrec 5 ltac:(lia) H)|].
    destruct (status =? 403); [exact (Hrec 60 ltac:(lia) H)|exact (Hrec 10 ltac:(lia) H)].
Qed.

Lemma fase1_attempts_failed attempts rq : forall w,
  (forall k, (k < length attempts)%nat ->
     exists status body,
       server (length (sent w) + k)%nat rq = Http status body /\ status <> 200) ->
  exists seconds,
    Fase1Client.run_query_attempts server attempts rq w
    = (Ret None, {| sent := sent w ++ repeat rq (length attempts);
                    slept := slept w + seconds |})
    /\ 5 * Z.of_nat (length attempts) <= seconds <= 60 * Z.of_nat (length attempts).
Proof.
  induction attempts as [|a attempts IH]; intros w H.
  - exists 0. simpl. unfold ret. rewrite world_eta. split; [reflexivity|lia].
  - destruct (H 0%nat ltac:(simpl; lia)) as [status [body [Hs Hne]]].
    rewrite Nat.add_0_r in Hs.
    assert (Hrec : forall s, 5 <= s <= 60 ->
      exists total,
        bind (sleep s) (fun _ => Fase1Client.run_query_attempts server attempts rq)
             {| sent := sent w ++ [rq]; slept := slept w |}
        = (Ret None, {| sent := sent w ++ repeat rq (length (a :: attempts));
                        slept := slept w + total |})
        /\ 5 * Z.of_nat (length (a :: attempts)) <= total
           <= 60 * Z.of_nat (length (a :: attempts))).
    { intros s Hs5. unfold bind, sleep. simpl.
      destruct (IH {| sent := sent w ++ [rq]; slept := slept w + s |}) as [t [Ht Hb]].
      - intros k Hk. simpl. rewrite length_app. simpl.
        replace (length (sent w) + 1 + k)%nat with (length (sent w) + S k)%nat by lia.
        apply H. simpl. lia.
      - exists (s + t). rewrite Ht. simpl sent. simpl slept.
        rewrite <- app_assoc, Z.add_assoc. split; [reflexivity|lia]. }
    simpl Fase1Client.run_query_attempts. unfold bind at 1. unfold post at 1. simpl.
    rewrite Hs. apply Z.eqb_neq in Hne. rewrite Hne.
    destruct (status =? 502); [apply Hrec; lia|].
    destruct (status =? 403); apply Hrec; lia.
Qed.
End Fase1ClientFacts.

(** X9.  [run_query] of [pipeline-fase-1.py]: a call sends between one and
    three copies of its request and nothing else; when all three attempts
    meet a status other than 200 it returns [None], having slept between
    15 and 180 seconds; and a 200 answer with neither ["errors"] nor
    ["data"] makes it raise [KeyError] after that one request. *)
Theorem fase1_run_query_behaviour {V D : Type} (server : nat -> request V -> reply D)
    (query : string) (variables : V) (w : world V) :
  let rq := {| rq_query := query; rq_variables := variables |} in
  (forall out w',
      Fase1Client.run_query server query variables w = (out, w') ->
      exists n, (1 <= n <= 3)%nat /\ sent w' = sent w ++ repeat rq n /\ slept w <= slept w')
  /\
  ((forall k, (k < 3)%nat ->
      exists status body,
        server (length (sent w) + k)%nat rq = Http status body /\ status <> 200) ->
   exists seconds,
     Fase1Client.run_query server query variables w
     = (Ret None, {| sent := sent w ++ [rq; rq; rq]; slept := slept w + seconds |})
     /\ 15 <= seconds <= 180)
  /\
  (forall p,
      server (length (sent w)) rq = Http 200 (Some p) ->
      p_errors p = None ->
      p_data p = Missing ->
      Fase1Client.run_query server query variables w
      = (Raise (KeyError "data"), {| sent := sent w ++ [rq]; slept := slept w |})).
Proof.
  intros rq. split; [|split].
  - intros out w' H. unfold Fase1Client.run_query in H.
    destruct (fase1_attempts_frame server _ _ _ _ _ H) as [n [Hn [H1 [Hs Ht]]]].
    exists n. simpl in Hn. split; [split; [apply H1; discriminate|lia]|]. auto.
  - intros H. unfold Fase1Client.run_query.
    destruct (fase1_attempts_failed server (seq 0 3) rq w H) as [seconds [Hrun Hb]].
    exists seconds. split; [exact Hrun|]. simpl in Hb. lia.
  - intros p Hs He Hd. unfold Fase1Client.run_query. simpl.
    unfold bind, post. simpl. fold rq. rewrite Hs. simpl. now rewrite He, Hd.
Qed.

Lemma fase1_run_query_behaviour_witness :
  (exists seconds,
      Fase1Client.run_query always_502 "QUERY" tt world0
      = (Ret None,
         {| sent := repeat {| rq_query := "QUERY"; rq_variables := tt |} 3;
            slept := seconds |})
      /\ 15 <= seconds <= 180)
  /\
  Fase1Client.run_query bare_server "QUERY" tt world0
  = (Raise (KeyError "data"),
     {| sent := [ {| rq_query := "QUERY"; rq_variables := tt |} ]; slept := 0 |}).
Proof.
  split.
  - apply (proj1 (proj2 (fase1_run_query_behaviour always_502 "QUERY" tt world0))).
    intros k _. exists 502, None. split; [reflexivity|discriminate].
  - apply (proj2 (proj2 (fase1_run_query_behaviour bare_server "QUERY" tt world0))
             {| p_errors := None; p_data := Missing |}); reflexivity.
Defined.

(** ** The fetcher and the selectors: what they send *)

Section FetchFacts.
Variable server : nat -> request Pilar3.window_variables -> reply Pilar3.data.

Lemma fetch_commits_frame owner name since until first w out w' :
  Pilar3.fetch_commits server owner name since until first w = (out, w') ->
  exists n,
    (1 <= n <= Pilar3.RETRY_LIMIT)%nat /\
    sent w' = sent w ++ repeat (window_request owner name since until first) n /\
    slept w <= slept w'.
Proof.
  unfold Pilar3.fetch_commits, bind, Pilar3.run_query. intros H.
  match type of H with
  | context [Pilar3.run_query_attempts ?s ?a ?rq ?w0] =>
      destruct (Pilar3.run_query_attempts s a rq w0) as [o w1] eqn:Erun
  end.
  destruct (pilar3_attempts_frame server _ _ _ _ _ Erun) as [n [Hn [H1 [Hs Ht]]]].
  assert (Hw : w' = w1).
  { destruct o as [[d|]|e]; try (unfold ret in H; congruence).
    destruct (dict_get (Pilar3.data_repository d)) as [r|];
      [|unfold ret in H; congruence].
    destruct (dict_get (Pilar3.repository_defaultBranchRef r)) as [b|];
      [|unfold ret in H; congruence].
    match type of H with
    | context [nodes ?h] => destruct (nodes h); unfold ret in H; congruence
    end. }
  subst w1. exists n. rewrite length_seq in Hn.
  split; [split; [apply H1; discriminate|exact Hn]|]. split; [exact Hs|exact Ht].
Qed.
End FetchFacts.

(** X10.  [fetch_commits] sends between one and [RETRY_LIMIT] requests,
    each of them the window query with exactly the owner, name, bounds and
    page size it was given, and sends nothing else; when its first answer
    is a 200 without errors whose history lists the nodes [l], it returns
    [l] as received after that single request. *)
Theorem fetch_commits_requests
    (server : nat -> request Pilar3.window_variables -> reply Pilar3.data)
    (owner name : string) (since until : option timestamp) (first : Z)
    (w : world Pilar3.window_variables) :
  let rq := window_request owner name since until first in
  (forall out w',
      Pilar3.fetch_commits server owner name since until first w = (out, w') ->
      exists n,
        (1 <= n <= Pilar3.RETRY_LIMIT)%nat /\
        sent w' = sent w ++ repeat rq n /\
        slept w <= slept w')
  /\
  (forall l,
      server (length (sent w)) rq = answer_with_nodes l ->
      Pilar3.fetch_commits server owner name since until first w
      = (Ret (Some l), {| sent := sent w ++ [rq]; slept := slept w |})).
Proof.
  intros rq. split.
  - intros out w' H. now apply fetch_commits_frame with (server := server) (out := out).
  - intros l Hs. unfold Pilar3.fetch_commits, bind, Pilar3.run_query. simpl.
    unfold bind, post. simpl. fold (window_request owner name since until first).
    fold rq. rewrite Hs. reflexivity.
Qed.

Lemma fetch_commits_requests_witness :
  Pilar3.fetch_commits (history_server dormant_history) "octo" "demo"
    (Some 1561939200) (Some 1598918400) 100 world0
  = (Ret (Some [commit_at "r01" 1598918400; commit_at "b2" 1561939200]),
     {| sent := [window_request "octo" "demo" (Some 1561939200) (Some 1598918400) 100];
        slept := 0 |}).
Proof.
  apply (proj2 (fetch_commits_requests (history_server dormant_history) "octo" "demo"
                  (Some 1561939200) (Some 1598918400) 100 world0)).
  reflexivity.
Defined.

Section SelectorRequests.
Variable server : nat -> request Pilar3.window_variables -> reply Pilar3.data.
Variables owner name : string.

Lemma pre_death_windows_requests death_date end_boundary search_windows :
  forall w out w',
    Pilar3.pre_death_windows server owner name death_date end_boundary search_windows w
      = (out, w') ->
    exists new,
      sent w' = sent w ++ new /\
      (length new <= 3 * length search_windows)%nat /\
      slept w <= slept w' /\
      forall rq, In rq new ->
        exists window,
          In window search_windows /\
          rq = window_request owner name (Some (death_date - timedelta_days window))
                 (Some end_boundary) 100.
Proof.
  induction search_windows as [|window rest IH]; intros w out w' H.
  - simpl in H. unfold ret in H. injection H as _ <-.
    exists []. rewrite app_nil_r.
    split; [reflexivity|]. split; [simpl; lia|]. split; [lia|]. intros rq [].
  - cbn [Pilar3.pre_death_windows] in H. unfold bind in H.
    match type of H with
    | context [Pilar3.fetch_commits ?s ?o ?n ?a ?b ?c ?w0] =>
        destruct (Pilar3.fetch_commits s o n a b c w0) as [f w1] eqn:Ef
    end.
    destruct (fetch_commits_frame _ _ _ _ _ _ _ _ _ Ef) as [n [Hn [Hs Ht]]].
    unfold Pilar3.RETRY_LIMIT in *.
    assert (Hhere : w' = w1 ->
      exists new,
        sent w' = sent w ++ new /\
        (length new <= 3 * length (window :: rest))%nat /\
        slept w <= slept w' /\
        forall rq, In rq new ->
          exists window',
            In window' (window :: rest) /\
            rq = window_request owner name (Some (death_date - timedelta_days window'))
                   (Some end_boundary) 100).
    { intros ->. eexists. split; [exact Hs|]. rewrite repeat_length.
      split; [simpl length; lia|]. split; [exact Ht|].
      intros rq Hin. apply repeat_spec in Hin. exists window. split; [now left|exact Hin]. }
    assert (Hcont :
      Pilar3.pre_death_windows server owner name death_date end_boundary rest w1
        = (out, w') ->
      exists new,
        sent w' = sent w ++ new /\
        (length new <= 3 * length (window :: rest))%nat /\
        slept w <= slept w' /\
        forall rq, In rq new ->
          exists window',
            In window' (window :: rest) /\
            rq = window_request owner name (Some (death_date - timedelta_days window'))
                   (Some end_boundary) 100).
    { intros Hrest. destruct (IH _ _ _ Hrest) as [new [Hs' [Hl [Ht' Hall]]]].
      exists (repeat (window_request owner name
                        (Some (death_date - timedelta_days window)) (Some end_boundary) 100) n
              ++ new).
      split; [rewrite Hs', Hs, <- app_assoc; reflexivity|].
      split; [rewrite length_app, repeat_length; simpl length; lia|].
      split; [lia|].
      intros rq Hin. apply in_app_or in Hin as [Hin|Hin].
      - apply repeat_spec in Hin. exists window. split; [now left|exact Hin].
      - destruct (Hall rq Hin) as [win [Hw Hrq]]. exists win. split; [now right|exact Hrq]. }
    destruct f as [[[|node commits]|]|e].
    + now apply Hcont.
    + destruct (Pilar3.parse_pre_death end_boundary (node :: commits) [])
        as [[|p parsed]|e].
      * now apply Hcont.
      * apply Hhere.
        destruct (sorted_by_reverse Pilar3.committed_at (p :: parsed));
          unfold ret, raise in H; congruence.
      * apply Hhere. unfold raise in H. congruence.
    + now apply Hcont.
    + apply Hhere. congruence.
Qed.

Lemma post_revive_windows_requests revive_date search_windows :
  forall collected w out w',
    Pilar3.post_revive_windows server owner name revive_date search_windows collected w
      = (out, w') ->
    exists new,
      sent w' = sent w ++ new /\
      (length new <= 3 * length search_windows)%nat /\
      slept w <= slept w' /\
      forall rq, In rq new ->
        exists window,
          In window search_windows /\
          rq = window_request owner name (Some revive_date)
                 (Some (revive_date + timedelta_days window)) 100.
Proof.
  induction search_windows as [|window rest IH]; intros collected w out w' H.
  - simpl in H. unfold ret in H. injection H as _ <-.
    exists []. rewrite app_nil_r.
    split; [reflexivity|]. split; [simpl; lia|]. split; [lia|]. intros rq [].
  - cbn [Pilar3.post_revive_windows] in H. unfold bind in H.
    match type of H with
    | context [Pilar3.fetch_commits ?s ?o ?n ?a ?b ?c ?w0] =>
        destruct (Pilar3.fetch_commits s o n a b c w0) as [f w1] eqn:Ef
    end.
    destruct (fetch_commits_frame _ _ _ _ _ _ _ _ _ Ef) as [n [Hn [Hs Ht]]].
    unfold Pilar3.RETRY_LIMIT in *.
    assert (Hhere : w' = w1 ->
      exists new,
        sent w' = sent w ++ new /\
        (length new <= 3 * length (window :: rest))%nat /\
        slept w <= slept w' /\
        forall rq, In rq new ->
          exists window',
            In window' (window :: rest) /\
            rq = window_request owner name (Some revive_date)
                   (Some (revive_date + timedelta_days window')) 100).
    { intros ->. eexists. split; [exact Hs|]. rewrite repeat_length.
      split; [simpl length; lia|]. split; [exact Ht|].
      intros rq Hin. apply repeat_spec in Hin. exists window. split; [now left|exact Hin]. }
    assert (Hcont : forall collected1,
      Pilar3.post_revive_windows server owner name revive_date rest collected1 w1
        = (out, w') ->
      exists new,
        sent w' = sent w ++ new /\
        (length new <= 3 * length (window :: rest))%nat /\
        slept w <= slept w' /\
        forall rq, In rq new ->
          exists window',
            In window' (window :: rest) /\
            rq = window_request owner name (Some revive_date)
                   (Some (revive_date + timedelta_days window')) 100).
    { intros collected1 Hrest.
      destruct (IH _ _ _ _ Hrest) as [new [Hs' [Hl [Ht' Hall]]]].
      exists (repeat (window_request owner name (Some revive_date)
                        (Some (revive_date + timedelta_days window)) 100) n ++ new).
      split; [rewrite Hs', Hs, <- app_assoc; reflexivity|].
      split; [rewrite length_app, repeat_length; simpl length; lia|].
      split; [lia|].
      intros rq Hin. apply in_app_or in Hin as [Hin|Hin].
      - apply repeat_spec in Hin. exists window. split; [now left|exact Hin].
      - destruct (Hall rq Hin) as [win [Hw Hrq]]. exists win. split; [now right|exact Hrq]. }
    destruct f as [[[|node commits]|]|e].
    + now apply (Hcont collected).
    + cbn beta iota zeta in H.
      match type of H with
      | context [(10 <=? ?len)%nat] => destruct (10 <=? len)%nat
      end.
      * apply Hhere.
        match type of H with
        | context [nth_error ?l 9] => destruct (nth_error l 9)
        end; unfold ret, raise in H; congruence.
      * now apply (Hcont _ H).
    + now apply (Hcont collected).
    + apply Hhere. congruence.
Qed.
End SelectorRequests.

(** X11.  However it ends, [pick_pre_death_commit] sends at most 12
    requests and [pick_post_revive_commit] at most 15, and every one of
    them is a window query for the given owner and name with page size
    100: for the pre-death search up to [death_date + 1 day] from one of
    the four windows before [death_date], for the post-revival search from
    [revive_date] up to one of the five windows after it.  Neither alters
    the requests already logged. *)
Theorem selectors_requests
    (server : nat -> request Pilar3.window_variables -> reply Pilar3.data)
    (owner name : string) (date : timestamp) (w : world Pilar3.window_variables) :
  (exists new,
      sent (snd (Pilar3.pick_pre_death_commit server owner name date w)) = sent w ++ new /\
      (length new <= 12)%nat /\
      forall rq, In rq new -> pre_death_request owner name date rq)
  /\
  (exists new,
      sent (snd (Pilar3.pick_post_revive_commit server owner name date w)) = sent w ++ new /\
      (length new <= 15)%nat /\
      forall rq, In rq new -> post_revive_request owner name date rq).
Proof.
  split.
  - destruct (Pilar3.pick_pre_death_commit server owner name date w) as [out w'] eqn:E.
    unfold Pilar3.pick_pre_death_commit in E.
    destruct (pre_death_windows_requests server owner name _ _ _ _ _ _ E)
      as [new [Hs [Hl [_ Hall]]]].
    exists new. split; [exact Hs|]. split; [simpl in Hl; exact Hl|exact Hall].
  - destruct (Pilar3.pick_post_revive_commit server owner name date w) as [out w'] eqn:E.
    unfold Pilar3.pick_post_revive_commit in E.
    destruct (post_revive_windows_requests server owner name _ _ _ _ _ _ E)
      as [new [Hs [Hl [_ Hall]]]].
    exists new. split; [exact Hs|]. split; [simpl in Hl; exact Hl|exact Hall].
Qed.

(** X12.  A commit returned by [pick_post_revive_commit] is never earlier
    than [revive_date]: it is the snapshot of a node fetched in one of the
    calls made, dated at or after [revive_date], with a hash that is not
    empty. *)
Theorem pick_post_revive_commit_after_revival
    (server : nat -> request Pilar3.window_variables -> reply Pilar3.data)
    (owner name : string) (revive_date : timestamp)
    (w w' : world Pilar3.window_variables) (c : Pilar3.SnapshotCommit) :
  Pilar3.pick_post_revive_commit server owner name revive_date w = (Ret (Some c), w') ->
  revive_date <= Pilar3.committed_at c /\
  Pilar3.sha c <> ""%string /\
  exists tried node,
    fetch_chain server owner name (post_revive_bounds revive_date) w tried w' /\
    In node (all_nodes tried) /\
    snapshot_from node c.
Proof.
  intros H. unfold Pilar3.pick_post_revive_commit in H.
  assert (Hempty : collected_ok revive_date [] []).
  { repeat split; try (intros; contradiction). constructor. }
  pose proof (post_revive_windows_spec server owner name revive_date
                [30; 90; 180; 365; 730] [] [] w (Some c) w' Hempty
                ltac:(simpl; lia) H) as Hspec.
  destruct Hspec
    as [tried [Hchain [_ [acc [[_ [Hsound _]] [_ [[ordered [Hperm [_ Hnth]]] _]]]]]]].
  apply nth_error_In in Hnth. apply (Permutation_in _ Hperm) in Hnth.
  destruct (Hsound c Hnth) as [node [Hin [Hsnap [Hle Hsha]]]].
  split; [exact Hle|]. split; [exact Hsha|].
  exists tried, node. simpl in Hin. auto.
Qed.

Lemma pick_post_revive_commit_after_revival_witness :
  1598918400 <= 1603152000 /\
  "r10"%string <> ""%string /\
  exists tried node,
    fetch_chain (history_server dormant_history) "octo" "demo"
      (post_revive_bounds 1598918400) world0 tried
      (snd (Pilar3.pick_post_revive_commit (history_server dormant_history) "octo" "demo"
              1598918400 world0)) /\
    In node (all_nodes tried) /\
    snapshot_from node {| Pilar3.sha := "r10"; Pilar3.committed_at := 1603152000;
                          Pilar3.message := "update" |}.
Proof.
  apply (pick_post_revive_commit_after_revival (history_server dormant_history)
           "octo" "demo" 1598918400 world0 _
           {| Pilar3.sha := "r10"; Pilar3.committed_at := 1603152000;
              Pilar3.message := "update" |}).
  vm_compute. reflexivity.
Defined.

(** ** Branch labels, again *)

Section SanitizeFacts.
Variable isalnum : codepoint -> bool.
Hypothesis Hascii : forall c, (c < 128)%N -> isalnum c = ascii_isalnum c.

Lemma sanitize_char_fixed c :
  allowed_char isalnum c -> Pilar3.sanitize_char isalnum c = c.
Proof.
  intros Ha. unfold Pilar3.sanitize_char.
  apply allowed_char_dec in Ha. now rewrite Ha.
Qed.

Lemma sanitize_branch_name_shape value :
  let r := Pilar3.sanitize_branch_name isalnum value in
  r <> [] /\ (length r <= 100)%nat /\ Forall (allowed_char isalnum) r.
Proof.
  intros r. subst r. unfold Pilar3.sanitize_branch_name.
  destruct (firstn 100 (map (Pilar3.sanitize_char isalnum) value)) as [|c l] eqn:E.
  - split; [discriminate|]. split; [simpl; lia|].
    unfold py_str. simpl map.
    repeat (apply List.Forall_cons;
            [left; rewrite Hascii by (vm_compute; reflexivity); reflexivity|]).
    apply List.Forall_nil.
  - rewrite <- E. split; [rewrite E; discriminate|].
    split; [rewrite length_firstn; lia|].
    apply List.Forall_forall. intros x Hin. apply in_firstn in Hin.
    apply in_map_iff in Hin as [y [<- _]]. apply sanitize_char_allowed.
Qed.

Lemma map_fixed {A : Type} (f : A -> A) (P : A -> Prop) (l : list A) :
  (forall x, P x -> f x = x) -> Forall P l -> map f l = l.
Proof.
  intros Hf. induction 1 as [|x l Hx _ IH]; simpl; [reflexivity|].
  now rewrite Hf, IH.
Qed.
End SanitizeFacts.

(** X13.  [sanitize_branch_name] is idempotent: a label it produced is
    returned unchanged when sanitized again. *)
Theorem sanitize_branch_name_idempotent (isalnum : codepoint -> bool)
    (value : list codepoint) :
  (forall c, (c < 128)%N -> isalnum c = ascii_isalnum c) ->
  Pilar3.sanitize_branch_name isalnum (Pilar3.sanitize_branch_name isalnum value)
  = Pilar3.sanitize_branch_name isalnum value.
Proof.
  intros Hascii.
  destruct (sanitize_branch_name_shape isalnum Hascii value) as [Hne [Hlen Hall]].
  set (r := Pilar3.sanitize_branch_name isalnum value) in *.
  unfold Pilar3.sanitize_branch_name at 1.
  rewrite (map_fixed _ _ r (sanitize_char_fixed isalnum) Hall).
  rewrite firstn_all2 by exact Hlen.
  destruct r; [congruence|reflexivity].
Qed.

Lemma sanitize_branch_name_idempotent_witness :
  Pilar3.sanitize_branch_name ascii_isalnum
    (Pilar3.sanitize_branch_name ascii_isalnum (py_str "octo/my.repo-pre"))
  = Pilar3.sanitize_branch_name ascii_isalnum (py_str "octo/my.repo-pre").
Proof.
  apply (sanitize_branch_name_idempotent ascii_isalnum (py_str "octo/my.repo-pre")).
  intros c _. reflexivity.
Defined.

(** ** The pre-death selector: ties *)

Section StableSortFacts.
Context {A : Type} (key : A -> Z).

Lemma insert_by_snoc_le x s m :
  key x <= key m -> insert_by key x (s ++ [m]) = insert_by key x s ++ [m].
Proof.
  intros Hle. induction s as [|y s IH]; simpl.
  - destruct (key x <=? key m) eqn:E; [reflexivity|]. apply Z.leb_gt in E. lia.
  - destruct (key x <=? key y); [reflexivity|]. now rewrite IH.
Qed.

Lemma insert_by_greatest x s :
  (forall y, In y s -> key y < key x) -> insert_by key x s = s ++ [x].
Proof.
  induction s as [|y s IH]; intros H; [reflexivity|]. simpl.
  destruct (key x <=? key y) eqn:E.
  - apply Z.leb_le in E. specialize (H y (or_introl eq_refl)). lia.
  - rewrite IH; [reflexivity|]. intros z Hz. apply H. now right.
Qed.

(** With [reverse=True], the head of the sorted list is the first element
    of the input that carries the greatest key. *)
Lemma sorted_by_reverse_first_max l : forall first rest,
  sorted_by_reverse key l = first :: rest ->
  exists l1 l2,
    l = l1 ++ first :: l2 /\
    (forall x, In x l1 -> key x < key first) /\
    (forall x, In x l2 -> key x <= key first).
Proof.
  induction l as [|x l IH] using rev_ind; intros first rest H.
  - discriminate.
  - unfold sorted_by_reverse in H. rewrite rev_app_distr in H. simpl in H.
    destruct (sorted_by_reverse key l) as [|m others] eqn:Em.
    + apply sorted_by_reverse_nil in Em. subst l. simpl in H. injection H as <- _.
      exists [], []. repeat split; intros ? [].
    + destruct (IH m others eq_refl) as [l1 [l2 [Hl [H1 H2]]]].
      assert (Hs : sorted_by key (rev l) = rev others ++ [m]).
      { unfold sorted_by_reverse in Em.
        rewrite <- (rev_involutive (sorted_by key (rev l))), Em. reflexivity. }
      rewrite Hs in H.
      destruct (Z_le_gt_dec (key x) (key m)) as [Hle|Hgt].
      * rewrite insert_by_snoc_le in H by exact Hle.
        rewrite rev_app_distr in H. simpl in H. injection H as <- _.
        exists l1, (l2 ++ [x]). rewrite Hl, <- app_assoc. simpl.
        split; [reflexivity|]. split; [exact H1|].
        intros y Hy. apply in_app_or in Hy as [Hy|[<-|[]]]; [now apply H2|exact Hle].
      * assert (Hall : forall y, In y (rev others ++ [m]) -> key y < key x).
        { intros y Hy. rewrite <- Hs in Hy.
          apply (Permutation_in _ (sorted_by_perm key (rev l))) in Hy.
          apply in_rev in Hy. rewrite Hl in Hy.
          apply in_app_or in Hy as [Hy|[<-|Hy]];
            [specialize (H1 y Hy)| |specialize (H2 y Hy)]; lia. }
        rewrite (insert_by_greatest x _ Hall) in H.
        rewrite rev_app_distr in H. simpl in H. injection H as <- _.
        exists l, []. split; [reflexivity|]. split; [|intros ? []].
        intros y Hy. apply Hall. rewrite <- Hs.
        apply (Permutation_in _ (Permutation_sym (sorted_by_perm key (rev l)))).
        now apply in_rev in Hy.
Qed.
End StableSortFacts.

Lemma parse_pre_death_omap end_boundary commits : forall parsed result,
  Pilar3.parse_pre_death end_boundary commits parsed = Ret result ->
  result = parsed ++ omap (pre_death_snapshot end_boundary) commits.
Proof.
  induction commits as [|node commits IH]; intros parsed result H; simpl in H.
  - injection H as <-. simpl. now rewrite app_nil_r.
  - assert (Hstep : omap (pre_death_snapshot end_boundary) (node :: commits)
                    = match pre_death_snapshot end_boundary node with
                      | Some c => c :: omap (pre_death_snapshot end_boundary) commits
                      | None => omap (pre_death_snapshot end_boundary) commits
                      end) by reflexivity.
    rewrite Hstep. unfold pre_death_snapshot at 1.
    destruct (committedDate node) as [t|] eqn:Ed; [|discriminate].
    destruct (t <=? end_boundary) eqn:Ele.
    + destruct (oid node) as [sha|] eqn:Eo; [|discriminate].
      rewrite (IH _ _ H). now rewrite <- app_assoc.
    + rewrite (IH _ _ H). now destruct (oid node).
Qed.

Lemma omap_step {A B : Type} (f : A -> option B) (a : A) (l : list A) :
  omap f (a :: l) = match f a with Some b => b :: omap f l | None => omap f l end.
Proof. reflexivity. Qed.

Lemma omap_split {A B : Type} (f : A -> option B) (l : list A) : forall p1 c p2,
  omap f l = p1 ++ c :: p2 ->
  exists l1 x l2, l = l1 ++ x :: l2 /\ omap f l1 = p1 /\ f x = Some c /\ omap f l2 = p2.
Proof.
  induction l as [|a l IH]; intros p1 c p2 H.
  - destruct p1; discriminate.
  - rewrite omap_step in H. destruct (f a) as [b|] eqn:Ea.
    + destruct p1 as [|b' p1]; simpl in H; injection H as -> H.
      * exists [], a, l. repeat split; auto.
      * destruct (IH _ _ _ H) as [l1 [x [l2 [-> [H1 [Hx H2]]]]]].
        exists (a :: l1), x, l2. rewrite omap_step, Ea, H1. repeat split; auto.
    + destruct (IH _ _ _ H) as [l1 [x [l2 [-> [H1 [Hx H2]]]]]].
      exists (a :: l1), x, l2. rewrite omap_step, Ea. repeat split; auto.
Qed.

Lemma pre_death_snapshot_some end_boundary node c :
  pre_death_snapshot end_boundary node = Some c ->
  snapshot_from node c /\ Pilar3.committed_at c <= end_boundary.
Proof.
  unfold pre_death_snapshot.
  destruct (committedDate node) as [t|] eqn:Ed; [|discriminate].
  destruct (oid node) as [sha|] eqn:Eo; [|discriminate].
  destruct (t <=? end_boundary) eqn:Ele; [|discriminate].
  intros H. injection H as <-. unfold snapshot_from. simpl.
  rewrite Ed, Eo. apply Z.leb_le in Ele. auto.
Qed.

Lemma omap_in {A B : Type} (f : A -> option B) (l : list A) (x : A) (y : B) :
  In x l -> f x = Some y -> In y (omap f l).
Proof.
  induction l as [|a l IH]; intros Hin Hx; [contradiction|].
  rewrite omap_step. destruct Hin as [->|Hin].
  - rewrite Hx. now left.
  - destruct (f a); [right|]; now apply IH.
Qed.

Lemma parse_pre_death_returns_all end_boundary commits : forall parsed result,
  Pilar3.parse_pre_death end_boundary commits parsed = Ret result ->
  forall n, In n commits -> forall t, committedDate n = Some t -> t <= end_boundary ->
    exists sha, oid n = Some sha.
Proof.
  induction commits as [|node commits IH]; intros parsed result H n Hin t Ht Hle;
    [contradiction|].
  simpl in H. destruct (committedDate node) as [t0|] eqn:Ed; [|discriminate].
  destruct Hin as [<-|Hin].
  - rewrite Ed in Ht. injection Ht as ->. apply Z.leb_le in Hle. rewrite Hle in H.
    destruct (oid node) as [sha|]; [eauto|discriminate].
  - destruct (t0 <=? end_boundary).
    + destruct (oid node); [|discriminate]. now apply (IH _ _ H n Hin t).
    + now apply (IH _ _ H n Hin t).
Qed.

Section PreDeathPick.
Variable server : nat -> request Pilar3.window_variables -> reply Pilar3.data.
Variables owner name : string.

(** The call of [fetch_commits] whose nodes the result was picked from. *)
Lemma pre_death_windows_pick death_date end_boundary search_windows : forall w c w',
  Pilar3.pre_death_windows server owner name death_date end_boundary search_windows w
    = (Ret (Some c), w') ->
  exists w0 window commits parsed rest,
    In window search_windows /\
    Pilar3.fetch_commits server owner name (Some (death_date - timedelta_days window))
      (Some end_boundary) 100 w0 = (Ret (Some commits), w') /\
    Pilar3.parse_pre_death end_boundary commits [] = Ret parsed /\
    sorted_by_reverse Pilar3.committed_at parsed = c :: rest.
Proof.
  induction search_windows as [|window rest IH]; intros w c w' H.
  - simpl in H. unfold ret in H. congruence.
  - cbn [Pilar3.pre_death_windows] in H. unfold bind in H.
    match type of H with
    | context [Pilar3.fetch_commits ?s ?o ?n ?a ?b ?c0 ?w0] =>
        destruct (Pilar3.fetch_commits s o n a b c0 w0) as [f w1] eqn:Ef
    end.
    assert (Hcont :
      Pilar3.pre_death_windows server owner name death_date end_boundary rest w1
        = (Ret (Some c), w') ->
      exists w0 window' commits parsed others,
        In window' (window :: rest) /\
        Pilar3.fetch_commits server owner name (Some (death_date - timedelta_days window'))
          (Some end_boundary) 100 w0 = (Ret (Some commits), w') /\
        Pilar3.parse_pre_death end_boundary commits [] = Ret parsed /\
        sorted_by_reverse Pilar3.committed_at parsed = c :: others).
    { intros Hrest. destruct (IH _ _ _ Hrest) as [w0 [win [cs [ps [os [Hw Hx]]]]]].
      exists w0, win, cs, ps, os. split; [now right|exact Hx]. }
    destruct f as [[[|node commits]|]|e]; [now apply Hcont| |now apply Hcont|discriminate].
    destruct (Pilar3.parse_pre_death end_boundary (node :: commits) [])
      as [[|p parsed]|e] eqn:Ep; [now apply Hcont| |discriminate].
    destruct (sorted_by_reverse Pilar3.committed_at (p :: parsed)) as [|first others] eqn:Es;
      [discriminate|].
    unfold ret in H. injection H as <- <-.
    exists w, window, (node :: commits), (p :: parsed), others.
    split; [now left|]. split; [exact Ef|]. split; [exact Ep|exact Es].
Qed.
End PreDeathPick.

(** X14.  When several fetched commits share the latest timestamp at or
    before the boundary, [pick_pre_death_commit] returns the first of them
    in the order the endpoint listed them: in the fetch the result comes
    from, every qualifying node listed before the returned one is strictly
    earlier, and every one listed after it is not later. *)
Theorem pick_pre_death_commit_first_latest
    (server : nat -> request Pilar3.window_variables -> reply Pilar3.data)
    (owner name : string) (death_date : timestamp)
    (w w' : world Pilar3.window_variables) (c : Pilar3.SnapshotCommit) :
  Pilar3.pick_pre_death_commit server owner name death_date w = (Ret (Some c), w') ->
  let boundary := death_date + timedelta_days 1 in
  exists w0 window before node after,
    In window [90; 180; 365; 730] /\
    Pilar3.fetch_commits server owner name (Some (death_date - timedelta_days window))
      (Some boundary) 100 w0 = (Ret (Some (before ++ node :: after)), w') /\
    snapshot_from node c /\
    (forall n t, In n before -> committedDate n = Some t -> t <= boundary ->
                 t < Pilar3.committed_at c) /\
    (forall n t, In n after -> committedDate n = Some t -> t <= boundary ->
                 t <= Pilar3.committed_at c).
Proof.
  intros H boundary. unfold Pilar3.pick_pre_death_commit in H. fold boundary in H.
  destruct (pre_death_windows_pick server owner name _ _ _ _ _ _ H)
    as [w0 [window [commits [parsed [rest [Hw [Hf [Hp Hs]]]]]]]].
  pose proof (parse_pre_death_returns_all boundary commits [] parsed Hp) as Hdated.
  apply parse_pre_death_omap in Hp. simpl in Hp.
  destruct (sorted_by_reverse_first_max Pilar3.committed_at parsed c rest Hs)
    as [p1 [p2 [Hparsed [H1 H2]]]].
  rewrite Hparsed in Hp. symmetry in Hp.
  destruct (omap_split _ _ _ _ _ Hp) as [before [node [after [-> [Hb [Hn Ha]]]]]].
  exists w0, window, before, node, after.
  split; [exact Hw|]. split; [exact Hf|].
  split; [exact (proj1 (pre_death_snapshot_some boundary node c Hn))|].
  assert (Hq : forall n t, In n (before ++ node :: after) -> committedDate n = Some t ->
                 t <= boundary ->
                 exists c', pre_death_snapshot boundary n = Some c' /\
                            Pilar3.committed_at c' = t).
  { intros n t Hin Ht Hle. destruct (Hdated n Hin t Ht Hle) as [sha Ho].
    exists (Pilar3.snapshot_of sha t n). unfold pre_death_snapshot.
    rewrite Ht, Ho. apply Z.leb_le in Hle. now rewrite Hle. }
  split.
  - intros n t Hin Ht Hle.
    destruct (Hq n t (in_or_app _ _ _ (or_introl Hin)) Ht Hle) as [c' [Hc' <-]].
    apply H1. rewrite <- Hb. now apply omap_in with (x := n).
  - intros n t Hin Ht Hle.
    assert (Hin' : In n (before ++ node :: after)) by (apply in_or_app; right; now right).
    destruct (Hq n t Hin' Ht Hle) as [c' [Hc' <-]].
    apply H2. rewrite <- Ha. now apply omap_in with (x := n).
Qed.

Lemma pick_pre_death_commit_first_latest_witness :
  exists w0 window before node after,
    In window [90; 180; 365; 730] /\
    Pilar3.fetch_commits (history_server tied_history) "octo" "demo"
      (Some (1578614400 - timedelta_days window))
      (Some (1578614400 + timedelta_days 1)) 100 w0
    = (Ret (Some (before ++ node :: after)),
       snd (Pilar3.pick_pre_death_commit (history_server tied_history) "octo" "demo"
              1578614400 world0)) /\
    snapshot_from node {| Pilar3.sha := "t2"; Pilar3.committed_at := 1561939200;
                          Pilar3.message := "update" |} /\
    (forall n t, In n before -> committedDate n = Some t ->
                 t <= 1578614400 + timedelta_days 1 -> t < 1561939200) /\
    (forall n t, In n after -> committedDate n = Some t ->
                 t <= 1578614400 + timedelta_days 1 -> t <= 1561939200).
Proof.
  apply (pick_pre_death_commit_first_latest (history_server tied_history) "octo" "demo"
           1578614400 world0 _
           {| Pilar3.sha := "t2"; Pilar3.committed_at := 1561939200;
              Pilar3.message := "update" |}).
  vm_compute. reflexivity.
Defined.

(** ** From the classifier's record to [parse_dates] *)

Lemma in_omap {A B : Type} (f : A -> option B) (l : list A) (y : B) :
  In y (omap f l) -> exists x, In x l /\ f x = Some y.
Proof.
  induction l as [|a l IH]; [intros []|].
  rewrite omap_step. destruct (f a) as [b|] eqn:Ea.
  - intros [Hy|H].
    + subst y. exists a. split; [now left|exact Ea].
    + destruct (IH H) as [x [Hx Hf]]. exists x. split; [now right|exact Hf].
  - intros H. destruct (IH H) as [x [Hx Hf]]. exists x. split; [now right|exact Hf].
Qed.

Lemma midnight_gap s e th :
  0 <= th -> th <= days_of (e - s) -> timedelta_days th <= midnight e - midnight s.
Proof.
  unfold days_of, midnight, timedelta_days, SECONDS_PER_DAY. intros H0 H.
  assert (Hes : th * 86400 <= e - s).
  { pose proof (Z.mul_div_le (e - s) 86400 ltac:(lia)). nia. }
  assert (Hdiv : s / 86400 + th <= e / 86400).
  { rewrite <- Z.div_add by lia. apply Z.div_le_mono; lia. }
  nia.
Qed.

Lemma parse_dates_interval (strftime_ymd : timestamp -> string)
    (strptime_ymd : string -> option timestamp) (row : gmap string string)
    (s e : timestamp) :
  reads_back strftime_ymd strptime_ymd s ->
  reads_back strftime_ymd strptime_ymd e ->
  row !! "Data de morte"%string = Some (strftime_ymd s) ->
  row !! "Data de ressurreição"%string = Some (strftime_ymd e) ->
  Pilar3.parse_dates strptime_ymd row
  = Ret {| Pilar3.death := midnight s; Pilar3.revive := midnight e |}.
Proof.
  intros [Hs1 Hs2] [He1 He2] Hm Hr. unfold Pilar3.parse_dates.
  rewrite Hm, Hr. simpl default.
  destruct (String.eqb_spec (py_strip (strftime_ymd e)) "") as [H|_]; [contradiction|].
  rewrite He2.
  destruct (String.eqb_spec (py_strip (strftime_ymd s)) "") as [H|_]; [contradiction|].
  rewrite Hs2. reflexivity.
Qed.

Lemma detect_first_interval_dates commits s e rest :
  detect_inactivity_periods (sort_dates (omap committedDate commits)) default_threshold_days
    = (s, e) :: rest ->
  (exists node, In node commits /\ committedDate node = Some s) /\
  (exists node, In node commits /\ committedDate node = Some e) /\
  default_threshold_days <= days_of (e - s).
Proof.
  intros Hd.
  assert (Hin : In (s, e) (detect_inactivity_periods
                             (sort_dates (omap committedDate commits))
                             default_threshold_days)) by (rewrite Hd; now left).
  destruct (detect_periods_gap _ _ _ _ Hin) as [He Hgap].
  rewrite detect_inactivity_periods_filter in Hin.
  apply List.filter_In in Hin as [Hadj _].
  apply adjacent_fst_in in Hadj as [Hs _].
  apply (proj1 (sort_dates_in _ _)) in Hs. apply (proj1 (sort_dates_in _ _)) in Hs.
  apply (proj1 (sort_dates_in _ _)) in He.
  split; [now apply in_omap|]. split; [now apply in_omap|exact Hgap].
Qed.

(** X15.  A row that carries the death and revival dates of a record of
    the classifier is accepted by [parse_dates], with a death date at
    least 180 days before the revival date, in both scripts; this needs
    only that the dates the formatter writes for the commits of the
    repository are read back by the parser. *)
Theorem parse_dates_of_classifier_record (strftime_ymd : timestamp -> string)
    (strptime_ymd : string -> option timestamp) (r : repo)
    (morte rev : string) (row : gmap string string) :
  dates_read_back strftime_ymd strptime_ymd r ->
  row !! "Data de morte"%string = Some morte ->
  row !! "Data de ressurreição"%string = Some rev ->
  ((exists a,
       Fase1.analyze_repo strftime_ymd r = Ret (Some a) /\
       Fase1.Data_de_morte a = morte /\
       Fase1.Data_de_ressurreicao a = Some rev)
   \/
   (exists a,
       Unificado.analyze_repo strftime_ymd r = Ret (Some a) /\
       Unificado.Data_de_morte a = Some morte /\
       Unificado.Data_de_ressurreicao a = Some rev)) ->
  exists d,
    Pilar3.parse_dates strptime_ymd row = Ret d /\
    timedelta_days 180 <= Pilar3.revive d - Pilar3.death d.
Proof.
  intros Hback Hm Hr Hrec.
  assert (Hgoal : forall commits s e,
    repo_commits r = Ret (Some commits) ->
    (exists node, In node commits /\ committedDate node = Some s) ->
    (exists node, In node commits /\ committedDate node = Some e) ->
    default_threshold_days <= days_of (e - s) ->
    morte = strftime_ymd s -> rev = strftime_ymd e ->
    exists d,
      Pilar3.parse_dates strptime_ymd row = Ret d /\
      timedelta_days 180 <= Pilar3.revive d - Pilar3.death d).
  { intros commits s e Hc [ns [Hns Hds]] [ne [Hne Hde]] Hgap -> ->.
    eexists. split.
    - apply parse_dates_interval with (strftime_ymd := strftime_ymd) (s := s) (e := e);
        [apply (Hback commits ns s Hc Hns Hds)|apply (Hback commits ne e Hc Hne Hde)|
         exact Hm|exact Hr].
    - simpl. apply midnight_gap; [lia|exact Hgap]. }
  destruct Hrec as [[a [Ha [Hmorte Hrev]]]|[a [Ha [Hmorte Hrev]]]].
  - unfold Fase1.analyze_repo in Ha.
    destruct (repo_commits r) as [[[|c cs]|]|ex] eqn:Hc; cbn [outcome_bind] in Ha;
      try discriminate.
    unfold Fase1.commit_dates_of in Ha.
    destruct (detect_inactivity_periods
                (sort_dates (omap committedDate (c :: cs))) default_threshold_days)
      as [|[s e] rest] eqn:Hd; [discriminate|].
    injection Ha as <-. simpl in Hmorte, Hrev.
    destruct (detect_first_interval_dates _ _ _ _ Hd) as [Hs [He Hgap]].
    apply (Hgoal (c :: cs) s e eq_refl Hs He Hgap); [congruence|].
    destruct (has_commit_after e _); congruence.
  - unfold Unificado.analyze_repo in Ha.
    destruct (repo_commits r) as [[[|c cs]|]|ex] eqn:Hc; cbn [outcome_bind] in Ha;
      try discriminate.
    rewrite unificado_commit_dates_of in Ha.
    destruct (forallb dated (c :: cs)); cbn [outcome_bind] in Ha; [|discriminate].
    destruct (detect_inactivity_periods
                (sort_dates (omap committedDate (c :: cs))) default_threshold_days)
      as [|[s e] rest] eqn:Hd; injection Ha as <-; simpl in Hmorte, Hrev;
      [discriminate|].
    destruct (detect_first_interval_dates _ _ _ _ Hd) as [Hs [He Hgap]].
    apply (Hgoal (c :: cs) s e eq_refl Hs He Hgap); congruence.
Qed.


Lemma parse_dates_of_classifier_record_witness :
  exists d,
    Pilar3.parse_dates iso_strptime row_of_record = Ret d /\
    timedelta_days 180 <= Pilar3.revive d - Pilar3.death d.
Proof.
  apply (parse_dates_of_classifier_record iso_strftime iso_strptime
           (repo_with [1577836800; 1578614400; 1598918400; 1601510400])
           "2020-01-10" "2020-09-01" row_of_record).
  - intros commits node t Hc Hin Ht. vm_compute in Hc. injection Hc as <-.
    destruct Hin as [<-|[<-|[<-|[<-|[]]]]]; injection Ht as <-;
      (split; [vm_compute; discriminate|vm_compute; reflexivity]).
  - vm_compute. reflexivity.
  - vm_compute. reflexivity.
  - left. eexists. split; [vm_compute; reflexivity|]. split; vm_compute; reflexivity.
Defined.

(** ** The months of a year *)

(** Evaluates the successors of the month numbers. *)
Ltac next_months :=
  repeat match goal with
         | |- context [Z.pos ?p + 1] =>
             let v := eval vm_compute in (Z.pos p + 1) in
             change (Z.pos p + 1) with v
         end.

Section Months.
Variable date : Z -> Z -> Z -> option Z.
Variable year : Z.
(** [start m] is the first day of month [m] of [year], and [start 13] the
    first day of the next year. *)
Variable start : Z -> Z.
Hypothesis Hdates : forall m, 1 <= m <= 12 -> date year m 1 = Some (start m).
Hypothesis Hnext : date (year + 1) 1 1 = Some (start 13).
Hypothesis Hinc : forall m, 1 <= m <= 12 -> start m < start (m + 1).
Hypothesis Hmin : UnificadoMonths.MIN_ORDINAL <= start 1.
Hypothesis Hmax : start 13 <= UnificadoMonths.MAX_ORDINAL + 1.

Lemma month_cases m : 1 <= m <= 12 ->
  m = 1 \/ m = 2 \/ m = 3 \/ m = 4 \/ m = 5 \/ m = 6 \/
  m = 7 \/ m = 8 \/ m = 9 \/ m = 10 \/ m = 11 \/ m = 12.
Proof. lia. Qed.

Lemma start_chain :
  start 1 < start 2 /\ start 2 < start 3 /\ start 3 < start 4 /\ start 4 < start 5 /\
  start 5 < start 6 /\ start 6 < start 7 /\ start 7 < start 8 /\ start 8 < start 9 /\
  start 9 < start 10 /\ start 10 < start 11 /\ start 11 < start 12 /\ start 12 < start 13.
Proof.
  repeat split; [apply (Hinc 1)|apply (Hinc 2)|apply (Hinc 3)|apply (Hinc 4)|
    apply (Hinc 5)|apply (Hinc 6)|apply (Hinc 7)|apply (Hinc 8)|apply (Hinc 9)|
    apply (Hinc 10)|apply (Hinc 11)|apply (Hinc 12)]; lia.
Qed.

Lemma start_bounds m : 1 <= m <= 12 ->
  start 1 <= start m /\ start m < start (m + 1) /\ start (m + 1) <= start 13.
Proof.
  intros Hm. pose proof start_chain as Hc.
  destruct (month_cases m Hm) as [->|[->|[->|[->|[->|[->|[->|[->|[->|[->|[->| ->]]]]]]]]]]];
    next_months; lia.
Qed.

Lemma month_interval_start m : 1 <= m <= 12 ->
  UnificadoMonths.month_interval date year m = UnificadoMonths.Ok (start m, start (m + 1) - 1).
Proof.
  intros Hm. unfold UnificadoMonths.month_interval. rewrite (Hdates m Hm).
  assert (Hn : (if m =? 12 then date (year + 1) 1 1 else date year (m + 1) 1)
               = Some (start (m + 1))).
  { destruct (Z.eqb_spec m 12) as [->|Hne]; [exact Hnext|apply Hdates; lia]. }
  rewrite Hn. unfold UnificadoMonths.date_minus_days.
  destruct (start_bounds m Hm) as [H1 [H2 H3]].
  unfold UnificadoMonths.MIN_ORDINAL, UnificadoMonths.MAX_ORDINAL in *.
  assert (Hlo : (1 <=? start (m + 1) - 1) = true) by (apply Z.leb_le; lia).
  assert (Hhi : (start (m + 1) - 1 <=? 3652059) = true) by (apply Z.leb_le; lia).
  now rewrite Hlo, Hhi.
Qed.

Lemma monthly_intervals_loop_start months intervals :
  (forall m, In m months -> 1 <= m <= 12) ->
  UnificadoMonths.monthly_intervals_loop date year months intervals
  = UnificadoMonths.Ok (intervals ++ map (fun m => (start m, start (m + 1) - 1)) months).
Proof.
  revert intervals. induction months as [|m months IH]; intros intervals Hm.
  - simpl. now rewrite app_nil_r.
  - simpl. rewrite month_interval_start by (apply Hm; now left).
    rewrite IH by (intros m' Hin; apply Hm; now right).
    now rewrite <- app_assoc.
Qed.

Lemma get_monthly_intervals_start :
  UnificadoMonths.get_monthly_intervals date year
  = UnificadoMonths.Ok (map (fun m => (start m, start (m + 1) - 1))
                          [1; 2; 3; 4; 5; 6; 7; 8; 9; 10; 11; 12]).
Proof.
  unfold UnificadoMonths.get_monthly_intervals.
  rewrite monthly_intervals_loop_start; [reflexivity|].
  intros m Hin. simpl in Hin. lia.
Qed.
End Months.

(** X16.  When the first days of the twelve months of [year] and of the
    next January exist as dates, in increasing order, [get_monthly_intervals]
    returns twelve intervals that partition the year: the [m]-th starts on
    the first day of month [m], none is empty, each ends before the next
    starts, and a day lies in one of them exactly when it is in the year. *)
Theorem get_monthly_intervals_partition (date : Z -> Z -> Z -> option Z) (year : Z)
    (start : Z -> Z) :
  (forall m, 1 <= m <= 12 -> date year m 1 = Some (start m)) ->
  date (year + 1) 1 1 = Some (start 13) ->
  (forall m, 1 <= m <= 12 -> start m < start (m + 1)) ->
  UnificadoMonths.MIN_ORDINAL <= start 1 ->
  start 13 <= UnificadoMonths.MAX_ORDINAL + 1 ->
  exists intervals,
    UnificadoMonths.get_monthly_intervals date year = UnificadoMonths.Ok intervals /\
    map fst intervals = map start [1; 2; 3; 4; 5; 6; 7; 8; 9; 10; 11; 12] /\
    (forall s e, In (s, e) intervals -> s <= e) /\
    StronglySorted (fun p q : Z * Z => snd p < fst q) intervals /\
    (forall day, (exists s e, In (s, e) intervals /\ s <= day <= e)
                 <-> start 1 <= day < start 13).
Proof.
  intros Hdates Hnext Hinc Hmin Hmax.
  pose proof (start_chain start Hinc) as Hc.
  eexists. split; [apply (get_monthly_intervals_start date year start); assumption|].
  split; [reflexivity|]. simpl. next_months. split; [|split].
  - intros s e Hin.
    repeat (destruct Hin as [Hin|Hin]; [injection Hin as <- <-; lia|]). contradiction.
  - repeat (apply SSorted_cons; [|repeat (apply List.Forall_cons; [simpl; lia|]);
                                   apply List.Forall_nil]).
    apply SSorted_nil.
  - intros day. split.
    + intros [s [e [Hin Hd]]].
      repeat (destruct Hin as [Hin|Hin]; [injection Hin as <- <-; lia|]). contradiction.
    + intros Hd.
      assert (Hcase :
        day < start 2 \/ (start 2 <= day < start 3) \/ (start 3 <= day < start 4) \/
        (start 4 <= day < start 5) \/ (start 5 <= day < start 6) \/
        (start 6 <= day < start 7) \/ (start 7 <= day < start 8) \/
        (start 8 <= day < start 9) \/ (start 9 <= day < start 10) \/
        (start 10 <= day < start 11) \/ (start 11 <= day < start 12) \/
        start 12 <= day) by lia.
      destruct Hcase as [H|[H|[H|[H|[H|[H|[H|[H|[H|[H|[H|H]]]]]]]]]]].
      * exists (start 1), (start 2 - 1). split; [now left|lia].
      * exists (start 2), (start 3 - 1). split; [right; now left|lia].
      * exists (start 3), (start 4 - 1). split; [do 2 right; now left|lia].
      * exists (start 4), (start 5 - 1). split; [do 3 right; now left|lia].
      * exists (start 5), (start 6 - 1). split; [do 4 right; now left|lia].
      * exists (start 6), (start 7 - 1). split; [do 5 right; now left|lia].
      * exists (start 7), (start 8 - 1). split; [do 6 right; now left|lia].
      * exists (start 8), (start 9 - 1). split; [do 7 right; now left|lia].
      * exists (start 9), (start 10 - 1). split; [do 8 right; now left|lia].
      * exists (start 10), (start 11 - 1). split; [do 9 right; now left|lia].
      * exists (start 11), (start 12 - 1). split; [do 10 right; now left|lia].
      * exists (start 12), (start 13 - 1). split; [do 11 right; now left|lia].
Qed.


Lemma get_monthly_intervals_partition_witness :
  exists intervals,
    UnificadoMonths.get_monthly_intervals civil_date 2022 = UnificadoMonths.Ok intervals /\
    map fst intervals = map (month_start 2022) [1; 2; 3; 4; 5; 6; 7; 8; 9; 10; 11; 12] /\
    (forall s e, In (s, e) intervals -> s <= e) /\
    StronglySorted (fun p q : Z * Z => snd p < fst q) intervals /\
    (forall day, (exists s e, In (s, e) intervals /\ s <= day <= e)
                 <-> month_start 2022 1 <= day < month_start 2022 13).
Proof.
  apply (get_monthly_intervals_partition civil_date 2022 (month_start 2022)).
  - intros m Hm.
    destruct (month_cases m Hm)
      as [->|[->|[->|[->|[->|[->|[->|[->|[->|[->|[->| ->]]]]]]]]]]];
      vm_compute; reflexivity.
  - vm_compute. reflexivity.
  - intros m Hm.
    destruct (month_cases m Hm)
      as [->|[->|[->|[->|[->|[->|[->|[->|[->|[->|[->| ->]]]]]]]]]]];
      vm_compute; reflexivity.
  - vm_compute. discriminate.
  - vm_compute. discriminate.
Defined.

Lemma monthly_intervals_loop_raises (date : Z -> Z -> Z -> option Z) (year m : Z)
    (e : UnificadoMonths.date_exn) (months : list Z) :
  In m months ->
  UnificadoMonths.month_interval date year m = UnificadoMonths.Err e ->
  forall intervals, exists e',
    UnificadoMonths.monthly_intervals_loop date year months intervals = UnificadoMonths.Err e'.
Proof.
  intros Hin He. induction months as [|m' months IH]; [contradiction|].
  intros intervals. simpl.
  destruct (UnificadoMonths.month_interval date year m') as [interval|e'] eqn:Em;
    [|now exists e'].
  destruct Hin as [->|Hin]; [congruence|]. now apply IH.
Qed.



(** ** Preparing the snapshots *)

Lemma split_first_spec sep s : forall a b,
  split_first sep s = Some (a, b) ->
  s = (a ++ String sep b)%string /\ contains sep a = false.
Proof.
  induction s as [|c s IH]; intros a b H; [discriminate|].
  cbn [split_first] in H. destruct (Ascii.eqb_spec c sep) as [->|Hne].
  - injection H as <- <-. split; reflexivity.
  - destruct (split_first sep s) as [[a' b']|]; [|discriminate].
    injection H as <- <-. destruct (IH a' b' eq_refl) as [-> Hc].
    split; [reflexivity|]. unfold contains in *. cbn [list_ascii_of_string existsb].
    destruct (Ascii.eqb_spec sep c) as [Heq|_]; [congruence|exact Hc].
Qed.

Lemma contains_split sep s :
  contains sep s = true -> exists a b, split_first sep s = Some (a, b).
Proof.
  unfold contains. induction s as [|c s IH]; [discriminate|].
  cbn [list_ascii_of_string existsb split_first]. intros H.
  destruct (Ascii.eqb_spec c sep) as [->|Hne]; [now exists EmptyString, s|].
  destruct (Ascii.eqb_spec sep c) as [Heq|_]; [congruence|].
  destruct (IH H) as [a [b ->]]. now exists (String c a), b.
Qed.

Lemma contains_app sep a b : contains sep (a ++ String sep b) = true.
Proof.
  unfold contains. induction a as [|c a IH].
  - change (existsb (Ascii.eqb sep) (sep :: list_ascii_of_string b) = true).
    cbn [existsb]. now rewrite Ascii.eqb_refl.
  - change (existsb (Ascii.eqb sep) (c :: list_ascii_of_string (a ++ String sep b)) = true).
    cbn [existsb]. rewrite IH. apply orb_true_r.
Qed.

Lemma append_not_empty a c b : String.eqb (a ++ String c b) "" = false.
Proof. destruct a; reflexivity. Qed.

Section SnapshotFacts.
Context {Path OS : Type}.
Variable path_join : Path -> string -> Path.
Variable path_parent : Path -> Path.
Variable path_str : Path -> string.
Variable path_exists : OS -> Path -> bool.
Variable mkdir_parents : OS -> Path -> option OS.
Variable run_process : OS -> list string -> option Path -> option (Z * OS).
Variable server : nat -> request Pilar3.window_variables -> reply Pilar3.data.
Variable strptime_ymd : string -> option timestamp.
Variable isalnum : codepoint -> bool.
Variable isoformat : timestamp -> string.

Lemma subprocess_run_spec cmd cwd (m : Pilar3Snapshots.machine Path OS) out m' :
  Pilar3Snapshots.subprocess_run run_process cmd cwd m = (out, m') ->
  Pilar3Snapshots.net m' = Pilar3Snapshots.net m /\
  Pilar3Snapshots.ran m' = Pilar3Snapshots.ran m ++ [(cmd, cwd)] /\
  match out with
  | Pilar3Snapshots.Done _ => True
  | Pilar3Snapshots.Fail e => local_failure e
  end.
Proof.
  unfold Pilar3Snapshots.subprocess_run. intros H.
  destruct (run_process (Pilar3Snapshots.os m) cmd cwd) as [[rc os']|].
  - destruct (rc =? 0); injection H as <- <-; cbn;
      (split; [reflexivity|split; [reflexivity|]]); [exact I|].
    right. now exists rc, cmd.
  - injection H as <- <-. cbn. split; [reflexivity|split; [reflexivity|now left]].
Qed.

Lemma clone_snapshot_spec repo_url commit_sha target_dir
    (m : Pilar3Snapshots.machine Path OS) out m' :
  Pilar3Snapshots.clone_snapshot path_parent path_str path_exists mkdir_parents run_process
    repo_url commit_sha target_dir m = (out, m') ->
  Pilar3Snapshots.net m' = Pilar3Snapshots.net m /\
  exists cmds rest,
    Pilar3Snapshots.ran m' = Pilar3Snapshots.ran m ++ cmds /\
    clone_snapshot_commands path_str (path_exists (Pilar3Snapshots.os m) target_dir)
      repo_url commit_sha target_dir = cmds ++ rest /\
    match out with
    | Pilar3Snapshots.Done _ => rest = []
    | Pilar3Snapshots.Fail e => local_failure e
    end.
Proof.
  unfold Pilar3Snapshots.clone_snapshot, Pilar3Snapshots.then_, Pilar3Snapshots.exists_,
    clone_snapshot_commands, Pilar3Snapshots.checkout_commit.
  intros H. destruct (path_exists (Pilar3Snapshots.os m) target_dir) eqn:Ex.
  - unfold Pilar3Snapshots.done in H.
    destruct (subprocess_run_spec _ _ _ _ _ H) as [Hn [Hr Ho]].
    split; [exact Hn|]. exists [checkout_command target_dir commit_sha], [].
    split; [exact Hr|]. split; [reflexivity|]. destruct out; [reflexivity|exact Ho].
  - unfold Pilar3Snapshots.ensure_git_clone, Pilar3Snapshots.then_,
      Pilar3Snapshots.exists_, Pilar3Snapshots.mkdir in H.
    rewrite Ex in H.
    destruct (mkdir_parents (Pilar3Snapshots.os m) (path_parent target_dir)) as [os1|].
    + match type of H with
      | context [Pilar3Snapshots.subprocess_run run_process ?c None ?m1] =>
          destruct (Pilar3Snapshots.subprocess_run run_process c None m1)
            as [[[]|e] m2] eqn:Ec
      end.
      * destruct (subprocess_run_spec _ _ _ _ _ Ec) as [Hn1 [Hr1 _]].
        destruct (subprocess_run_spec _ _ _ _ _ H) as [Hn2 [Hr2 Ho]].
        cbn in Hn1, Hr1. split; [congruence|].
        exists [clone_command path_str repo_url target_dir;
                checkout_command target_dir commit_sha], [].
        split; [rewrite Hr2, Hr1, <- app_assoc; reflexivity|].
        split; [reflexivity|]. destruct out; [reflexivity|exact Ho].
      * injection H as <- <-.
        destruct (subprocess_run_spec _ _ _ _ _ Ec) as [Hn1 [Hr1 Ho]].
        cbn in Hn1, Hr1. split; [exact Hn1|].
        exists [clone_command path_str repo_url target_dir],
               [checkout_command target_dir commit_sha].
        split; [exact Hr1|]. split; [reflexivity|exact Ho].
    + injection H as <- <-. split; [reflexivity|].
      exists [], [clone_command path_str repo_url target_dir;
                  checkout_command target_dir commit_sha].
      split; [now rewrite app_nil_r|]. split; [reflexivity|now left].
Qed.

Lemma sanitize_label value :
  value <> [] ->
  Pilar3.sanitize_branch_name isalnum value
  = firstn 100 (map (Pilar3.sanitize_char isalnum) value).
Proof.
  intros Hv. unfold Pilar3.sanitize_branch_name.
  destruct value as [|c value]; [contradiction|reflexivity].
Qed.

Lemma py_str_label (a b : string) (c : ascii) : py_str (a ++ String c b) <> [].
Proof. unfold py_str. destruct a; discriminate. Qed.

Lemma prepare_snapshots_run row snapshots_root (m : Pilar3Snapshots.machine Path OS) out m' :
  Pilar3Snapshots.prepare_snapshots path_join path_parent path_str path_exists mkdir_parents
    run_process server strptime_ymd isalnum isoformat row snapshots_root m = (out, m') ->
  (exists e,
      out = Pilar3Snapshots.Fail (Pilar3Snapshots.Exn e) /\
      Pilar3Snapshots.os m' = Pilar3Snapshots.os m /\
      Pilar3Snapshots.ran m' = Pilar3Snapshots.ran m /\
      exists new,
        sent (Pilar3Snapshots.net m') = sent (Pilar3Snapshots.net m) ++ new /\
        (length new <= 27)%nat) \/
  exists owner name dates pre post w1,
    row_name row = Some (owner ++ "/" ++ name)%string /\
    contains "/" owner = false /\
    Pilar3.parse_dates strptime_ymd row = Ret dates /\
    Pilar3.pick_pre_death_commit server owner name (Pilar3.death dates)
      (Pilar3Snapshots.net m) = (Ret (Some pre), w1) /\
    Pilar3.pick_post_revive_commit server owner name (Pilar3.revive dates) w1
      = (Ret (Some post), Pilar3Snapshots.net m') /\
    exists present cmds rest,
      Pilar3Snapshots.ran m' = Pilar3Snapshots.ran m ++ cmds /\
      prepare_snapshots_commands path_join path_str snapshots_root
        (path_exists (Pilar3Snapshots.os m)
           (snapshot_dir path_join snapshots_root owner name "pre_morte"))
        present (row_url row owner name) owner name pre post = cmds ++ rest /\
      match out with
      | Pilar3Snapshots.Done records =>
          rest = [] /\
          records = snapshot_records path_join path_str isalnum isoformat snapshots_root
                      owner name pre post
      | Pilar3Snapshots.Fail e => local_failure e
      end.
Proof.
  intros H. unfold Pilar3Snapshots.prepare_snapshots in H. unfold row_name.
  assert (Hsame : exists new : list (request Pilar3.window_variables),
            sent (Pilar3Snapshots.net m) = sent (Pilar3Snapshots.net m) ++ new /\
            (length new <= 27)%nat)
    by (exists []; split; [now rewrite app_nil_r|simpl; lia]).
  destruct (py_or (row !! "Nome"%string) (row !! "nameWithOwner"%string))
    as [full|] eqn:Efull.
  2: { injection H as <- <-. left. eexists. repeat split; exact Hsame. }
  destruct (String.eqb full "" || negb (contains "/" full)) eqn:Ec.
  { injection H as <- <-. left. eexists. repeat split; exact Hsame. }
  apply orb_false_iff in Ec as [_ Hc]. apply negb_false_iff in Hc.
  destruct (contains_split _ _ Hc) as [owner [name Hs]].
  unfold py_split_1 in H. rewrite Hs in H.
  destruct (split_first_spec _ _ _ _ Hs) as [-> Hown].
  unfold Pilar3Snapshots.then_ in H at 1.
  destruct (Pilar3.parse_dates strptime_ymd row) as [dates|e] eqn:Ed.
  2: { injection H as <- <-. left. eexists. repeat split; exact Hsame. }
  cbn [Pilar3Snapshots.pure Pilar3Snapshots.done] in H.
  unfold Pilar3Snapshots.then_ in H at 1. unfold Pilar3Snapshots.remote in H at 1.
  destruct (Pilar3.pick_pre_death_commit server owner name (Pilar3.death dates)
              (Pilar3Snapshots.net m)) as [o1 w1] eqn:E1.
  destruct (pre_death_windows_requests _ _ _ _ _ _ _ _ _ E1) as [new1 [Hs1 [Hl1 _]]].
  simpl in Hl1.
  assert (Hfirst : exists new : list (request Pilar3.window_variables),
            sent w1 = sent (Pilar3Snapshots.net m) ++ new /\ (length new <= 27)%nat)
    by (exists new1; split; [exact Hs1|lia]).
  destruct o1 as [[pre|]|e].
  2: { injection H as <- <-. left. eexists. repeat split; exact Hfirst. }
  2: { injection H as <- <-. left. eexists. repeat split; exact Hfirst. }
  unfold Pilar3Snapshots.then_ in H at 1. unfold Pilar3Snapshots.remote in H at 1.
  cbn [Pilar3Snapshots.net Pilar3Snapshots.os Pilar3Snapshots.ran] in H.
  destruct (Pilar3.pick_post_revive_commit server owner name (Pilar3.revive dates) w1)
    as [o2 w2] eqn:E2.
  destruct (post_revive_windows_requests _ _ _ _ _ _ _ _ _ E2) as [new2 [Hs2 [Hl2 _]]].
  simpl in Hl2.
  assert (Hsecond : exists new : list (request Pilar3.window_variables),
            sent w2 = sent (Pilar3Snapshots.net m) ++ new /\ (length new <= 27)%nat).
  { exists (new1 ++ new2). rewrite Hs2, Hs1, <- app_assoc. split; [reflexivity|].
    rewrite length_app. lia. }
  destruct o2 as [[post|]|e].
  2: { injection H as <- <-. left. eexists. repeat split; exact Hsecond. }
  2: { injection H as <- <-. left. eexists. repeat split; exact Hsecond. }
  right. exists owner, name, dates, pre, post, w1.
  split; [reflexivity|]. split; [exact Hown|]. split; [reflexivity|].
  split; [exact E1|].
  unfold Pilar3Snapshots.then_ in H.
  fold (row_url row owner name) in H.
  fold (snapshot_dir path_join snapshots_root owner name "pre_morte") in H.
  fold (snapshot_dir path_join snapshots_root owner name "pos_revive") in H.
  unfold prepare_snapshots_commands.
  match type of H with
  | context [Pilar3Snapshots.clone_snapshot ?a ?b ?c ?d ?e ?u ?s ?t ?m0] =>
      destruct (Pilar3Snapshots.clone_snapshot a b c d e u s t m0) as [[[]|e1] m3] eqn:C1
  end.
  2: { injection H as <- <-.
       destruct (clone_snapshot_spec _ _ _ _ _ _ C1) as [Hn1 [c1 [r1 [Hr1 [Hc1 Hf]]]]].
       cbn [Pilar3Snapshots.net Pilar3Snapshots.os Pilar3Snapshots.ran] in Hn1, Hr1, Hc1.
       rewrite Hn1. split; [exact E2|].
       exists true, c1. eexists. split; [exact Hr1|]. split; [|exact Hf].
       rewrite Hc1, <- app_assoc. reflexivity. }
  destruct (clone_snapshot_spec _ _ _ _ _ _ C1) as [Hn1 [c1 [r1 [Hr1 [Hc1 ->]]]]].
  cbn [Pilar3Snapshots.net Pilar3Snapshots.os Pilar3Snapshots.ran] in Hn1, Hr1, Hc1.
  rewrite app_nil_r in Hc1.
  match type of H with
  | context [Pilar3Snapshots.checkout_commit ?a ?p ?s ?m0] =>
      destruct (Pilar3Snapshots.checkout_commit a p s m0) as [[[]|e2] m4] eqn:C2
  end.
  2: { injection H as <- <-.
       destruct (subprocess_run_spec _ _ _ _ _ C2) as [Hn2 [Hr2 Hf]].
       rewrite Hn2, Hn1. split; [exact E2|].
       exists true. eexists. eexists. split; [rewrite Hr2, Hr1, <- app_assoc; reflexivity|].
       split; [|exact Hf]. rewrite Hc1, <- app_assoc. reflexivity. }
  destruct (subprocess_run_spec _ _ _ _ _ C2) as [Hn2 [Hr2 _]].
  match type of H with
  | context [Pilar3Snapshots.clone_snapshot ?a ?b ?c ?d ?e ?u ?s ?t ?m0] =>
      destruct (Pilar3Snapshots.clone_snapshot a b c d e u s t m0) as [[[]|e3] m5] eqn:C3
  end.
  2: { injection H as <- <-.
       destruct (clone_snapshot_spec _ _ _ _ _ _ C3) as [Hn3 [c3 [r3 [Hr3 [Hc3 Hf]]]]].
       rewrite Hn3, Hn2, Hn1. split; [exact E2|].
       eexists. exists (c1 ++ [checkout_command
                                 (snapshot_dir path_join snapshots_root owner name "pre_morte")
                                 (Pilar3.sha pre)] ++ c3). eexists.
       split; [rewrite Hr3, Hr2, Hr1, <- !app_assoc; reflexivity|].
       split; [|exact Hf]. rewrite Hc1, Hc3, <- !app_assoc. reflexivity. }
  destruct (clone_snapshot_spec _ _ _ _ _ _ C3) as [Hn3 [c3 [r3 [Hr3 [Hc3 ->]]]]].
  rewrite app_nil_r in Hc3.
  match type of H with
  | context [Pilar3Snapshots.checkout_commit ?a ?p ?s ?m0] =>
      destruct (Pilar3Snapshots.checkout_commit a p s m0) as [[[]|e4] m6] eqn:C4
  end.
  2: { injection H as <- <-.
       destruct (subprocess_run_spec _ _ _ _ _ C4) as [Hn4 [Hr4 Hf]].
       rewrite Hn4, Hn3, Hn2, Hn1. split; [exact E2|].
       eexists. eexists. exists [].
       split; [rewrite Hr4, Hr3, Hr2, Hr1, <- !app_assoc; reflexivity|].
       split; [|exact Hf]. rewrite Hc1, Hc3, <- !app_assoc, app_nil_r. reflexivity. }
  destruct (subprocess_run_spec _ _ _ _ _ C4) as [Hn4 [Hr4 _]].
  injection H as <- <-.
  rewrite Hn4, Hn3, Hn2, Hn1. split; [exact E2|].
  eexists. eexists. exists [].
  split; [rewrite Hr4, Hr3, Hr2, Hr1, <- !app_assoc; reflexivity|].
  split; [rewrite Hc1, Hc3, <- !app_assoc, app_nil_r; reflexivity|].
  split; [reflexivity|]. unfold snapshot_records.
  rewrite !sanitize_label by apply py_str_label. reflexivity.
Qed.
End SnapshotFacts.

Lemma pick_pre_death_commit_bound
    (server : nat -> request Pilar3.window_variables -> reply Pilar3.data)
    (owner name : string) (death_date : timestamp)
    (w w' : world Pilar3.window_variables) (c : Pilar3.SnapshotCommit) :
  Pilar3.pick_pre_death_commit server owner name death_date w = (Ret (Some c), w') ->
  Pilar3.committed_at c <= death_date + timedelta_days 1.
Proof.
  intros H. unfold Pilar3.pick_pre_death_commit in H.
  destruct (pre_death_windows_spec server owner name death_date _ w (Some c) w' H)
    as [tried [_ [_ [earlier [window [f [_ [_ [_ [Hle _]]]]]]]]]].
  exact Hle.
Qed.

Lemma pick_post_revive_commit_bound
    (server : nat -> request Pilar3.window_variables -> reply Pilar3.data)
    (owner name : string) (revive_date : timestamp)
    (w w' : world Pilar3.window_variables) (c : Pilar3.SnapshotCommit) :
  Pilar3.pick_post_revive_commit server owner name revive_date w = (Ret (Some c), w') ->
  revive_date <= Pilar3.committed_at c.
Proof.
  intros H. unfold Pilar3.pick_post_revive_commit in H.
  assert (Hempty : collected_ok revive_date [] []).
  { repeat split; try (intros; contradiction). constructor. }
  destruct (post_revive_windows_spec server owner name revive_date
              [30; 90; 180; 365; 730] [] [] w (Some c) w' Hempty ltac:(simpl; lia) H)
    as [tried [_ [_ [acc [[_ [Hsound _]] [_ [[ordered [Hperm [_ Hnth]]] _]]]]]]].
  apply nth_error_In in Hnth. apply (Permutation_in _ Hperm) in Hnth.
  destruct (Hsound c Hnth) as [node [_ [_ [Hle _]]]]. exact Hle.
Qed.

Lemma label_shape (isalnum : codepoint -> bool) (a b : string) (c : ascii) :
  let label := firstn 100 (map (Pilar3.sanitize_char isalnum) (py_str (a ++ String c b))) in
  label <> [] /\ (length label <= 100)%nat /\ Forall (allowed_char isalnum) label.
Proof.
  intros label. subst label. split; [|split].
  - pose proof (py_str_label a b c) as Hne.
    destruct (py_str (a ++ String c b)); [contradiction|discriminate].
  - apply firstn_le_length.
  - apply List.Forall_forall. intros x Hx. apply in_firstn in Hx.
    apply in_map_iff in Hx as [y [<- _]]. apply sanitize_char_allowed.
Qed.

(** X18.  [prepare_snapshots] refuses a row before it does anything: when
    the name the row carries is not of the form owner/name, and when
    [parse_dates] rejects the dates of the row, the exception is raised
    with no request sent, no directory made and no process started. *)
Theorem prepare_snapshots_rejects_row {Path OS : Type}
    (path_join : Path -> string -> Path) (path_parent : Path -> Path)
    (path_str : Path -> string) (path_exists : OS -> Path -> bool)
    (mkdir_parents : OS -> Path -> option OS)
    (run_process : OS -> list string -> option Path -> option (Z * OS))
    (server : nat -> request Pilar3.window_variables -> reply Pilar3.data)
    (strptime_ymd : string -> option timestamp) (isalnum : codepoint -> bool)
    (isoformat : timestamp -> string)
    (row : gmap string string) (snapshots_root : Path)
    (m : Pilar3Snapshots.machine Path OS) :
  let run :=
    Pilar3Snapshots.prepare_snapshots path_join path_parent path_str path_exists
      mkdir_parents run_process server strptime_ymd isalnum isoformat row snapshots_root m in
  ((forall owner name, row_name row <> Some (owner ++ "/" ++ name)%string) ->
   run = (Pilar3Snapshots.Fail
            (Pilar3Snapshots.Exn (PipelineError "Nome do repositório inválido")), m))
  /\
  (forall owner name e,
     row_name row = Some (owner ++ "/" ++ name)%string ->
     Pilar3.parse_dates strptime_ymd row = Raise e ->
     run = (Pilar3Snapshots.Fail (Pilar3Snapshots.Exn e), m)).
Proof.
  intros run. subst run. unfold Pilar3Snapshots.prepare_snapshots.
  change (py_or (row !! "Nome"%string) (row !! "nameWithOwner"%string)) with (row_name row).
  split.
  - intros Hname. destruct (row_name row) as [full|]; [|reflexivity].
    destruct (String.eqb full "" || negb (contains "/" full)) eqn:Ec; [reflexivity|].
    exfalso. apply orb_false_iff in Ec as [_ Hc]. apply negb_false_iff in Hc.
    destruct (contains_split _ _ Hc) as [owner [name Hs]].
    destruct (split_first_spec _ _ _ _ Hs) as [-> _].
    now apply (Hname owner name).
  - intros owner name e Hfull He. rewrite Hfull.
    change ("/" ++ name)%string with (String "/" name).
    rewrite append_not_empty, contains_app. cbn [orb negb].
    destruct (contains_split "/" _ (contains_app "/" owner name)) as [a [b Hs]].
    unfold py_split_1. rewrite Hs.
    unfold Pilar3Snapshots.then_ at 1. rewrite He. reflexivity.
Qed.

(** X19.  However [prepare_snapshots] fails, it has sent at most 27
    requests, and it fails in one of two ways.  Either the exception comes
    from the row or from the search of the two commits, and then no
    directory was made and [subprocess.run] was never called: nothing is
    cloned for a repository without a pre-death commit or without ten
    commits after the revival.  Or the exception comes from the local
    machine, both commits had been found, and the calls of
    [subprocess.run] made are an initial part of those of a run that
    returns. *)
Theorem prepare_snapshots_failures {Path OS : Type}
    (path_join : Path -> string -> Path) (path_parent : Path -> Path)
    (path_str : Path -> string) (path_exists : OS -> Path -> bool)
    (mkdir_parents : OS -> Path -> option OS)
    (run_process : OS -> list string -> option Path -> option (Z * OS))
    (server : nat -> request Pilar3.window_variables -> reply Pilar3.data)
    (strptime_ymd : string -> option timestamp) (isalnum : codepoint -> bool)
    (isoformat : timestamp -> string)
    (row : gmap string string) (snapshots_root : Path)
    (m m' : Pilar3Snapshots.machine Path OS) (e : Pilar3Snapshots.snapshot_exn) :
  Pilar3Snapshots.prepare_snapshots path_join path_parent path_str path_exists
    mkdir_parents run_process server strptime_ymd isalnum isoformat row snapshots_root m
    = (Pilar3Snapshots.Fail e, m') ->
  (exists new,
      sent (Pilar3Snapshots.net m') = sent (Pilar3Snapshots.net m) ++ new /\
      (length new <= 27)%nat) /\
  ((exists e0,
       e = Pilar3Snapshots.Exn e0 /\
       Pilar3Snapshots.os m' = Pilar3Snapshots.os m /\
       Pilar3Snapshots.ran m' = Pilar3Snapshots.ran m)
   \/
   (local_failure e /\
    exists owner name dates pre post w1 present cmds rest,
      row_name row = Some (owner ++ "/" ++ name)%string /\
      Pilar3.parse_dates strptime_ymd row = Ret dates /\
      Pilar3.pick_pre_death_commit server owner name (Pilar3.death dates)
        (Pilar3Snapshots.net m) = (Ret (Some pre), w1) /\
      Pilar3.pick_post_revive_commit server owner name (Pilar3.revive dates) w1
        = (Ret (Some post), Pilar3Snapshots.net m') /\
      Pilar3Snapshots.ran m' = Pilar3Snapshots.ran m ++ cmds /\
      prepare_snapshots_commands path_join path_str snapshots_root
        (path_exists (Pilar3Snapshots.os m)
           (snapshot_dir path_join snapshots_root owner name "pre_morte"))
        present (row_url row owner name) owner name pre post = cmds ++ rest)).
Proof.
  intros H.
  destruct (prepare_snapshots_run _ _ _ _ _ _ _ _ _ _ _ _ _ _ _ H)
    as [(e0 & He & Hos & Hran & Hsent)|
        (owner & name & dates & pre & post & w1 & Hn & _ & Hd & H1 & H2
           & present & cmds & rest & Hran & Hcmds & Hf)].
  - injection He as ->. split; [exact Hsent|]. left. now exists e0.
  - split.
    + destruct (pre_death_windows_requests _ _ _ _ _ _ _ _ _ H1) as [new1 [Hs1 [Hl1 _]]].
      destruct (post_revive_windows_requests _ _ _ _ _ _ _ _ _ H2) as [new2 [Hs2 [Hl2 _]]].
      simpl in Hl1, Hl2. exists (new1 ++ new2).
      rewrite Hs2, Hs1, <- app_assoc, length_app. split; [reflexivity|lia].
    + right. split; [exact Hf|].
      exists owner, name, dates, pre, post, w1, present, cmds, rest. auto 10.
Qed.

(** X20.  When [prepare_snapshots] returns, it returns two records, the
    pre-death snapshot first: their commits are the ones that
    [pick_pre_death_commit] and [pick_post_revive_commit] choose for the
    dates [parse_dates] reads in the row, the first dated at most one day
    after the death date and the second not before the revival date; each
    branch label is not empty, at most 100 characters long and made of
    alphanumerics, hyphens and underscores.  The calls of [subprocess.run]
    are, for each snapshot in turn, the clone unless the directory was
    there, and the checkout of the commit in the directory, twice. *)
Theorem prepare_snapshots_records {Path OS : Type}
    (path_join : Path -> string -> Path) (path_parent : Path -> Path)
    (path_str : Path -> string) (path_exists : OS -> Path -> bool)
    (mkdir_parents : OS -> Path -> option OS)
    (run_process : OS -> list string -> option Path -> option (Z * OS))
    (server : nat -> request Pilar3.window_variables -> reply Pilar3.data)
    (strptime_ymd : string -> option timestamp) (isalnum : codepoint -> bool)
    (isoformat : timestamp -> string)
    (row : gmap string string) (snapshots_root : Path)
    (m m' : Pilar3Snapshots.machine Path OS)
    (records : list Pilar3Snapshots.snapshot_record) :
  Pilar3Snapshots.prepare_snapshots path_join path_parent path_str path_exists
    mkdir_parents run_process server strptime_ymd isalnum isoformat row snapshots_root m
    = (Pilar3Snapshots.Done records, m') ->
  exists owner name dates pre post w1 present,
    row_name row = Some (owner ++ "/" ++ name)%string /\
    contains "/" owner = false /\
    Pilar3.parse_dates strptime_ymd row = Ret dates /\
    Pilar3.pick_pre_death_commit server owner name (Pilar3.death dates)
      (Pilar3Snapshots.net m) = (Ret (Some pre), w1) /\
    Pilar3.pick_post_revive_commit server owner name (Pilar3.revive dates) w1
      = (Ret (Some post), Pilar3Snapshots.net m') /\
    Pilar3.committed_at pre <= Pilar3.death dates + timedelta_days 1 /\
    Pilar3.revive dates <= Pilar3.committed_at post /\
    records = snapshot_records path_join path_str isalnum isoformat snapshots_root
                owner name pre post /\
    (forall r, In r records ->
       Pilar3Snapshots.rec_branch_label r <> [] /\
       (length (Pilar3Snapshots.rec_branch_label r) <= 100)%nat /\
       Forall (allowed_char isalnum) (Pilar3Snapshots.rec_branch_label r)) /\
    Pilar3Snapshots.ran m'
    = Pilar3Snapshots.ran m
      ++ prepare_snapshots_commands path_join path_str snapshots_root
           (path_exists (Pilar3Snapshots.os m)
              (snapshot_dir path_join snapshots_root owner name "pre_morte"))
           present (row_url row owner name) owner name pre post.
Proof.
  intros H.
  destruct (prepare_snapshots_run _ _ _ _ _ _ _ _ _ _ _ _ _ _ _ H)
    as [(e0 & He & _)|
        (owner & name & dates & pre & post & w1 & Hn & Hown & Hd & H1 & H2
           & present & cmds & rest & Hran & Hcmds & -> & ->)]; [discriminate|].
  exists owner, name, dates, pre, post, w1, present.
  split; [exact Hn|]. split; [exact Hown|]. split; [exact Hd|].
  split; [exact H1|]. split; [exact H2|].
  split; [exact (pick_pre_death_commit_bound _ _ _ _ _ _ _ H1)|].
  split; [exact (pick_post_revive_commit_bound _ _ _ _ _ _ _ H2)|].
  split; [reflexivity|]. split.
  - intros r [<-|[<-|[]]]; cbn [Pilar3Snapshots.rec_branch_label];
      change ("-" ++ name ++ "-pre")%string with (String "-" (name ++ "-pre"));
      change ("-" ++ name ++ "-post")%string with (String "-" (name ++ "-post"));
      apply label_shape.
  - rewrite Hran, Hcmds, app_nil_r. reflexivity.
Qed.

(** X21.  [clone_snapshot] never clones into a directory that exists: it
    then calls [subprocess.run] once, for the checkout, and returns when
    the checkout returns 0.  Otherwise its calls are the clone and then
    the checkout, the second only after the first went through.  It sends
    no request, and an exception it raises comes from the local machine. *)
Theorem clone_snapshot_calls {Path OS : Type}
    (path_parent : Path -> Path) (path_str : Path -> string)
    (path_exists : OS -> Path -> bool) (mkdir_parents : OS -> Path -> option OS)
    (run_process : OS -> list string -> option Path -> option (Z * OS))
    (repo_url commit_sha : string) (target_dir : Path)
    (m m' : Pilar3Snapshots.machine Path OS) (out : Pilar3Snapshots.result unit) :
  Pilar3Snapshots.clone_snapshot path_parent path_str path_exists mkdir_parents run_process
    repo_url commit_sha target_dir m = (out, m') ->
  Pilar3Snapshots.net m' = Pilar3Snapshots.net m /\
  (exists cmds rest,
      Pilar3Snapshots.ran m' = Pilar3Snapshots.ran m ++ cmds /\
      clone_snapshot_commands path_str (path_exists (Pilar3Snapshots.os m) target_dir)
        repo_url commit_sha target_dir = cmds ++ rest /\
      match out with
      | Pilar3Snapshots.Done _ => rest = []
      | Pilar3Snapshots.Fail e => local_failure e
      end) /\
  (path_exists (Pilar3Snapshots.os m) target_dir = true ->
   forall os1,
     run_process (Pilar3Snapshots.os m) (fst (checkout_command target_dir commit_sha))
       (Some target_dir) = Some (0, os1) ->
     out = Pilar3Snapshots.Done tt /\ Pilar3Snapshots.os m' = os1).
Proof.
  intros H.
  destruct (clone_snapshot_spec _ _ _ _ _ _ _ _ _ _ _ H) as [Hn Hc].
  split; [exact Hn|]. split; [exact Hc|].
  intros Hp os1 Hrun.
  unfold Pilar3Snapshots.clone_snapshot, Pilar3Snapshots.then_, Pilar3Snapshots.exists_,
    Pilar3Snapshots.checkout_commit, Pilar3Snapshots.subprocess_run in H.
  rewrite Hp in H. cbn [Pilar3Snapshots.done Pilar3Snapshots.os] in H.
  cbn [checkout_command fst] in Hrun. rewrite Hrun in H.
  change (0 =? 0) with true in H. cbv iota in H.
  injection H as <- <-. split; reflexivity.
Qed.

Lemma clone_snapshot_calls_witness :
  let m :=
    Pilar3Snapshots.clone_snapshot text_parent text_str disk_exists disk_mkdir (git_returns 0)
      "https://github.com/octo/demo" "b2" "out/octo__demo/pre_morte"
      (machine0 ["out/octo__demo/pre_morte"%string]) in
  Pilar3Snapshots.net (snd m)
  = Pilar3Snapshots.net (machine0 ["out/octo__demo/pre_morte"%string]) /\
  (exists cmds rest,
      Pilar3Snapshots.ran (snd m)
      = Pilar3Snapshots.ran (machine0 ["out/octo__demo/pre_morte"%string]) ++ cmds /\
      clone_snapshot_commands text_str
        (disk_exists (Pilar3Snapshots.os (machine0 ["out/octo__demo/pre_morte"%string]))
           "out/octo__demo/pre_morte")
        "https://github.com/octo/demo" "b2" "out/octo__demo/pre_morte" = cmds ++ rest /\
      rest = []) /\
  (disk_exists (Pilar3Snapshots.os (machine0 ["out/octo__demo/pre_morte"%string]))
     "out/octo__demo/pre_morte" = true ->
   forall os1,
     git_returns 0 (Pilar3Snapshots.os (machine0 ["out/octo__demo/pre_morte"%string]))
       (fst (checkout_command "out/octo__demo/pre_morte"%string "b2"))
       (Some "out/octo__demo/pre_morte"%string) = Some (0, os1) ->
     Pilar3Snapshots.Done tt = Pilar3Snapshots.Done tt /\ Pilar3Snapshots.os (snd m) = os1).
Proof.
  intros m.
  apply (clone_snapshot_calls text_parent text_str disk_exists disk_mkdir (git_returns 0)
           "https://github.com/octo/demo" "b2" "out/octo__demo/pre_morte"
           (machine0 ["out/octo__demo/pre_morte"%string]) (snd m) (Pilar3Snapshots.Done tt)).
  vm_compute. reflexivity.
Defined.

Lemma prepare_snapshots_failures_witness :
  let e :=
    Pilar3Snapshots.CalledProcessError 128
      ["git"; "clone"; "--quiet"; "https://github.com/octo/demo";
       "out/octo__demo/pre_morte"]%string in
  let m := machine0 [] in
  let m' := snd (prepare_demo 128 []) in
  (exists new,
      sent (Pilar3Snapshots.net m') = sent (Pilar3Snapshots.net m) ++ new /\
      (length new <= 27)%nat) /\
  ((exists e0,
       e = Pilar3Snapshots.Exn e0 /\
       Pilar3Snapshots.os m' = Pilar3Snapshots.os m /\
       Pilar3Snapshots.ran m' = Pilar3Snapshots.ran m)
   \/
   (local_failure e /\
    exists owner name dates pre post w1 present cmds rest,
      row_name row_of_demo = Some (owner ++ "/" ++ name)%string /\
      Pilar3.parse_dates iso_strptime row_of_demo = Ret dates /\
      Pilar3.pick_pre_death_commit (history_server dormant_history) owner name
        (Pilar3.death dates) (Pilar3Snapshots.net m) = (Ret (Some pre), w1) /\
      Pilar3.pick_post_revive_commit (history_server dormant_history) owner name
        (Pilar3.revive dates) w1 = (Ret (Some post), Pilar3Snapshots.net m') /\
      Pilar3Snapshots.ran m' = Pilar3Snapshots.ran m ++ cmds /\
      prepare_snapshots_commands text_join text_str "out"
        (disk_exists (Pilar3Snapshots.os m)
           (snapshot_dir text_join "out" owner name "pre_morte"))
        present (row_url row_of_demo owner name) owner name pre post = cmds ++ rest)).
Proof.
  intros e m m'.
  apply (prepare_snapshots_failures text_join text_parent text_str disk_exists disk_mkdir
           (git_returns 128) (history_server dormant_history) iso_strptime ascii_isalnum
           utc_isoformat row_of_demo "out" m m' e).
  vm_compute. reflexivity.
Defined.

Lemma prepare_snapshots_records_witness :
  let pre_commit :=
    {| Pilar3.sha := "b2"; Pilar3.committed_at := 1561939200; Pilar3.message := "update" |} in
  let post_commit :=
    {| Pilar3.sha := "r10"; Pilar3.committed_at := 1603152000; Pilar3.message := "update" |} in
  let records :=
    snapshot_records text_join text_str ascii_isalnum utc_isoformat "out" "octo" "demo"
      pre_commit post_commit in
  let m := machine0 [] in
  let m' := snd (prepare_demo 0 []) in
  exists owner name dates pre post w1 present,
    row_name row_of_demo = Some (owner ++ "/" ++ name)%string /\
    contains "/" owner = false /\
    Pilar3.parse_dates iso_strptime row_of_demo = Ret dates /\
    Pilar3.pick_pre_death_commit (history_server dormant_history) owner name
      (Pilar3.death dates) (Pilar3Snapshots.net m) = (Ret (Some pre), w1) /\
    Pilar3.pick_post_revive_commit (history_server dormant_history) owner name
      (Pilar3.revive dates) w1 = (Ret (Some post), Pilar3Snapshots.net m') /\
    Pilar3.committed_at pre <= Pilar3.death dates + timedelta_days 1 /\
    Pilar3.revive dates <= Pilar3.committed_at post /\
    records = snapshot_records text_join text_str ascii_isalnum utc_isoformat "out"
                owner name pre post /\
    (forall r, In r records ->
       Pilar3Snapshots.rec_branch_label r <> [] /\
       (length (Pilar3Snapshots.rec_branch_label r) <= 100)%nat /\
       Forall (allowed_char ascii_isalnum) (Pilar3Snapshots.rec_branch_label r)) /\
    Pilar3Snapshots.ran m'
    = Pilar3Snapshots.ran m
      ++ prepare_snapshots_commands text_join text_str "out"
           (disk_exists (Pilar3Snapshots.os m)
              (snapshot_dir text_join "out" owner name "pre_morte"))
           present (row_url row_of_demo owner name) owner name pre post.
Proof.
  intros pre_commit post_commit records m m'.
  apply (prepare_snapshots_records text_join text_parent text_str disk_exists disk_mkdir
           (git_returns 0) (history_server dormant_history) iso_strptime ascii_isalnum
           utc_isoformat row_of_demo "out" m m' records).
  vm_compute. reflexivity.
Defined.
